(* ===== verification/_CoqProject ===== *)
-Q . S2P
Prelude.v
PyStr.v
Utf8.v
Paths.v
Interaction.v
TextSurface.v
Environment.v
FileText.v
Decoration.v
Session.v
Roundtrip.v
Editor.v
Protocol.v
Bounds.v
Liveness.v
StatusBar.v
StatusTimer.v
ErrorReports.v
WriteTargets.v
DirtyFlag.v
Invariants.v
MainLoop.v
UndoHistory.v
Scenarios.v
Refinement.v
