(* ===== verification/Prelude.v ===== *)
(** * SabrinaEdit: a verification development of src/main.py

    The program is a PyQt6 text editor, class [MainWindow] of src/main.py.
    Its logic is a small document session: the fields [current_path] and
    [is_modified], plus the window title, which serves as the "unsaved"
    indicator. Menu actions and shortcuts drive it. It talks to three
    collaborators: the [QTextEdit] widget (the text surface, which owns
    the text and emits [textChanged]), modal dialogs ([QMessageBox],
    [QFileDialog]) and the file system ([open(...).read()] and
    [.write()]).

    ** Files (in the order of _CoqProject)

    - [Prelude] (this file): the scope [py_scope] (Python's [str + str]
      as [^]), the scope [editor_scope] (the monad notation is declared in
      [Interaction]), the hint databases [editor] (resolve) and [editor_rw]
      (rewrite), the tactics [inv] and [split_all], and lemmas on strings
      ([String.append] is opaque to [simpl] under stdpp, so its equations
      are stated here).
    - [PyStr]: the CPython string operations the program's I/O relies on:
      [str.replace] ([str_replace]) and [repr] of an ASCII string
      ([py_repr]), which [OSError.__str__] uses to quote file names.
    - [Utf8]: the codec of [open(..., encoding="utf-8")] (lines 143, 168):
      CPython's encoder ([encode_char], with its bit operations) and
      decoder ([decode_at], with the checks of [codecs.h] in their order),
      and the message of [UnicodeDecodeError] ([decode_message]). Decoding
      an encoding gives the code points back; the decoder accepts only
      encodings; an error lies inside the input, after a prefix that
      decodes. A file is a [string] of bytes, and a text is kept as its
      UTF-8 bytes, which the two round trips make exact.
    - [Paths]: [pathlib.PurePosixPath] as the program uses it. [parse] is
      [Path(path)] (lines 146, 162), [path_str] is [str(p)] (lines 149,
      173), and [name] is [p.name] (lines 148, 172). It proves that
      printing then parsing is the identity on parsed paths, and that a
      name is one clean component.
    - [Interaction]: the external calls as data ([call]) with the answer
      type of each ([resp]). Programs over them form a free monad
      ([prog]), and the state monad [M S] threads the window through it.
      It also holds program equivalence [peq] (with [Proper] instances for
      bind and the weakest preconditions), the monad laws up to [peq], and
      three weakest preconditions over all answers: [all_leaves] (on the
      result), [all_paths] (on the result and the calls made) and
      [all_traces] (on the result and the answered calls), the first two
      being instances of the third. [traces_ok] lifts a property of
      traces that is closed under concatenation through bind.
    - [TextSurface]: the interface the program expects of [QTextEdit], as
      the type class [TextSurface] with laws [TextSurfaceLaws]: read back
      what was set, empty after [clear], and no text change without a
      [textChanged] signal. [UndoHistory] adds what Qt documents of the
      undo stack: [undo] takes back the user's edit, and [setPlainText]
      and [clear] empty the history. [QEditModel] is a concrete instance
      of both, used to run scenarios.
    - [Environment]: the meaning of the calls. A disk ([gmap] from the
      resolved path to the contents), read faults, write faults
      ([WDenied] fails before opening; [WPartial n] truncates, writes [n]
      characters, then fails), the text-mode read, and a script of the
      user's answers. The read ([universal_newlines]) is proved equal to
      CPython's decoder ([newline_decode]: replace "\r\n", then "\r").
      Each [OSError] (a missing file, permission denied, a directory, a
      full disk) shows [OSError.__str__]: the errno, [strerror], and the
      [repr] of the file name when [open] raised it.
      [run] interprets a program and returns the result, the environment
      and the trace of answered calls. [rhoare] gives Hoare triples over
      runs, and [run_all_paths] carries [all_paths] to runs. A read
      decodes the file ([file_text]) and fails with CPython's message
      when it is not UTF-8.
    - [FileText]: the read of the model (check the bytes, translate the
      newlines of the bytes) is CPython's (decode, translate the newlines
      of the [str]) on every file ([py_read]).
    - [Decoration]: the frame of the top-level widget: [resize(800, 600)]
      (line 27), the [try]/[except] around [setWindowIcon(QIcon("app.ico"))]
      (lines 44-48), with Python's exceptions as a sum type ([except],
      [try_except]), [window.show()] (line 220) and the hide of an
      accepted close. [QIcon] of a missing file is a null icon and
      raises nothing, so the [except] is dead code; the model states
      this behaviour of Qt, no theorem derives it.
    - [Session]: [MainWindow]'s state [window] and every method of lines
      129-214: [file_new], [file_open], [file_save], [file_save_as],
      [save_to_path] ([_save_to_path]), [maybe_save], [on_text_changed],
      [closeEvent], [show_about], [update_status], and the constructor
      ([window_init], [main_window_init]). [editor.clear()] and
      [setPlainText] run the slot synchronously, as Qt's direct
      connection does. The theorems give each handler's behaviour on
      every branch, errors included.
    - [Roundtrip]: Save followed by Open of the saved path restores the
      document (path, title, clean flag, text up to line endings); Open
      of a file with "\r" followed by Save with no edit rewrites the
      file ([open_save_rewrites_crlf]).
    - [Editor]: [create_actions], [create_menus] and [create_shortcuts] as
      data; [trigger] and [dispatch] (the [connect] wiring); the
      application [system_step], [reachable] (from [main()]) and the
      executable loop [run_events].
    - [MainLoop]: [main()] as a process pairing the frame with the
      session, the hide of an accepted close and the exit status of
      [sys.exit(app.exec())]; when the process exits, the text is on
      disk or the user discarded it ([exit_saved_or_discarded]).
    - [Protocol]: the exchanges of the handlers with Qt and the file
      system ([block]: a write and its "Saved" message or error box, a
      read and its "Opened" message or error box, the dialogs, the
      question, the status messages, the About box). The history of every
      reachable configuration is a concatenation of them, and a property
      of histories that each block has and concatenation keeps follows
      ([blocks_ind_app]).
    - [Bounds]: the calls one user event makes ([event_calls]): at most
      seven; the question exactly once when New, Open, Exit or close
      finds the document modified, never otherwise; at most one error
      box and one write; and no write after the Open dialog or a read.
    - [Liveness]: the user, choosing the events and the answers
      ([can_reach]), can from any running configuration save the text to
      any writable path and quit, and can also quit leaving the disk as it
      was (Close, answered Discard).
    - [StatusBar]: the last announcement on the [QStatusBar] (the last
      [showMessage] of the trace) agrees with [current_path] in every
      reachable configuration.
    - [StatusTimer]: the event loop with a clock ([timed_step]: each user
      event at a time in milliseconds, its calls at that time) and
      [QStatusBar]'s temporary message with its single-shot timer. At
      any time after the last event, a message is shown exactly when one
      was shown less than 5000 ms earlier, and it is the last one; so
      whatever the bar displays agrees with [current_path].
    - [ErrorReports]: every failed read or write is followed at once by
      the error box quoting it, and every error box is such a report, in
      the whole history of every reachable configuration (a corollary of
      [Protocol]).
    - [WriteTargets]: every write goes to a file the user chose earlier
      in an Open or Save As dialog, and so does the current path.
    - [DirtyFlag]: per event, [is_modified] is set only by an edit of
      the text, and cleared only by New or with a successful write or
      read (the specification's data-model invariant).
    - [Invariants]: the title invariant ([title_ok]: the title is the
      one derived from path and flag, as the spec's design notes ask) and
      the data-safety invariant ([saved_ok]: a clean document is on disk),
      both by rule induction on [reachable], and the general failure of
      the latter under a write that truncates and then fails
      ([partial_write_loses_data]).
    - [UndoHistory]: the Edit menu's Undo and Redo against the session:
      typing and undoing gives the saved text back but leaves the
      document modified, and Open and New empty the history, so the
      previous document cannot come back by Undo.
    - [Scenarios]: the specification's scenarios and the concrete runs
      behind the findings, evaluated with [vm_compute].
    - [Refinement]: the specification's session machine ([Spec]: guard,
      save, save-as, new, open, edit, close as inductive relations), and
      [dispatch_refines]: every user event, for every answer of the
      environment, is one of its transitions.

    ** What the theorems show

    - Refinement: the code implements the specification's state machine.
    - Safety: without truncating write faults, a clean document is on
      disk (up to line endings), so no prompt-less New, Open or close
      loses text. With such a fault the property fails
      ([partial_write_loses_data]): the except branch of
      [_save_to_path] keeps [is_modified] false over a truncated file.
      Within an event, the guard's save completes before a new document
      is chosen. The program writes only to files the user chose. Every
      history follows the protocol of [Protocol].
    - Safety on exit: the process ends only with the text on disk or
      discarded by the user's No.
    - Invariants: the title is the one derived from path and flag, so
      the "*" marker is shown exactly when the document is modified and
      never doubled; what the status bar displays never names a file
      other than the current one; the flag changes only as the
      specification's data model says.
    - Termination and bounds: every event is handled after at most seven
      external calls (the bound is reached), asks the question exactly
      when it must, and shows at most one error box and writes at most
      one file. A status message is shown for exactly 5000 ms, unless a
      later one replaces it. The encoder's bytes stay within UTF-8's
      ranges (lead and continuation bytes, 1 to 4 bytes).
    - Liveness: the user can always save the document and quit, and can
      always quit without touching the disk.
    - Error handling: no failure is silent and no error box is spurious;
      a decoding error names bytes inside the file, as CPython does; a
      failed read leaves the window as the guard left it.
    - Functional and error behaviour: guard outcomes, New/Open/Save/Save
      As/close on every branch, exactly one error dialog per failed read
      or write, no dialog for a cancelled Save As, and Save after Save As
      asks nothing.
    - Equivalence: the read's newline handling is CPython's decoder, and
      the whole read (UTF-8 and newlines) is CPython's on every file.
    - Round trips: [Path(str(p)) = p] on well-formed paths, and
      [p.name] is [posixpath.basename(str(p))]; UTF-8 decoding and
      encoding are inverse on [str]s and on valid files; Save then Open
      gives the document back.
    - Composition with the widget: Undo to the saved text keeps the
      document modified; after Open or New, Undo and Redo change nothing.
    - Findings: CRLF files are rewritten with LF by a Save with no edit;
      the flag means "edited since saved", not "differs from the file";
      a clean re-save that truncates and fails loses the text; the
      icon's [except] never runs (a fact of Qt, recorded in the model).

    ** Bounds and fuel

    No definition needs fuel. Every handler is a finite [prog] tree,
    because the Python call graph is acyclic ([maybe_save] ->
    [file_save] -> [file_save_as] -> [_save_to_path]). So [run] is
    structural and always returns, and [Bounds] gives the depth: seven
    calls. [str_replace] is structural, with a counter for the characters
    of a match still to skip. The event loop is a list of events
    ([run_events]) or the relation [reachable]. Time is a [nat] of
    milliseconds, without bound; handlers take no time (modal dialogs are answered at once), which is what
    the status timer's theorem needs, since all calls of an event share
    its time. There are no machine-width integers in the program.

    ** Not modelled

    Rendering, and the decoding of "app.ico": whether its bytes are an
    image Qt's readers accept is a parameter ([is_image]) of
    [Decoration]. The time a user spends in a modal dialog: the clock of
    [StatusTimer] only advances between events. The internals of
    [QApplication] (its event queue and platform integration) and of
    [QTextEdit] (cursor, selection, rendering; its undo stack enters
    only through the documented laws of [UndoHistory]), and Qt's
    secondary key bindings. Texts are the UTF-8 bytes of a [str], so a
    [str] with a lone surrogate (which [f.write] would refuse with
    [UnicodeEncodeError]) is not representable; the widget is assumed
    never to produce one. [repr] of a file name keeps the bytes from 128
    up, which is Python's output for printable non-ASCII characters but
    not for the non-printable ones it escapes. Path resolution by the OS
    is taken to agree with pathlib's normalisation ([resolve]).

    Which system error a path raises is an input of the environment (the
    fault maps: any path may fail on open, on read, before or after
    truncating), not derived from directories and permission bits:
    those are the operating system's, not the program's, and every
    theorem quantifies over all fault maps, which covers whatever the
    OS does. Infinite runs are not stated separately: the user's answers
    are a finite script, every event is handled after at most seven
    calls ([Bounds]), and the liveness theorems ([Liveness]) say that
    from every reachable state a finite sequence of events saves and
    quits; an infinite run is a sequence of such finite prefixes, each
    reachable. With these, every line of src/main.py that is not an
    import, a comment or blank is modelled. *)

From stdpp Require Export base strings gmap list.
From Stdlib Require Export String Ascii.

(** ** Notation scopes *)

Declare Scope py_scope.
Delimit Scope py_scope with py.
(** Python's [str + str]. *)
Notation "a ^ b" := (String.append a b) : py_scope.

Declare Scope editor_scope.
Delimit Scope editor_scope with editor.

Open Scope string_scope.
Open Scope py_scope.

(** ** Python string helpers *)

(** [s.startswith(p)] *)
Definition startswith (p s : string) : bool := String.prefix p s.

(** The one-character string [c]. *)
Definition chr (c : ascii) : string := String c EmptyString.

(** The escape "\n" of a Python string literal. *)
Definition NL : string := chr "010".

(** The escapes "\r" and "\r\n". *)
Definition CR : string := chr "013".
Definition CRLF : string := String "013" NL.

(** ** Generic lemmas on strings *)

(** stdpp makes [String.append] opaque to [simpl]; these are its equations. *)
Lemma str_app_nil_l (b : string) : "" ^ b = b.
Proof. reflexivity. Qed.

Lemma str_app_cons (x : ascii) (a b : string) : String x a ^ b = String x (a ^ b).
Proof. reflexivity. Qed.

Lemma str_app_assoc (a b c : string) : (a ^ b) ^ c = a ^ (b ^ c).
Proof.
  induction a as [|x a IH]; [done |].
  rewrite !str_app_cons. by rewrite IH.
Qed.

Lemma str_app_nil_r (a : string) : a ^ "" = a.
Proof. induction a as [|x a IH]; [done |]. rewrite str_app_cons. by rewrite IH. Qed.

Lemma str_length_app (a b : string) :
  String.length (a ^ b) = String.length a + String.length b.
Proof. induction a as [|x a IH]; [done |]. rewrite str_app_cons; simpl. by rewrite IH. Qed.

Lemma prefix_refl_app (p s : string) : String.prefix p (p ^ s) = true.
Proof.
  induction p as [|x p IH]; [by destruct s |].
  rewrite str_app_cons; simpl. by destruct (ascii_dec x x).
Qed.

Lemma startswith_cons (c d : ascii) (s : string) :
  startswith (chr c) (String d s) = Ascii.eqb c d.
Proof.
  unfold startswith, chr; simpl.
  destruct (ascii_dec c d), (Ascii.eqb_spec c d); try done.
  by destruct s.
Qed.

Lemma startswith_chr_app (c : ascii) (s : string) :
  startswith (chr c) (chr c ^ s) = true.
Proof. apply prefix_refl_app. Qed.

(** ** Generic lemmas on lists *)

Lemma count_occ_app {A} (dec : forall x y : A, {x = y} + {x <> y})
    (l1 l2 : list A) (x : A) :
  count_occ dec (l1 ++ l2) x = count_occ dec l1 x + count_occ dec l2 x.
Proof.
  induction l1 as [|y l1 IH]; simpl; [done |].
  destruct (dec y x); rewrite IH; lia.
Qed.

(** ** Tactics and hints *)

Create HintDb editor discriminated.
Create Rewrite HintDb editor_rw.
#[export] Hint Rewrite str_app_nil_l str_app_cons str_app_assoc str_app_nil_r : editor_rw.
#[export] Hint Resolve prefix_refl_app startswith_chr_app : editor.

(** Invert a hypothesis and substitute. *)
Ltac inv H := inversion H; subst; clear H.

(** Split every conjunction in the goal and close what [done] can. *)
Ltac split_all := repeat (match goal with |- _ /\ _ => split end); try done.
