(* ===== verification/PyStr.v ===== *)
(** * PyStr: the Python string operations behind the program's I/O

    Two operations of CPython that decide what the program reads and
    shows:
    - [str_replace] is [str.replace(old, new)]: every occurrence of [old],
      scanned left to right without overlap, is replaced. The text-mode
      read of line 144 is defined by it ([newline_decode] in
      [Environment]).
    - [py_repr] is [repr(s)] of an ASCII string (CPython's
      [unicode_repr]). [OSError.__str__] quotes the file name with it, so
      it is part of the message the error box of line 151 shows.

    Each is a structural [Fixpoint] with its equations as lemmas. *)

From S2P Require Import Prelude.

(** ** [str.replace] *)

(** [replace_from old new k s]: the scan of [str.replace] over [s], where
    the first [k] characters still belong to the previous match. *)
Fixpoint replace_from (old new : string) (skip : nat) (s : string) : string :=
  match s with
  | EmptyString => EmptyString
  | String c s' =>
      match skip with
      | S k => replace_from old new k s'
      | O =>
          if String.prefix old s then new ^ replace_from old new (String.length old - 1) s'
          else String c (replace_from old new 0 s')
      end
  end.

(** With an empty [old], Python inserts [new] before every character and at
    the end. *)
Fixpoint insert_everywhere (new s : string) : string :=
  match s with
  | EmptyString => new
  | String c s' => new ^ String c (insert_everywhere new s')
  end.

Definition str_replace (old new s : string) : string :=
  match old with
  | EmptyString => insert_everywhere new s
  | _ => replace_from old new 0 s
  end.

(** ** [repr] of an ASCII string *)

Definition hex_digit (n : nat) : ascii :=
  if (n <? 10)%nat then Ascii.ascii_of_nat (48 + n) else Ascii.ascii_of_nat (87 + n).

(** The quote [repr] uses: a double quote when the string has a single
    quote and no double quote, a single quote otherwise. *)
Fixpoint has_char (c : ascii) (s : string) : bool :=
  match s with
  | EmptyString => false
  | String d s' => if ascii_dec c d then true else has_char c s'
  end.

Definition repr_quote (s : string) : ascii :=
  if has_char "'" s && negb (has_char "034" s) then "034"%char else "'"%char.

(** The escape of one character under quote [q]: the quote and the
    backslash are escaped, tab, newline and carriage return by name,
    other control characters and DEL as [\xhh]. Characters from 128 up
    are not ASCII and are kept (see the header of [Prelude]). *)
Definition repr_char (q c : ascii) : string :=
  let n := Ascii.nat_of_ascii c in
  if ascii_dec c q then String "092" (chr c)
  else if ascii_dec c "092" then String "092" (chr "092")
  else if ascii_dec c "009" then String "092" (chr "t")
  else if ascii_dec c "010" then String "092" (chr "n")
  else if ascii_dec c "013" then String "092" (chr "r")
  else if ((n <? 32) || (n =? 127))%nat then
    String "092" (String "x" (String (hex_digit (n / 16)) (chr (hex_digit (n mod 16)))))
  else chr c.

Fixpoint repr_body (q : ascii) (s : string) : string :=
  match s with
  | EmptyString => EmptyString
  | String c s' => repr_char q c ^ repr_body q s'
  end.

Definition py_repr (s : string) : string :=
  let q := repr_quote s in chr q ^ repr_body q s ^ chr q.

(** ** Equations of [str_replace] for the patterns of the newline decoder *)

(** One-character pattern. *)
Lemma replace_char_eq (c d : ascii) (new s : string) :
  str_replace (chr c) new (String d s) =
    if ascii_dec c d then new ^ str_replace (chr c) new s
    else String d (str_replace (chr c) new s).
Proof. simpl. by destruct (ascii_dec c d), s. Qed.

(** Two-character pattern [a b], at a character other than [a]. *)
Lemma replace_pair_other (a b c : ascii) (new s : string) :
  c <> a ->
  replace_from (String a (chr b)) new 0 (String c s) =
    String c (replace_from (String a (chr b)) new 0 s).
Proof. intros Hc. simpl. destruct (ascii_dec a c); [congruence | done]. Qed.

(** Two-character pattern [a b] at [a b]: replaced, and the scan resumes
    after [b]. *)
Lemma replace_pair_hit (a b : ascii) (new s : string) :
  replace_from (String a (chr b)) new 0 (String a (String b s)) =
    new ^ replace_from (String a (chr b)) new 0 s.
Proof. simpl. destruct (ascii_dec a a), (ascii_dec b b), s; done. Qed.

(** Two-character pattern [a b] at [a] followed by something else. *)
Lemma replace_pair_miss (a b d : ascii) (new s : string) :
  d <> b ->
  replace_from (String a (chr b)) new 0 (String a (String d s)) =
    String a (replace_from (String a (chr b)) new 0 (String d s)).
Proof. intros Hd. simpl. destruct (ascii_dec a a), (ascii_dec b d), s; congruence. Qed.
