(* ===== verification/Utf8.v ===== *)
(** * Utf8: the UTF-8 codec of the file reads and writes

    [open(path, "r", encoding="utf-8")] (line 143) and
    [open(path, "w", encoding="utf-8")] (line 168) use Python's text mode
    with UTF-8 and strict errors. [f.read()] decodes the whole file with
    CPython's UTF-8 decoder ([unicode_decode_utf8] and
    [Objects/stringlib/codecs.h]). The decoder stops at the first invalid
    sequence and raises [UnicodeDecodeError]. [file_open] shows that
    error's [str] in its error box (line 151).

    A file is a Rocq [string]: a list of 8-bit characters, one per byte.
    A Python [str] is a list of code points, [list Z]. This file holds:
    - [encode_char] and [utf8_encode]: CPython's encoder, with its bit
      operations;
    - [utf8_decode]: the decoder, with its checks in CPython's order;
    - [decode_error] (start, end and reason) and [decode_message], the
      [str] of the exception.
    The theorems:
    - decoding an encoding gives the code points back;
    - the decoder accepts only encodings of [str]s, and re-encoding what
      it returns gives the bytes back;
    - an error lies inside the input, the bytes before it decode, and no
      [str] encodes to the input.
    So a valid file's bytes represent its text exactly, and the rest of
    the development keeps texts as their UTF-8 bytes. *)

From S2P Require Import Prelude PyStr.
From Stdlib Require Import ZArith.
From stdpp Require Import pretty.

(** ** Bytes and code points *)

(** The value of a byte of a file. *)
Definition byte_val (a : ascii) : Z := Z.of_N (N_of_ascii a).

(** The byte of a value in [0, 256). *)
Definition byte_of (z : Z) : ascii := ascii_of_N (Z.to_N z).

(** The code points a Python [str] can hold and UTF-8 can encode: below
    0x110000, and not a surrogate. *)
Definition scalar (c : Z) : bool :=
  (0 <=? c)%Z && (c <? 0x110000)%Z && negb ((0xD800 <=? c)%Z && (c <? 0xE000)%Z).

(** ** The encoder *)

Local Open Scope Z_scope.

(** [ucs4lib_utf8_encoder] for one code point. *)
Definition encode_char (c : Z) : list Z :=
  if c <? 0x80 then [c]
  else if c <? 0x800 then
    [Z.lor 0xC0 (Z.shiftr c 6); Z.lor 0x80 (Z.land c 0x3F)]
  else if c <? 0x10000 then
    [Z.lor 0xE0 (Z.shiftr c 12); Z.lor 0x80 (Z.land (Z.shiftr c 6) 0x3F);
     Z.lor 0x80 (Z.land c 0x3F)]
  else
    [Z.lor 0xF0 (Z.shiftr c 18); Z.lor 0x80 (Z.land (Z.shiftr c 12) 0x3F);
     Z.lor 0x80 (Z.land (Z.shiftr c 6) 0x3F); Z.lor 0x80 (Z.land c 0x3F)].

Fixpoint bytes_str (bs : list Z) : string :=
  match bs with
  | [] => EmptyString
  | b :: bs' => String (byte_of b) (bytes_str bs')
  end.

Fixpoint utf8_encode (cs : list Z) : string :=
  match cs with
  | [] => EmptyString
  | c :: cs' => String.append (bytes_str (encode_char c)) (utf8_encode cs')
  end.

(** ** The decoder *)

(** A [UnicodeDecodeError]: the bytes [start, end) and the reason. *)
Record decode_error := DecodeError {
  de_start : nat;
  de_end : nat;
  de_reason : string
}.

(** [IS_CONTINUATION_BYTE]. *)
Definition is_cont (b : Z) : bool := (0x80 <=? b) && (b <? 0xC0).

(** The second byte that [codecs.h] rejects after a valid lead byte:
    overlong forms ([E0], [F0]), surrogates ([ED]) and code points past
    0x10FFFF ([F4]). *)
Definition bad_second (b1 b2 : Z) : bool :=
  negb (is_cont b2) ||
  (if b1 <? 0xF0 then (if b2 <? 0xA0 then b1 =? 0xE0 else b1 =? 0xED)
   else (if b2 <? 0x90 then b1 =? 0xF0 else b1 =? 0xF4)).

(** The errors of [codecs.h]: [InvalidStart] ends after the start byte,
    [InvalidContinuation<k>] after the [k] bytes before the bad one, and
    an incomplete sequence ([ch = 0], with [final]) at the end of the
    input. *)
Definition invalid_start (pos : nat) : decode_error := DecodeError pos (S pos) "invalid start byte".
Definition invalid_cont (pos k : nat) : decode_error :=
  DecodeError pos (pos + k) "invalid continuation byte".
Definition unexpected_end (pos k : nat) : decode_error :=
  DecodeError pos (pos + k) "unexpected end of data".

Definition cons_ok (c : Z) (r : list Z + decode_error) : list Z + decode_error :=
  match r with inl cs => inl (c :: cs) | inr e => inr e end.

(** The decoder from offset [pos] of the file. *)
Fixpoint decode_at (pos : nat) (s : string) : list Z + decode_error :=
  match s with
  | EmptyString => inl []
  | String a1 r1 =>
      let b1 := byte_val a1 in
      if b1 <? 0x80 then cons_ok b1 (decode_at (S pos) r1)
      else if b1 <? 0xC2 then inr (invalid_start pos)
      else if b1 <? 0xE0 then
        match r1 with
        | EmptyString => inr (unexpected_end pos 1)
        | String a2 r2 =>
            let b2 := byte_val a2 in
            if is_cont b2 then
              cons_ok (Z.shiftl b1 6 + b2 - (Z.shiftl 0xC0 6 + 0x80)) (decode_at (pos + 2) r2)
            else inr (invalid_cont pos 1)
        end
      else if b1 <? 0xF5 then
        match r1 with
        | EmptyString => inr (unexpected_end pos 1)
        | String a2 r2 =>
            let b2 := byte_val a2 in
            if bad_second b1 b2 then inr (invalid_cont pos 1) else
            match r2 with
            | EmptyString => inr (unexpected_end pos 2)
            | String a3 r3 =>
                let b3 := byte_val a3 in
                if negb (is_cont b3) then inr (invalid_cont pos 2)
                else if b1 <? 0xF0 then
                  cons_ok (Z.shiftl b1 12 + Z.shiftl b2 6 + b3
                           - (Z.shiftl 0xE0 12 + Z.shiftl 0x80 6 + 0x80))
                          (decode_at (pos + 3) r3)
                else
                  match r3 with
                  | EmptyString => inr (unexpected_end pos 3)
                  | String a4 r4 =>
                      let b4 := byte_val a4 in
                      if is_cont b4 then
                        cons_ok (Z.shiftl b1 18 + Z.shiftl b2 12 + Z.shiftl b3 6 + b4
                                 - (Z.shiftl 0xF0 18 + Z.shiftl 0x80 12 + Z.shiftl 0x80 6 + 0x80))
                                (decode_at (pos + 4) r4)
                      else inr (invalid_cont pos 3)
                  end
            end
        end
      else inr (invalid_start pos)
  end.

(** [bytes.decode("utf-8")] of a whole file. *)
Definition utf8_decode (s : string) : list Z + decode_error := decode_at 0 s.

Definition utf8_valid (s : string) : bool :=
  match utf8_decode s with inl _ => true | inr _ => false end.

Local Close Scope Z_scope.

(** [UnicodeDecodeError.__str__] ([Objects/exceptions.c]): one byte is
    shown in hexadecimal, a longer range by its positions. *)
Definition hex_byte (b : Z) : string :=
  String (hex_digit (Z.to_nat (b / 16))) (chr (hex_digit (Z.to_nat (b mod 16)))).

Definition decode_message (s : string) (e : decode_error) : string :=
  (if Nat.eqb (de_end e) (S (de_start e)) then
    "'utf-8' codec can't decode byte 0x" ^
      hex_byte (match String.get (de_start e) s with Some a => byte_val a | None => 0%Z end) ^
      " in position " ^ pretty (N.of_nat (de_start e)) ^ ": " ^ de_reason e
  else
    "'utf-8' codec can't decode bytes in position " ^ pretty (N.of_nat (de_start e)) ^ "-" ^
      pretty (N.of_nat (de_end e - 1)) ^ ": " ^ de_reason e)%py.

(** ** Bytes as numbers *)

Local Open Scope Z_scope.

Ltac zlia := Z.div_mod_to_equations; lia.

(** Decide every comparison of the goal from the hypotheses. *)
Ltac zdecide :=
  repeat match goal with
  | |- context [?a <? ?b] => destruct (Z.ltb_spec a b); try (exfalso; zlia)
  | |- context [?a <=? ?b] => destruct (Z.leb_spec a b); try (exfalso; zlia)
  | |- context [?a =? ?b] => destruct (Z.eqb_spec a b); try (exfalso; zlia)
  end; cbn [andb orb negb].

(** The same on a hypothesis [H], dropping the branches it rules out. *)
Ltac zdecide_in H :=
  repeat match type of H with
  | context [?a <? ?b] => destruct (Z.ltb_spec a b); try (exfalso; zlia)
  | context [?a <=? ?b] => destruct (Z.leb_spec a b); try (exfalso; zlia)
  | context [?a =? ?b] => destruct (Z.eqb_spec a b); try (exfalso; zlia)
  end; cbn [andb orb negb] in H; try discriminate H.

Lemma byte_val_range (a : ascii) : 0 <= byte_val a < 256.
Proof. unfold byte_val. pose proof (N_ascii_bounded a). lia. Qed.

Lemma byte_val_of (z : Z) : 0 <= z < 256 -> byte_val (byte_of z) = z.
Proof. intros Hz. unfold byte_val, byte_of. rewrite N_ascii_embedding by lia. lia. Qed.

Lemma byte_of_val (a : ascii) : byte_of (byte_val a) = a.
Proof. unfold byte_of, byte_val. rewrite N2Z.id. apply ascii_N_embedding. Qed.

(** A prefix whose low [n] bits are zero, or-ed with a payload below
    [2^n], is their sum. *)
Lemma lor_low (p y n : Z) : 0 <= n -> 0 <= y < 2 ^ n -> p mod 2 ^ n = 0 -> Z.lor p y = p + y.
Proof.
  intros Hn Hy Hp. rewrite <- Z.lxor_lor, <- Z.add_nocarry_lxor; [done |..].
  all: apply Z.bits_inj_0; intros i; rewrite Z.land_spec.
  all: destruct (Z.lt_ge_cases i n) as [Hi | Hi].
  all: try (rewrite <- (Z.mod_small y (2 ^ n)), Z.mod_pow2_bits_high by lia; apply andb_false_r).
  all: destruct (Z.lt_ge_cases i 0); [by rewrite Z.testbit_neg_r |].
  all: rewrite (Z.div_mod p (2 ^ n)), Hp, Z.add_0_r, Z.mul_comm by lia.
  all: by rewrite Z.mul_pow2_bits_low.
Qed.

(** The shifts of the decoder, as products. *)
Lemma shiftl_6 (x : Z) : Z.shiftl x 6 = x * 64.
Proof. by rewrite Z.shiftl_mul_pow2. Qed.
Lemma shiftl_12 (x : Z) : Z.shiftl x 12 = x * 4096.
Proof. by rewrite Z.shiftl_mul_pow2. Qed.
Lemma shiftl_18 (x : Z) : Z.shiftl x 18 = x * 262144.
Proof. by rewrite Z.shiftl_mul_pow2. Qed.

Create Rewrite HintDb utf8_rw.
#[local] Hint Rewrite shiftl_6 shiftl_12 shiftl_18 : utf8_rw.

Lemma land_3f (c : Z) : Z.land c 0x3F = c mod 64.
Proof. change 0x3F with (Z.ones 6). by rewrite Z.land_ones. Qed.

(** The bytes of [encode_char] as arithmetic, per length. *)
Lemma encode_char_1 (c : Z) : 0 <= c < 0x80 -> encode_char c = [c].
Proof. intros Hc. unfold encode_char. by zdecide. Qed.

Lemma encode_char_2 (c : Z) :
  0x80 <= c < 0x800 -> encode_char c = [0xC0 + c / 64; 0x80 + c mod 64].
Proof.
  intros Hc. unfold encode_char. zdecide.
  rewrite Z.shiftr_div_pow2, land_3f, !(lor_low _ _ 6) by zlia. done.
Qed.

Lemma encode_char_3 (c : Z) :
  0x800 <= c < 0x10000 ->
  encode_char c = [0xE0 + c / 4096; 0x80 + c / 64 mod 64; 0x80 + c mod 64].
Proof.
  intros Hc. unfold encode_char. zdecide.
  rewrite !Z.shiftr_div_pow2, !land_3f, (lor_low _ _ 4), !(lor_low _ _ 6) by zlia. done.
Qed.

Lemma encode_char_4 (c : Z) :
  0x10000 <= c < 0x110000 ->
  encode_char c =
    [0xF0 + c / 262144; 0x80 + c / 4096 mod 64; 0x80 + c / 64 mod 64; 0x80 + c mod 64].
Proof.
  intros Hc. unfold encode_char. zdecide.
  rewrite !Z.shiftr_div_pow2, !land_3f, (lor_low _ _ 3), !(lor_low _ _ 6) by zlia. done.
Qed.

(** ** Decoding an encoding *)

Lemma bytes_str_app (b : Z) (bs : list Z) (rest : string) :
  String.append (bytes_str (b :: bs)) rest = String (byte_of b) (String.append (bytes_str bs) rest).
Proof. apply str_app_cons. Qed.

Lemma scalar_spec (c : Z) :
  scalar c = true <-> 0 <= c < 0x110000 /\ ~ (0xD800 <= c < 0xE000).
Proof. unfold scalar. zdecide; split; intros; try done; lia. Qed.

(** The decoder reads back the bytes of one code point. *)
Lemma decode_encode_char (pos : nat) (c : Z) (rest : string) :
  scalar c = true ->
  decode_at pos (String.append (bytes_str (encode_char c)) rest) =
    cons_ok c (decode_at (pos + length (encode_char c)) rest).
Proof.
  rewrite scalar_spec. intros Hc.
  destruct (Z.ltb_spec c 0x80); [rewrite encode_char_1 by lia |];
  [| destruct (Z.ltb_spec c 0x800); [rewrite encode_char_2 by lia |]];
  [| | destruct (Z.ltb_spec c 0x10000); [rewrite encode_char_3 by lia | rewrite encode_char_4 by lia]].
  all: rewrite ?bytes_str_app; cbn [bytes_str length]; rewrite str_app_nil_l.
  all: cbn [decode_at]; rewrite ?byte_val_of by zlia; unfold bad_second, is_cont; zdecide.
  all: rewrite ?Nat.add_1_r; f_equal; autorewrite with utf8_rw; zlia.
Qed.

Lemma decode_encode_at (pos : nat) (cs : list Z) :
  Forall (fun c => scalar c = true) cs -> decode_at pos (utf8_encode cs) = inl cs.
Proof.
  intros Hcs. revert pos. induction Hcs as [| c cs Hc _ IH]; intros pos; [done |].
  cbn [utf8_encode]. by rewrite decode_encode_char, IH.
Qed.

(** ** Re-encoding a decoding *)

Lemma cons_ok_inl (c : Z) (r : list Z + decode_error) (cs : list Z) :
  cons_ok c r = inl cs -> exists cs', r = inl cs' /\ cs = c :: cs'.
Proof. destruct r; cbn; intros [=]; eauto. Qed.

(** One step of case analysis on the decoder's run in [H]: a
    comparison or the end of the input, dropping the impossible and the
    failing branches. *)
Ltac decode_step H :=
  match type of H with
  | context [?a <? ?b] => destruct (Z.ltb_spec a b)
  | context [?a <=? ?b] => destruct (Z.leb_spec a b)
  | context [?a =? ?b] => destruct (Z.eqb_spec a b)
  | cons_ok _ _ = _ => fail 1
  | _ =>
      match goal with
      | r : string |- _ =>
          lazymatch type of H with
          | context [r] =>
              let a := fresh "a" in let r' := fresh "r" in
              destruct r as [| a r']; [| pose proof (byte_val_range a)]
          end
      end
  end; cbn [andb orb negb] in H; try (exfalso; zlia); try discriminate H.

(** A byte computed from the ones the decoder read is the byte read. *)
Ltac byte_back := etransitivity; [| apply byte_of_val]; f_equal; zlia.

Lemma encode_decode_at (n : nat) (pos : nat) (s : string) (cs : list Z) :
  String.length s = n -> decode_at pos s = inl cs ->
  utf8_encode cs = s /\ Forall (fun c => scalar c = true) cs.
Proof.
  revert pos s cs. induction n as [n IH] using lt_wf_ind. intros pos s cs Hn Hd.
  destruct s as [| a1 r1]; [by inversion Hd |].
  pose proof (byte_val_range a1).
  cbn [decode_at] in Hd. unfold bad_second, is_cont in Hd.
  repeat decode_step Hd.
  all: apply cons_ok_inl in Hd as (cs' & Hr & ->).
  all: edestruct IH as [He Hs]; [| reflexivity | exact Hr |]; [cbn in Hn; lia |].
  all: split; [| constructor; [apply scalar_spec; rewrite ?shiftl_6, ?shiftl_12, ?shiftl_18; zlia | done]].
  all: cbn [utf8_encode]; rewrite He; autorewrite with utf8_rw.
  all: first [ rewrite encode_char_1 by zlia | rewrite encode_char_2 by zlia
             | rewrite encode_char_3 by zlia | rewrite encode_char_4 by zlia ].
  all: rewrite ?bytes_str_app; cbn [bytes_str]; rewrite str_app_nil_l.
  all: repeat (apply (f_equal2 String); [byte_back |]); done.
Qed.

(** ** Where the decoder fails *)

Lemma cons_ok_inr (c : Z) (r : list Z + decode_error) (e : decode_error) :
  cons_ok c r = inr e -> r = inr e.
Proof. destruct r; cbn; congruence. Qed.

(** An error from offset [pos] lies in the input, and the bytes from
    [pos] to its start decode. *)
Lemma decode_error_at (n pos : nat) (s : string) (e : decode_error) :
  String.length s = n -> decode_at pos s = inr e ->
  ((pos <= de_start e < de_end e)%nat /\ (de_end e <= pos + String.length s)%nat) /\
  exists cs, decode_at pos (substring 0 (de_start e - pos) s) = inl cs.
Proof.
  revert pos s e. induction n as [n IH] using lt_wf_ind. intros pos s e Hn Hd.
  destruct s as [| a1 r1]; [by inversion Hd |].
  pose proof (byte_val_range a1).
  cbn [decode_at] in Hd. unfold bad_second, is_cont in Hd.
  repeat decode_step Hd.
  all: try (injection Hd as <-; unfold invalid_start, invalid_cont, unexpected_end;
            cbn [de_start de_end String.length]; rewrite Nat.sub_diag; split; [lia | by exists []]).
  all: apply cons_ok_inr in Hd.
  all: match type of Hd with
       | decode_at ?p ?r = _ =>
           let k := lazymatch p with S _ => constr:(1%nat) | (_ + ?k)%nat => k end in
           edestruct (IH (String.length r)) as [Hb [cs Hcs]]; [cbn in Hn; lia | reflexivity | exact Hd |];
           split; [cbn [String.length] in *; lia |];
           replace (de_start e - pos)%nat with (k + (de_start e - p))%nat by lia
       end.
  all: cbn [substring Nat.add decode_at]; unfold bad_second, is_cont; zdecide.
  all: rewrite Hcs; eauto.
Qed.

(** ** The codec's contract *)

(** C15: decoding the UTF-8 encoding of a [str] gives the [str] back. *)
Theorem decode_encode (cs : list Z) :
  Forall (fun c => scalar c = true) cs -> utf8_decode (utf8_encode cs) = inl cs.
Proof. apply decode_encode_at. Qed.

(** C16: the decoder accepts only encodings: what it returns is a [str]
    whose encoding is the input, so a valid file and its text determine
    each other. *)
Theorem encode_decode (s : string) (cs : list Z) :
  utf8_decode s = inl cs -> utf8_encode cs = s /\ Forall (fun c => scalar c = true) cs.
Proof. intros Hd. by apply (encode_decode_at (String.length s) 0 s cs). Qed.

(** C21: when decoding fails, the error's bytes lie inside the input, the
    bytes before them decode, and no [str] encodes to the input. *)
Theorem decode_error_located (s : string) (e : decode_error) :
  utf8_decode s = inr e ->
  (de_start e < de_end e <= String.length s)%nat /\
  (exists cs, utf8_decode (substring 0 (de_start e) s) = inl cs) /\
  (forall cs, Forall (fun c => scalar c = true) cs -> utf8_encode cs <> s).
Proof.
  intros Hd. destruct (decode_error_at _ 0 s e eq_refl Hd) as [[Hs He] Hp].
  rewrite Nat.sub_0_r in Hp. split; [lia | split; [done |]].
  intros cs Hcs <-. unfold utf8_decode in Hd. by rewrite decode_encode_at in Hd.
Qed.


(** ** Witnesses *)

Module Utf8Witnesses.

(** "hé€😀": one, two, three and four bytes. *)
Definition hello : list Z := [104; 233; 0x20AC; 0x1F600].
Definition hello_bytes : string :=
  bytes_str [104; 0xC3; 0xA9; 0xE2; 0x82; 0xAC; 0xF0; 0x9F; 0x98; 0x80].

Lemma decode_encode_witness :
  utf8_encode hello = hello_bytes /\ utf8_decode (utf8_encode hello) = inl hello.
Proof. split; [reflexivity | apply decode_encode; repeat constructor]. Defined.

(** A file holding these ten bytes is the text "hé€😀". *)
Lemma encode_decode_witness :
  utf8_encode hello = hello_bytes /\ Forall (fun c => scalar c = true) hello.
Proof. apply encode_decode. reflexivity. Defined.

(** "h", then a truncated euro sign: CPython's message names the two
    bytes left. *)
Definition truncated : string := bytes_str [104; 0xE2; 0x82].

Lemma decode_error_located_witness :
  decode_message truncated (DecodeError 1 3 "unexpected end of data") =
    "'utf-8' codec can't decode bytes in position 1-2: unexpected end of data" /\
  ((1 < 3 <= String.length truncated)%nat /\
   (exists cs, utf8_decode (substring 0 1 truncated) = inl cs) /\
   (forall cs, Forall (fun c => scalar c = true) cs -> utf8_encode cs <> truncated)).
Proof.
  split; [reflexivity |].
  apply (decode_error_located truncated (DecodeError 1 3 "unexpected end of data")). reflexivity.
Defined.
End Utf8Witnesses.
