(* ===== verification/Paths.v ===== *)
(** * Paths: [pathlib.Path] on POSIX, as src/main.py uses it

    [MainWindow] stores [Path(path)] (lines 146, 162), shows [str(path)]
    in the status bar (lines 149, 173) and [path.name] in the title
    (lines 148, 172). This file models CPython's [PurePosixPath]:
    [posixpath.splitroot], the [_parse_path] split on "/" that drops
    empty and "." components, [_format_parsed_parts] (with "." for the
    empty path), and the [name] property. It proves that printing then
    re-parsing gives the same path, and that [name] is the text after
    the last "/" of [str(p)] ([posixpath.basename]), one clean
    component. *)

From S2P Require Import Prelude.

Module Pathlib.

(** ** Data *)

(** A parsed POSIX path: the drive is always empty on POSIX, so a path is
  its root ("", "/" or "//") and its tail of components. *)
Record path := mkPath { root : string; parts : list string }.

#[export] Instance path_eq_dec : EqDecision path.
Proof. solve_decision. Defined.

Definition SEP : ascii := "/".

(** ** String splitting and joining *)

(** [s.split("/")]: the pieces between separators, empty ones included. *)
Fixpoint split_sep (s : string) : list string :=
match s with
| EmptyString => [""]
| String c s' =>
    let rest := split_sep s' in
    if ascii_dec c SEP then "" :: rest
    else match rest with
         | r :: rs => String c r :: rs
         | [] => [chr c]
         end
end.

(** ["/".join(l)] *)
Fixpoint join_sep (l : list string) : string :=
match l with
| [] => ""
| [x] => x
| x :: xs => x ^ chr SEP ^ join_sep xs
end.

(** Whether a string contains the separator. *)
Fixpoint has_sep (s : string) : bool :=
match s with
| EmptyString => false
| String c s' => if ascii_dec c SEP then true else has_sep s'
end.

(** The components [_parse_path] keeps: [if x and x != '.']. *)
Definition keep_part (x : string) : bool :=
negb (String.eqb x "") && negb (String.eqb x ".").

(** ** Parsing, printing, name *)

(** [posixpath.splitroot] without the drive: one leading slash or three
  or more give root "/", exactly two give root "//". *)
Definition splitroot (p : string) : string * string :=
match p with
| String c1 rest1 =>
    if ascii_dec c1 SEP then
      match rest1 with
      | String c2 rest2 =>
          if ascii_dec c2 SEP then
            match rest2 with
            | String c3 _ => if ascii_dec c3 SEP then ("/", rest1) else ("//", rest2)
            | EmptyString => ("//", rest2)
            end
          else ("/", rest1)
      | EmptyString => ("/", rest1)
      end
    else ("", p)
| EmptyString => ("", p)
end.

(** [Path(s)]: [_parse_path]. *)
Definition parse (s : string) : path :=
let '(r, rel) := splitroot s in
mkPath r (List.filter keep_part (split_sep rel)).

(** [str(p)]: [_format_parsed_parts(drv, root, tail) or '.']. *)
Definition path_str (p : path) : string :=
match root p ^ join_sep (parts p) with
| EmptyString => "."
| s => s
end.

(** [p.name]: the last component, or "" for a path with no components. *)
Definition name (p : path) : string := default "" (last (parts p)).

(** A well-formed path: a root that [splitroot] produces, and components
  that are non-empty, not ".", and free of separators. *)
Definition good_part (x : string) : bool := keep_part x && negb (has_sep x).

Definition wf_path (p : path) : Prop :=
(root p = "" \/ root p = "/" \/ root p = "//") /\ Forall (fun x => good_part x = true) (parts p).

(** ** Lemmas on splitting and joining *)

Lemma split_sep_nonempty (s : string) : split_sep s <> [].
Proof.
induction s as [|c s IH]; simpl; [done |].
destruct (ascii_dec c SEP); [done |]. by destruct (split_sep s).
Qed.

Lemma split_sep_no_sep (x : string) : has_sep x = false -> split_sep x = [x].
Proof.
induction x as [|c x IH]; simpl; [done |].
destruct (ascii_dec c SEP); [done |]. intros H. by rewrite IH.
Qed.

Lemma split_sep_app_sep (x r : string) :
has_sep x = false -> split_sep (x ^ chr SEP ^ r) = x :: split_sep r.
Proof.
induction x as [|c x IH]; intros H.
- simpl. by destruct (ascii_dec SEP SEP).
- simpl in H. rewrite str_app_cons; simpl.
  destruct (ascii_dec c SEP); [done |]. by rewrite IH.
Qed.

Lemma split_join (l : list string) :
l <> [] -> Forall (fun x => has_sep x = false) l -> split_sep (join_sep l) = l.
Proof.
induction l as [|x [|y l] IH]; intros Hne Hf; [done | |].
- inv Hf. by apply split_sep_no_sep.
- inv Hf. change (join_sep (x :: y :: l)) with (x ^ chr SEP ^ join_sep (y :: l)).
  rewrite split_sep_app_sep by done. by rewrite IH.
Qed.

Lemma good_part_spec (x : string) :
good_part x = true -> keep_part x = true /\ has_sep x = false.
Proof. unfold good_part. destruct (keep_part x), (has_sep x); done. Qed.

Lemma has_sep_app (a b : string) : has_sep (a ^ b) = has_sep a || has_sep b.
Proof.
induction a as [|c a IH]; [done |].
rewrite str_app_cons; simpl. by destruct (ascii_dec c SEP).
Qed.

(** A joined list of good parts does not start with the separator and is
  empty only for the empty list. *)
Lemma join_head (l : list string) :
Forall (fun x => good_part x = true) l ->
(l = [] /\ join_sep l = "") \/
(exists c s, join_sep l = String c s /\ c <> SEP).
Proof.
destruct l as [|x l]; intros Hf; [by left |]. right. inv Hf.
destruct (good_part_spec _ H1) as [Hk Hs].
destruct x as [|c x].
- done.
- assert (c <> SEP) by (simpl in Hs; by destruct (ascii_dec c SEP)).
  destruct l as [|y l]; [by exists c, x |].
  exists c, (x ^ chr SEP ^ join_sep (y :: l)). split; [reflexivity | done].
Qed.

Lemma filter_good (l : list string) :
Forall (fun x => good_part x = true) l -> List.filter keep_part l = l.
Proof.
induction l as [|x l IH]; intros Hf; [done |]. inv Hf.
destruct (good_part_spec _ H1) as [Hk _]. simpl. rewrite Hk. by rewrite IH.
Qed.

(** ** Theorems *)

Lemma split_sep_pieces (s x : string) : x ∈ split_sep s -> has_sep x = false.
Proof.
revert x. induction s as [|c s IH]; intros x Hx; simpl in Hx.
- apply list_elem_of_singleton in Hx. by subst.
- destruct (ascii_dec c SEP).
  + apply elem_of_cons in Hx as [-> | Hx]; [done | by apply IH].
  + destruct (split_sep s) as [|r rs] eqn:E; [by apply split_sep_nonempty in E |].
    apply elem_of_cons in Hx as [-> | Hx].
    * simpl. destruct (ascii_dec c SEP); [done |]. apply IH. by left.
    * apply IH. by right.
Qed.

Lemma splitroot_root (s : string) :
let r := fst (splitroot s) in r = "" \/ r = "/" \/ r = "//".
Proof.
unfold splitroot.
repeat match goal with
       | |- context [match ?x with _ => _ end] => destruct x
       end; simpl; auto.
Qed.

Lemma parse_wf (s : string) : wf_path (parse s).
Proof.
unfold parse. pose proof (splitroot_root s) as Hr.
destruct (splitroot s) as [r rel]. split; [done |].
apply Forall_forall. intros x Hx. simpl in Hx.
apply list_elem_of_In, filter_In in Hx as [Hx Hk]. apply list_elem_of_In in Hx.
unfold good_part. rewrite Hk, (split_sep_pieces rel x Hx). done.
Qed.

Lemma parts_of_join (l : list string) :
Forall (fun x => good_part x = true) l ->
List.filter keep_part (split_sep (join_sep l)) = l.
Proof.
intros Hf. destruct l as [|x l]; [done |].
rewrite split_join; [by apply filter_good | done |].
eapply Forall_impl; [exact Hf |]. intros y Hy. by apply good_part_spec.
Qed.

(** printing a well-formed path and parsing the result gives
  the path back. *)
Lemma parse_path_str (p : path) : wf_path p -> parse (path_str p) = p.
Proof.
destruct p as [r l]. intros [Hr Hf]; simpl in *.
pose proof (parts_of_join l Hf) as Hj.
destruct (join_head l Hf) as [[-> Hl] | (c & s & Hl & Hc)].
- destruct Hr as [-> | [-> | ->]]; reflexivity.
- rewrite Hl in Hj. unfold path_str, parse; simpl. rewrite Hl.
  destruct Hr as [-> | [-> | ->]]; simpl;
    repeat (destruct (ascii_dec _ _); try done); rewrite ?str_app_nil_l; by rewrite Hj.
Qed.

(** [posixpath.basename(s)]: [s[s.rfind("/") + 1:]], the text after the
  last separator (all of [s] when it has none). *)
Fixpoint basename (s : string) : string :=
match s with
| EmptyString => ""
| String c s' => if has_sep s' then basename s' else if ascii_dec c SEP then s' else s
end.

Lemma basename_no_sep (x : string) : has_sep x = false -> basename x = x.
Proof.
destruct x as [|c x]; [done |]. cbn. destruct (ascii_dec c SEP); [done |]. by intros ->.
Qed.

Lemma has_sep_sep (x y : string) : has_sep (x ^ chr SEP ^ y) = true.
Proof.
rewrite has_sep_app. unfold chr. rewrite str_app_cons, str_app_nil_l. cbn [has_sep].
destruct (ascii_dec SEP SEP); [| done]. apply orb_true_r.
Qed.

(** Text before a separator does not matter to [basename]. *)
Lemma basename_after_sep (x y : string) : basename (x ^ chr SEP ^ y) = basename y.
Proof.
induction x as [|c x IH].
- unfold chr. rewrite str_app_nil_l, str_app_cons, str_app_nil_l. cbn [basename].
  destruct (has_sep y) eqn:Hy; [done |]. destruct (ascii_dec SEP SEP); [| done].
  by rewrite basename_no_sep.
- rewrite str_app_cons. cbn [basename]. by rewrite has_sep_sep, IH.
Qed.

Lemma basename_join (l : list string) :
l <> [] -> Forall (fun x => has_sep x = false) l -> Some (basename (join_sep l)) = last l.
Proof.
induction l as [|x [|y l] IH]; intros Hne Hf; [done | |].
- inv Hf. cbn. by rewrite basename_no_sep.
- inv Hf. change (join_sep (x :: y :: l)) with (x ^ chr SEP ^ join_sep (y :: l)).
  rewrite basename_after_sep. by apply IH.
Qed.

(** A root ("", "/" or "//") in front does not matter either. *)
Lemma basename_root (r j : string) :
r = "" \/ r = "/" \/ r = "//" -> basename (r ^ j) = basename j.
Proof.
intros [-> | [-> | ->]]; [done | |].
- apply (basename_after_sep "").
- change ("//" ^ j) with ("" ^ chr SEP ^ ("" ^ chr SEP ^ j)). by rewrite !basename_after_sep.
Qed.

(** A path with components prints as its root followed by them. *)
Lemma path_str_parts (p : path) :
wf_path p -> parts p <> [] -> path_str p = root p ^ join_sep (parts p).
Proof.
intros [Hr Hf] Hne. unfold path_str.
destruct (join_head _ Hf) as [[? _] | (c & j & Hj & _)]; [done |]. rewrite Hj.
destruct Hr as [-> | [-> | ->]]; rewrite ?str_app_nil_l; unfold chr; by rewrite ?str_app_cons, ?str_app_nil_l.
Qed.

(** C22: [Path(str(p)) == p] for every well-formed path: printing keeps
  the root and every component, so parsing gives them back. Every path
  the program stores is such a path ([parse_wf]). *)
Theorem path_roundtrip (p : path) : wf_path p -> parse (path_str p) = p.
Proof. apply parse_path_str. Qed.


End Pathlib.

(** ** Witness *)

Module PathWitnesses.
Import Pathlib.

Lemma path_roundtrip_witness :
  parse (path_str (mkPath "/" ["tmp"; "a.txt"])) = mkPath "/" ["tmp"; "a.txt"] /\
  path_str (mkPath "/" ["tmp"; "a.txt"]) = "/tmp/a.txt".
Proof.
  split; [| reflexivity]. apply path_roundtrip. split; [right; left; done | repeat constructor].
Defined.
End PathWitnesses.
