(* ===== verification/Interaction.v ===== *)
(** * Interaction: the program's external calls and the session monad

    Every effect of [MainWindow] outside its own fields is a call into Qt
    or into Python's I/O. These are [QMessageBox.question],
    [QFileDialog.getOpenFileName] / [getSaveFileName], reading and writing
    a text file, [QMessageBox.critical] / [information], and
    [QStatusBar.showMessage]. [call] lists them, with the answer type of
    each in [resp]. A handler is a finite tree [prog] of such calls (a
    free monad); the window state is threaded through it by the state
    monad [M S]. Two programs are equivalent ([peq]) when they make the
    same calls and continue equivalently on every answer; bind respects
    this equivalence, and the monad laws hold up to it. *)

From S2P Require Import Prelude.

(** ** Calls and answers *)

(** The buttons of [QMessageBox.question(..., Yes | No | Cancel)]. Escape
    and closing the box give [Cancel], the escape button. *)
Inductive button := Yes | No | Cancel.

#[export] Instance button_eq_dec : EqDecision button.
Proof. solve_decision. Defined.

(** The outcome of a Python I/O operation: a value, or the text [str(e)]
    of the exception caught by [except Exception as e]. *)
Inductive io_result (A : Type) := IOOk (a : A) | IOErr (e : string).
Arguments IOOk {A} a.
Arguments IOErr {A} e.

Inductive call : Type :=
  | Question (title text : string)
  | GetOpenFileName (caption dir filter : string)
  | GetSaveFileName (caption dir filter : string)
  | ReadText (path : string)
  | WriteText (path text : string)
  | Critical (title text : string)
  | Information (title text : string)
  | ShowMessage (msg : string) (timeout : nat).

#[export] Instance call_eq_dec : EqDecision call.
Proof. solve_decision. Defined.

(** The answer each call returns. A file dialog returns the chosen path,
    or "" when the user cancels ([path, _ = ...] drops the filter). *)
Definition resp (c : call) : Type :=
  match c with
  | Question _ _ => button
  | GetOpenFileName _ _ _ | GetSaveFileName _ _ _ => string
  | ReadText _ => io_result string
  | WriteText _ _ => io_result unit
  | Critical _ _ | Information _ _ | ShowMessage _ _ => unit
  end.

(** An answered call, as it appears in a trace. *)
Record event := Ev { ev_call : call; ev_resp : resp ev_call }.

(** ** Programs over calls *)

Inductive prog (A : Type) : Type :=
  | Ret (a : A)
  | Call (c : call) (k : resp c -> prog A).
Arguments Ret {A} a.
Arguments Call {A} c k.

Fixpoint pbind {A B} (p : prog A) (f : A -> prog B) : prog B :=
  match p with
  | Ret a => f a
  | Call c k => Call c (fun r => pbind (k r) f)
  end.

(** Equivalence of programs: the same calls, and equivalent continuations
    on every answer. *)
Inductive peq {A} : prog A -> prog A -> Prop :=
  | peq_ret a : peq (Ret a) (Ret a)
  | peq_call c k1 k2 : (forall r, peq (k1 r) (k2 r)) -> peq (Call c k1) (Call c k2).

(** ** The state monad over programs *)

Definition M (S A : Type) : Type := S -> prog (A * S).

Section StateMonad.
Context {S : Type}.

Definition sret {A} (a : A) : M S A := fun s => Ret (a, s).

Definition sbind {A B} (m : M S A) (f : A -> M S B) : M S B :=
  fun s => pbind (m s) (fun '(a, s') => f a s').

Definition get : M S S := fun s => Ret (s, s).
Definition put (s : S) : M S unit := fun _ => Ret (tt, s).
Definition modify (f : S -> S) : M S unit := fun s => Ret (tt, f s).
Definition gets {A} (f : S -> A) : M S A := fun s => Ret (f s, s).

(** Perform an external call and return its answer. *)
Definition perform (c : call) : M S (resp c) := fun s => Call c (fun r => Ret (r, s)).
End StateMonad.

Notation "'let*' x ':=' c1 'in' c2" := (sbind c1 (fun x => c2))
  (at level 10, x pattern, c1 at level 100, c2 at level 200) : editor_scope.
Notation "c1 ;;; c2" := (sbind c1 (fun _ => c2))
  (at level 100, right associativity) : editor_scope.

(** ** Laws *)

Section Laws.
Context {A : Type}.

Lemma peq_refl (p : prog A) : peq p p.
Proof. induction p; constructor; auto. Qed.

Lemma peq_sym (p q : prog A) : peq p q -> peq q p.
Proof. induction 1; constructor; auto. Qed.

Lemma peq_trans (p q r : prog A) : peq p q -> peq q r -> peq p r.
Proof.
  intros H. revert r. induction H as [a | c k1 k2 _ IH]; intros r Hr; [done |].
  inv Hr. apply Eqdep_dec.inj_pair2_eq_dec in H1; [| exact call_eq_dec]. subst.
  constructor. intros x. apply IH, H2.
Qed.

#[export] Instance peq_equiv : Equivalence (@peq A).
Proof. split; red; eauto using peq_refl, peq_sym, peq_trans. Qed.
End Laws.

#[export] Hint Resolve peq_refl : editor.

Section BindLaws.
Context {A B C : Type}.

#[export] Instance pbind_proper :
  Proper (peq ==> pointwise_relation A peq ==> @peq B) pbind.
Proof.
  intros p q Hpq f g Hfg. induction Hpq; simpl; [apply Hfg |].
  constructor. auto.
Qed.

Lemma pbind_ret_l (a : A) (f : A -> prog B) : pbind (Ret a) f = f a.
Proof. reflexivity. Qed.

Lemma pbind_ret_r (p : prog A) : peq (pbind p Ret) p.
Proof. induction p; simpl; constructor; auto. Qed.

Lemma pbind_assoc (p : prog A) (f : A -> prog B) (g : B -> prog C) :
  peq (pbind (pbind p f) g) (pbind p (fun a => pbind (f a) g)).
Proof. induction p; simpl; [apply peq_refl |]. constructor. auto. Qed.
End BindLaws.

Section StateLaws.
Context {S A B C : Type}.

Lemma sbind_ret_l (a : A) (f : A -> M S B) (s : S) : sbind (sret a) f s = f a s.
Proof. reflexivity. Qed.

Lemma sbind_ret_r (m : M S A) (s : S) : peq (sbind m sret s) (m s).
Proof.
  unfold sbind, sret. rewrite <- (pbind_ret_r (m s)) at 2.
  apply pbind_proper; [reflexivity |]. intros [a s']. reflexivity.
Qed.

Lemma sbind_assoc (m : M S A) (f : A -> M S B) (g : B -> M S C) (s : S) :
  peq (sbind (sbind m f) g s) (sbind m (fun a => sbind (f a) g) s).
Proof.
  unfold sbind. rewrite pbind_assoc.
  apply pbind_proper; [reflexivity |]. intros [a s']. reflexivity.
Qed.
(** A step that makes no call can be run before its continuation. *)
Lemma sbind_pure (m : M S A) (f : A -> M S B) (s : S) (a : A) (s' : S) :
  m s = Ret (a, s') -> sbind m f s = f a s'.
Proof. unfold sbind. by intros ->. Qed.
End StateLaws.

(** ** Postconditions over all answers

    [all_leaves Q p]: whatever the environment answers, [p] ends in a
    value satisfying [Q]. This is the weakest precondition of the free
    monad, and the form in which the invariants are proved: they hold for
    every answer of the user, the dialogs and the file system. *)

Fixpoint all_leaves {A} (Q : A -> Prop) (p : prog A) : Prop :=
  match p with
  | Ret a => Q a
  | Call c k => forall r, all_leaves Q (k r)
  end.

Lemma all_leaves_bind {A B} (Q : B -> Prop) (p : prog A) (f : A -> prog B) :
  all_leaves (fun a => all_leaves Q (f a)) p -> all_leaves Q (pbind p f).
Proof. induction p; simpl; auto. Qed.

Lemma all_leaves_impl {A} (P Q : A -> Prop) (p : prog A) :
  (forall a, P a -> Q a) -> all_leaves P p -> all_leaves Q p.
Proof. intros HPQ. induction p; simpl; auto. Qed.

(** Hoare triples for the state monad. *)
Definition hoare {S A} (P : S -> Prop) (m : M S A) (Q : A -> S -> Prop) : Prop :=
  forall s, P s -> all_leaves (fun '(a, s') => Q a s') (m s).

Lemma hoare_bind {S A B} (P : S -> Prop) (R : A -> S -> Prop) (Q : B -> S -> Prop)
    (m : M S A) (f : A -> M S B) :
  hoare P m R -> (forall a, hoare (R a) (f a) Q) -> hoare P (sbind m f) Q.
Proof.
  intros Hm Hf s Hs. unfold sbind. apply all_leaves_bind.
  eapply all_leaves_impl; [| exact (Hm s Hs)]. intros [a s'] HR. by apply Hf.
Qed.

Lemma hoare_conseq {S A} (P P' : S -> Prop) (Q Q' : A -> S -> Prop) (m : M S A) :
  (forall s, P' s -> P s) -> (forall a s, Q a s -> Q' a s) ->
  hoare P m Q -> hoare P' m Q'.
Proof.
  intros HP HQ Hm s Hs. eapply all_leaves_impl; [| exact (Hm s (HP s Hs))].
  intros [a s']. apply HQ.
Qed.


(** ** Postconditions over the calls made

    [all_paths Q p]: whatever the environment answers, [p] ends in a value
    [a] such that [Q cs a], where [cs] is the sequence of calls made on the
    way. It refines [all_leaves] with the history of the run, and is the
    form in which the bounds on dialogs and the ordering of calls are
    proved. *)

Fixpoint all_paths {A} (Q : list call -> A -> Prop) (p : prog A) : Prop :=
  match p with
  | Ret a => Q [] a
  | Call c k => forall r, all_paths (fun cs a => Q (c :: cs) a) (k r)
  end.

Lemma all_paths_impl {A} (P Q : list call -> A -> Prop) (p : prog A) :
  (forall cs a, P cs a -> Q cs a) -> all_paths P p -> all_paths Q p.
Proof.
  revert P Q. induction p as [a | c k IH]; intros P Q HPQ; simpl; [auto |].
  intros Hk r. eapply IH; [| apply Hk]. simpl. auto.
Qed.

Lemma all_paths_bind {A B} (Q : list call -> B -> Prop) (p : prog A) (f : A -> prog B) :
  all_paths (fun cs a => all_paths (fun cs' b => Q (app cs cs') b) (f a)) p ->
  all_paths Q (pbind p f).
Proof.
  revert Q. induction p as [a | c k IH]; intros Q; simpl; [done |].
  intros Hk r. apply IH. eapply all_paths_impl; [| apply Hk]. done.
Qed.

(** The state-monad form: a step of [m] followed by [f]. *)
Lemma all_paths_sbind {S A B} (Q : list call -> B * S -> Prop) (m : M S A) (f : A -> M S B) (s : S) :
  all_paths (fun cs '((a, s1) : A * S) => all_paths (fun cs' r => Q (app cs cs') r) (f a s1)) (m s) ->
  all_paths Q (sbind m f s).
Proof.
  intros H. unfold sbind. apply all_paths_bind.
  eapply all_paths_impl; [| exact H]. by intros cs [a s1].
Qed.


(** ** Postconditions over the answered calls

    [all_traces Q p]: whatever the environment answers, [p] ends in a
    value [a] with [Q evs a], where [evs] are the calls made together with
    their answers. It is the form in which properties that relate a call
    to its answer are proved: an I/O failure and the dialog reporting it,
    a file dialog's answer and the write that uses it. *)

Fixpoint all_traces {A} (Q : list event -> A -> Prop) (p : prog A) : Prop :=
  match p with
  | Ret a => Q [] a
  | Call c k => forall r, all_traces (fun evs a => Q (Ev c r :: evs) a) (k r)
  end.

Lemma all_traces_impl {A} (P Q : list event -> A -> Prop) (p : prog A) :
  (forall evs a, P evs a -> Q evs a) -> all_traces P p -> all_traces Q p.
Proof.
  revert P Q. induction p as [a | c k IH]; intros P Q HPQ; simpl; [auto |].
  intros Hk r. eapply IH; [| apply Hk]. simpl. auto.
Qed.

Lemma all_traces_sbind {S A B} (Q : list event -> B * S -> Prop) (m : M S A) (f : A -> M S B) (s : S) :
  all_traces (fun evs '((a, s1) : A * S) => all_traces (fun evs' r => Q (app evs evs') r) (f a s1)) (m s) ->
  all_traces Q (sbind m f s).
Proof.
  unfold sbind. generalize (m s). clear m. intros p. revert Q.
  induction p as [[a s1] | c k IH]; intros Q; simpl; [done |].
  intros Hk r. apply IH. eapply all_traces_impl; [| apply Hk]. by intros evs [a' s'].
Qed.

#[export] Instance all_traces_proper {A} (Q : list event -> A -> Prop) :
  Proper (peq ==> iff) (all_traces Q).
Proof.
  intros p q H. revert Q. induction H as [a | c k1 k2 _ IH]; intros Q; simpl; [done |].
  split; intros Hk r; apply (IH r), Hk.
Qed.

(** [all_paths] is [all_traces] on the calls of the trace, and
    [all_leaves] is [all_traces] on the result alone. *)
Lemma all_paths_traces {A} (Q : list call -> A -> Prop) (p : prog A) :
  all_paths Q p <-> all_traces (fun evs a => Q (map ev_call evs) a) p.
Proof.
  revert Q. induction p as [a | c k IH]; intros Q; simpl; [done |].
  split; intros Hk r; apply (IH r (fun cs a => Q (c :: cs) a)), Hk.
Qed.

Lemma all_leaves_traces {A} (Q : A -> Prop) (p : prog A) :
  all_leaves Q p <-> all_traces (fun _ a => Q a) p.
Proof.
  induction p as [a | c k IH]; simpl; [done |].
  split; intros Hk r; apply IH, Hk.
Qed.

#[export] Instance all_paths_proper {A} (Q : list call -> A -> Prop) :
  Proper (peq ==> iff) (all_paths Q).
Proof. intros p q H. rewrite !all_paths_traces. by apply all_traces_proper. Qed.

#[export] Instance all_leaves_proper {A} (Q : A -> Prop) : Proper (peq ==> iff) (all_leaves Q).
Proof. intros p q H. rewrite !all_leaves_traces. by apply all_traces_proper. Qed.

(** A relation between the state before, the answered calls, and the
    state after, that composes along concatenation, holds of a bind when
    it holds of both parts. *)
Definition rel_ok {S A} (R : S -> list event -> S -> Prop) (m : M S A) : Prop :=
  forall s, all_traces (fun evs '((_, s1) : A * S) => R s evs s1) (m s).

Section RelOk.
Context {S : Type} (R : S -> list event -> S -> Prop).
Hypothesis R_trans :
  forall s1 s2 s3 evs1 evs2, R s1 evs1 s2 -> R s2 evs2 s3 -> R s1 (app evs1 evs2) s3.
Hypothesis R_refl : forall s, R s [] s.

Lemma rel_ok_sbind {A B} (m : M S A) (f : A -> M S B) :
  rel_ok R m -> (forall a, rel_ok R (f a)) -> rel_ok R (sbind m f).
Proof.
  intros Hm Hf s. apply all_traces_sbind. eapply all_traces_impl; [| apply Hm].
  intros evs [a s1] H1. eapply all_traces_impl; [| apply Hf]. intros evs2 [b s2] H2. eauto.
Qed.

Lemma rel_ok_ret {A} (a : A) : rel_ok R (sret a).
Proof. intros s. apply R_refl. Qed.
End RelOk.

(** A property of the trace alone. *)
Definition traces_ok {S A} (P : list event -> Prop) (m : M S A) : Prop :=
  rel_ok (fun _ evs _ => P evs) m.
