(* ===== verification/TextSurface.v ===== *)
(** * TextSurface: the interface [MainWindow] expects of [QTextEdit]

    The program owns no copy of the text. It calls [self.editor.clear()]
    (line 131), [setPlainText] (line 145) and [toPlainText] (line 167),
    wires the Edit menu to the widget's [undo], [redo], [cut], [copy] and
    [paste] (lines 68-81), and receives [textChanged] in
    [on_text_changed] (line 32). The class [TextSurface] states this
    contract. Each edit returns the new widget and whether it emitted
    [textChanged]. The laws are what the session relies on: reading back
    what was set, an empty text after [clear], and no silent change of
    the text (an edit that emits no signal leaves the text as it was).
    [QTextEdit] emits [textChanged] from [setPlainText] and [clear]; the
    session models that as a synchronous call of the slot.

    [UndoHistory] adds what Qt documents of the undo stack: [undo] takes
    back the user's last edit, and [setPlainText] and [clear] empty the
    history.

    [QEditModel] is one instance of both: a text with undo and redo
    stacks and a clipboard. It is simplified (cut and copy act on the whole text, as
    after select-all). It is only used to run concrete scenarios; every
    theorem of [Session] and later files holds for any instance. *)

From S2P Require Import Prelude.

(** The user's edits: typing or deleting (the text becomes [t]), and the
    Edit-menu operations the program forwards to the widget. *)
Inductive edit :=
  | EInput (t : string)
  | EUndo | ERedo | ECut | ECopy | EPaste.

#[export] Instance edit_eq_dec : EqDecision edit.
Proof. solve_decision. Defined.

Class TextSurface (W : Type) := {
  surface_new : W;
  toPlainText : W -> string;
  setPlainText : string -> W -> W;
  clear : W -> W;
  apply_edit : edit -> W -> W * bool
}.

Class TextSurfaceLaws (W : Type) `{TextSurface W} := {
  toPlainText_new : toPlainText surface_new = "";
  toPlainText_set : forall t w, toPlainText (setPlainText t w) = t;
  toPlainText_clear : forall w, toPlainText (clear w) = "";
  edit_silent : forall e w,
    snd (apply_edit e w) = false -> toPlainText (fst (apply_edit e w)) = toPlainText w
}.

#[export] Hint Rewrite @toPlainText_set @toPlainText_clear @toPlainText_new : editor_rw.

(** ** The undo history

    [QTextEdit] keeps the undo stack of its [QTextDocument], which the
    Edit menu reaches through [undo] and [redo] (lines 68-72). Two facts
    of Qt's documentation bear on the session. Undoing an edit of the
    user gives back the text before it, and emits [textChanged] like any
    change. [setPlainText] and [clear] clear the history ("the undo/redo
    history is cleared by calling this function"), so an [undo] or a
    [redo] right after them finds nothing to do: the widget stays as it
    is and emits nothing. *)
Class UndoHistory (W : Type) `{TextSurface W} := {
  input_text : forall t w, toPlainText (fst (apply_edit (EInput t) w)) = t;
  input_undo : forall t w, t <> toPlainText w ->
    let w1 := fst (apply_edit (EInput t) w) in
    snd (apply_edit EUndo w1) = true /\ toPlainText (fst (apply_edit EUndo w1)) = toPlainText w;
  history_set : forall t w ed, ed = EUndo \/ ed = ERedo ->
    apply_edit ed (setPlainText t w) = (setPlainText t w, false);
  history_clear : forall w ed, ed = EUndo \/ ed = ERedo -> apply_edit ed (clear w) = (clear w, false)
}.

(** ** A concrete widget *)

Module QEditModel.

Record qedit := mkQEdit {
  q_text : string;
  q_undo : list string;
  q_redo : list string;
  q_clip : string
}.

Definition set_text (t : string) (w : qedit) : qedit :=
  mkQEdit t [] [] (q_clip w).

(** A change the user makes: push the old text on the undo stack. *)
Definition change (t : string) (w : qedit) : qedit :=
  mkQEdit t (q_text w :: q_undo w) [] (q_clip w).

Definition q_edit (e : edit) (w : qedit) : qedit * bool :=
  match e with
  | EInput t => if String.eqb t (q_text w) then (w, false) else (change t w, true)
  | EUndo =>
      match q_undo w with
      | [] => (w, false)
      | u :: us => (mkQEdit u us (q_text w :: q_redo w) (q_clip w), true)
      end
  | ERedo =>
      match q_redo w with
      | [] => (w, false)
      | r :: rs => (mkQEdit r (q_text w :: q_undo w) rs (q_clip w), true)
      end
  | ECut =>
      if String.eqb (q_text w) "" then (w, false)
      else (mkQEdit "" (q_text w :: q_undo w) [] (q_text w), true)
  | ECopy => (mkQEdit (q_text w) (q_undo w) (q_redo w) (q_text w), false)
  | EPaste =>
      if String.eqb (q_clip w) "" then (w, false)
      else (change (q_text w ^ q_clip w) w, true)
  end.

#[export] Instance qedit_surface : TextSurface qedit := {
  surface_new := mkQEdit "" [] [] "";
  toPlainText := q_text;
  setPlainText := set_text;
  clear := set_text "";
  apply_edit := q_edit
}.

#[export] Instance qedit_laws : TextSurfaceLaws qedit.
Proof.
  split; try done.
  intros [t| | | | |] w; simpl; try done.
  - destruct (String.eqb_spec t (q_text w)); simpl; congruence.
  - by destruct (q_undo w).
  - by destruct (q_redo w).
  - by destruct (String.eqb (q_text w) "").
  - by destruct (String.eqb (q_clip w) "").
Qed.

#[export] Instance qedit_undo : UndoHistory qedit.
Proof.
  split.
  - intros t w. cbn. by destruct (String.eqb_spec t (q_text w)).
  - intros t w Hne. cbn. by destruct (String.eqb_spec t (q_text w)).
  - by intros t w ed [-> | ->].
  - by intros w ed [-> | ->].
Qed.
End QEditModel.
