(* ===== verification/Environment.v ===== *)
(** * Environment: what the external calls answer

    The handlers of [Session] are programs over the calls of
    [Interaction]. This file gives those calls a meaning, so that a handler
    can be run. The environment holds four things:
    - [disk]: the file contents, keyed by the resolved path [str(Path(p))];
    - [read_faults]: the paths whose read raises for a reason other than
      the contents, with the system error: raised by [open] ([ROpen],
      e.g. permission denied or a directory) or by [read] ([RRead], an
      I/O error);
    - [write_faults]: the paths whose write raises, either when the file
      is opened ([WDenied]) or after [open(path, "w")] has truncated it and
      [n] characters were written ([WPartial], e.g. a full disk);
    - [script]: the user's answers to the modal dialogs, in order.

    Reading uses Python's text mode with [newline=None]. The file's bytes
    are decoded as UTF-8 ([Utf8]), and a file that is not UTF-8 raises
    [UnicodeDecodeError] ([file_text]). Then "\r\n" and "\r" become "\n"
    ([universal_newlines], the reading of line 143). Texts are kept as
    their UTF-8 bytes. Writing on
    POSIX translates "\n" to [os.linesep] = "\n", so it writes the text as
    it is. A missing file raises [FileNotFoundError]. The message of each
    [OSError] is derived as [OSError.__str__] formats it ([os_error_msg]):
    the errno, [strerror], and the file name when [open] raised it. Message boxes and status messages need no answer. A dialog
    whose scripted answer is missing or of the wrong kind is dismissed:
    [Cancel] for a question, "" for a file dialog.

    [run] replays a program against an environment and returns the result,
    the final environment and the trace of answered calls. It is structural
    on the program, so it always returns. *)

From S2P Require Import Prelude PyStr Utf8 Paths Interaction.
Import Pathlib.

Inductive user_answer := UButton (b : button) | UPath (p : string).

(** The system errors the program can meet, with their Linux numbers
    and [strerror] texts. *)
Inductive os_error := EACCES | EISDIR | ENOENT | ENOTDIR | EROFS | ENOSPC | EIO.

Definition errno (k : os_error) : string :=
  match k with
  | EACCES => "13" | EISDIR => "21" | ENOENT => "2" | ENOTDIR => "20"
  | EROFS => "30" | ENOSPC => "28" | EIO => "5"
  end.

Definition strerror (k : os_error) : string :=
  match k with
  | EACCES => "Permission denied" | EISDIR => "Is a directory"
  | ENOENT => "No such file or directory" | ENOTDIR => "Not a directory"
  | EROFS => "Read-only file system" | ENOSPC => "No space left on device"
  | EIO => "Input/output error"
  end.

(** [str(e)] of an [OSError] ([OSError.__str__]): "[Errno %d] %s: %R"
    when it carries a file name (raised by [open]), "[Errno %d] %s"
    otherwise (raised by [read], [write] or [close]). *)
Definition os_error_msg (k : os_error) (filename : option string) : string :=
  "[Errno " ^ errno k ^ "] " ^ strerror k ^
  match filename with Some f => ": " ^ py_repr f | None => "" end.

Inductive read_fault :=
  | ROpen (k : os_error)
  | RRead (k : os_error).

Inductive write_fault :=
  | WDenied (k : os_error)
  | WPartial (n : nat) (k : os_error).

Record env := mkEnv {
  disk : gmap string string;
  read_faults : gmap string read_fault;
  write_faults : gmap string write_fault;
  script : list user_answer
}.

Definition with_disk (d : gmap string string) (e : env) : env :=
  mkEnv d (read_faults e) (write_faults e) (script e).
Definition with_script (s : list user_answer) (e : env) : env :=
  mkEnv (disk e) (read_faults e) (write_faults e) s.

(** The file a path string names: [open] resolves "a//b/./c" and
    [Path("a//b/./c")] to the same file. *)
Definition resolve (p : string) : string := path_str (parse p).

(** Python's universal-newline decoding on read. *)
Fixpoint universal_newlines (s : string) : string :=
  match s with
  | EmptyString => EmptyString
  | String c rest =>
      if ascii_dec c "013" then
        match rest with
        | String d rest' =>
            if ascii_dec d "010" then String "010" (universal_newlines rest')
            else String "010" (universal_newlines rest)
        | EmptyString => String "010" EmptyString
        end
      else String c (universal_newlines rest)
  end.

(** [str(FileNotFoundError)], with the file name passed to [open]. *)
Definition not_found_msg (p : string) : string := os_error_msg ENOENT (Some p).

(** CPython's decoder for [newline=None] ([IncrementalNewlineDecoder.decode]
    in Lib/_pyio.py), on the whole file at once as [f.read()] calls it with
    [final=True]: [output.replace("\r\n", "\n")], then
    [output.replace("\r", "\n")]. Its guards [if crlf:] and [if cr:] only
    skip replacements that change nothing. *)
Definition newline_decode (s : string) : string :=
  str_replace CR NL (str_replace CRLF NL s).

(** ** Answers *)

Definition next_button (e : env) : button * env :=
  match script e with
  | UButton b :: rest => (b, with_script rest e)
  | UPath _ :: rest => (Cancel, with_script rest e)
  | [] => (Cancel, e)
  end.

Definition next_path (e : env) : string * env :=
  match script e with
  | UPath p :: rest => (p, with_script rest e)
  | UButton _ :: rest => ("", with_script rest e)
  | [] => ("", e)
  end.

(** [f.read()] of a file holding the bytes [c]: the whole file is
    decoded as UTF-8, and a [UnicodeDecodeError] is raised at the first
    invalid sequence; then the newlines are translated. A text is kept as
    its UTF-8 bytes, so the result is the translated bytes ([FileText]
    proves this is the encoding of what CPython returns). *)
Definition file_text (c : string) : io_result string :=
  match utf8_decode c with
  | inl _ => IOOk (universal_newlines c)
  | inr err => IOErr (decode_message c err)
  end.

Definition read_text (p : string) (e : env) : io_result string :=
  let rp := resolve p in
  match read_faults e !! rp with
  | Some (ROpen k) => IOErr (os_error_msg k (Some p))
  | Some (RRead k) => IOErr (os_error_msg k None)
  | None =>
      match disk e !! rp with
      | Some c => file_text c
      | None => IOErr (not_found_msg p)
      end
  end.

Definition write_text (p t : string) (e : env) : io_result unit * env :=
  let rp := resolve p in
  match write_faults e !! rp with
  | None => (IOOk tt, with_disk (<[rp := t]> (disk e)) e)
  | Some (WDenied k) => (IOErr (os_error_msg k (Some p)), e)
  | Some (WPartial n k) => (IOErr (os_error_msg k None), with_disk (<[rp := substring 0 n t]> (disk e)) e)
  end.

Definition answer (c : call) (e : env) : resp c * env :=
  match c as c0 return resp c0 * env with
  | Question _ _ => next_button e
  | GetOpenFileName _ _ _ => next_path e
  | GetSaveFileName _ _ _ => next_path e
  | ReadText p => (read_text p e, e)
  | WriteText p t => write_text p t e
  | Critical _ _ => (tt, e)
  | Information _ _ => (tt, e)
  | ShowMessage _ _ => (tt, e)
  end.

(** ** The interpreter *)

Fixpoint run {A} (p : prog A) (e : env) : A * env * list event :=
  match p with
  | Ret a => (a, e, [])
  | Call c k =>
      let '(r, e1) := answer c e in
      let '(a, e2, tr) := run (k r) e1 in
      (a, e2, Ev c r :: tr)
  end.

(** ** Lemmas *)

Lemma run_bind {A B} (p : prog A) (f : A -> prog B) (e : env) :
  run (pbind p f) e =
    let '(a, e1, t1) := run p e in
    let '(b, e2, t2) := run (f a) e1 in
    (b, e2, app t1 t2).
Proof.
  revert e. induction p as [a | c k IH]; intros e; simpl.
  - by destruct (run (f a) e) as [[b e2] t2].
  - destruct (answer c e) as [r e1]. rewrite IH.
    destruct (run (k r) e1) as [[a e2] t1].
    by destruct (run (f a) e2) as [[b e3] t2].
Qed.

(** Equivalent programs run alike. *)
#[export] Instance run_proper {A} : Proper (peq ==> eq ==> eq) (@run A).
Proof.
  intros p q H e ? <-. revert e. induction H as [a | c k1 k2 _ IH]; intros e; [done |].
  simpl. destruct (answer c e) as [r e1]. by rewrite IH.
Qed.

(** A scripted environment: its disk and faults never change the answers
    of the dialogs, and the answers are consumed in order. *)
Lemma next_button_script (b : button) (rest : list user_answer) (e : env) :
  script e = UButton b :: rest -> next_button e = (b, with_script rest e).
Proof. unfold next_button. by intros ->. Qed.

Lemma next_path_script (p : string) (rest : list user_answer) (e : env) :
  script e = UPath p :: rest -> next_path e = (p, with_script rest e).
Proof. unfold next_path. by intros ->. Qed.

(** The read of line 143 returns the file's text with its line endings
    normalised, and a missing file reports [FileNotFoundError]. *)
Lemma read_text_ok (p c : string) (e : env) :
  read_faults e !! resolve p = None -> disk e !! resolve p = Some c -> utf8_valid c = true ->
  read_text p e = IOOk (universal_newlines c).
Proof.
  unfold read_text, file_text, utf8_valid. intros -> ->. by destruct (utf8_decode c).
Qed.

(** A file that is not UTF-8 reports CPython's [UnicodeDecodeError]. *)
Lemma read_text_undecodable (p c : string) (e : env) (err : decode_error) :
  read_faults e !! resolve p = None -> disk e !! resolve p = Some c -> utf8_decode c = inr err ->
  read_text p e = IOErr (decode_message c err).
Proof. unfold read_text, file_text. by intros -> -> ->. Qed.

Lemma read_text_missing (p : string) (e : env) :
  read_faults e !! resolve p = None -> disk e !! resolve p = None ->
  read_text p e = IOErr (not_found_msg p).
Proof. unfold read_text. by intros -> ->. Qed.

Lemma write_text_ok (p t : string) (e : env) :
  write_faults e !! resolve p = None ->
  write_text p t e = (IOOk tt, with_disk (<[resolve p := t]> (disk e)) e).
Proof. unfold write_text. by intros ->. Qed.

(** What holds at every leaf holds of every run. *)
Lemma run_all_leaves {A} (Q : A -> Prop) (p : prog A) (e : env) :
  all_leaves Q p -> Q (fst (fst (run p e))).
Proof.
  revert e. induction p as [a | c k IH]; intros e Hp; [done |].
  simpl. destruct (answer c e) as [r e1] eqn:Ea.
  specialize (IH r e1 (Hp r)). by destruct (run (k r) e1) as [[a e2] tr].
Qed.

(** What holds of every path holds of every run, with the calls of its
    trace. *)
Lemma run_all_paths {A} (Q : list call -> A -> Prop) (p : prog A) (e : env) :
  all_paths Q p -> let '(a, _, tr) := run p e in Q (map ev_call tr) a.
Proof.
  revert Q e. induction p as [a | c k IH]; intros Q e Hp; [done |].
  simpl. destruct (answer c e) as [r e1].
  specialize (IH r (fun cs a => Q (c :: cs) a) e1 (Hp r)).
  by destruct (run (k r) e1) as [[a e2] tr].
Qed.

(** Likewise with the answered calls. *)
Lemma run_all_traces {A} (Q : list event -> A -> Prop) (p : prog A) (e : env) :
  all_traces Q p -> let '(a, _, tr) := run p e in Q tr a.
Proof.
  revert Q e. induction p as [a | c k IH]; intros Q e Hp; [done |].
  simpl. destruct (answer c e) as [r e1].
  specialize (IH r (fun evs a => Q (Ev c r :: evs) a) e1 (Hp r)).
  by destruct (run (k r) e1) as [[a e2] tr].
Qed.

(** ** Facts about the environment *)

Lemma un_lf (x : string) : universal_newlines (String "010" x) = String "010" (universal_newlines x).
Proof. reflexivity. Qed.

Lemma un_other (c : ascii) (x : string) :
  c <> "013"%char -> universal_newlines (String c x) = String c (universal_newlines x).
Proof. intros Hc. simpl. by destruct (ascii_dec c "013"). Qed.

Lemma un_cr (d : ascii) (x : string) :
  universal_newlines (String "013" (String d x)) =
    if ascii_dec d "010" then String "010" (universal_newlines x)
    else String "010" (universal_newlines (String d x)).
Proof. reflexivity. Qed.

Lemma universal_newlines_idem (s : string) :
  universal_newlines (universal_newlines s) = universal_newlines s.
Proof.
  remember (String.length s) as n eqn:Hn. revert s Hn.
  induction n as [n IH] using lt_wf_ind. intros s ->.
  destruct s as [| c s]; [done |].
  destruct (ascii_dec c "013") as [-> | Hc].
  - destruct s as [| d s']; [done |]. rewrite un_cr.
    destruct (ascii_dec d "010"); rewrite un_lf.
    + by rewrite (IH (String.length s') ltac:(simpl; lia) s' eq_refl).
    + by rewrite (IH (String.length (String d s')) ltac:(simpl; lia) _ eq_refl).
  - rewrite !un_other by done.
    by rewrite (IH (String.length s) ltac:(simpl; lia) s eq_refl).
Qed.

(** The decoder's two passes, one character at a time. *)
Lemma decode_other (c : ascii) (x : string) :
  c <> "013"%char -> newline_decode (String c x) = String c (newline_decode x).
Proof.
  intros Hc. unfold newline_decode, CRLF, NL, CR.
  change (str_replace (String "013" (chr "010")) (chr "010") (String c x))
    with (replace_from (String "013" (chr "010")) (chr "010") 0 (String c x)).
  rewrite replace_pair_other by done. rewrite replace_char_eq.
  by destruct (ascii_dec "013" c); [congruence |].
Qed.

Lemma decode_cr_lf (x : string) :
  newline_decode (String "013" (String "010" x)) = String "010" (newline_decode x).
Proof.
  unfold newline_decode, CRLF, NL, CR.
  change (str_replace (String "013" (chr "010")) (chr "010") (String "013" (String "010" x)))
    with (replace_from (String "013" (chr "010")) (chr "010") 0 (String "013" (String "010" x))).
  rewrite replace_pair_hit. reflexivity.
Qed.

Lemma decode_cr_other (d : ascii) (x : string) :
  d <> "010"%char ->
  newline_decode (String "013" (String d x)) = String "010" (newline_decode (String d x)).
Proof.
  intros Hd. unfold newline_decode, CRLF, NL, CR.
  change (str_replace (String "013" (chr "010")) (chr "010") (String "013" (String d x)))
    with (replace_from (String "013" (chr "010")) (chr "010") 0 (String "013" (String d x))).
  rewrite replace_pair_miss, replace_char_eq by done.
  by destruct (ascii_dec "013" "013").
Qed.

(** C30: the character-by-character decoding of the read (line 144) is
    CPython's: replacing "\r\n" by "\n", then "\r" by "\n". *)
Theorem universal_newlines_decode (s : string) : universal_newlines s = newline_decode s.
Proof.
  remember (String.length s) as n eqn:Hn. revert s Hn.
  induction n as [n IH] using lt_wf_ind. intros s ->.
  destruct s as [| c s]; [done |].
  destruct (ascii_dec c "013") as [-> | Hc].
  - destruct s as [| d s']; [done |]. rewrite un_cr.
    destruct (ascii_dec d "010") as [-> | Hd].
    + rewrite decode_cr_lf. by rewrite (IH (String.length s') ltac:(simpl; lia) s' eq_refl).
    + rewrite decode_cr_other by done.
      by rewrite (IH (String.length (String d s')) ltac:(simpl; lia) _ eq_refl).
  - rewrite un_other, decode_other by done.
    by rewrite (IH (String.length s) ltac:(simpl; lia) s eq_refl).
Qed.

Lemma answer_faults (c : call) (e : env) :
  write_faults (snd (answer c e)) = write_faults e /\
  read_faults (snd (answer c e)) = read_faults e.
Proof.
  destruct c; simpl; try done;
    unfold next_button, next_path, write_text;
    repeat case_match; done.
Qed.

(** The faults of an environment never change: they describe the file
    system, not its contents. *)
Lemma run_faults {A} (p : prog A) (e : env) :
  write_faults (snd (fst (run p e))) = write_faults e /\
  read_faults (snd (fst (run p e))) = read_faults e.
Proof.
  revert e. induction p as [a | c k IH]; intros e; [done |]. simpl.
  pose proof (answer_faults c e) as [Hw Hr].
  destruct (answer c e) as [r e1]. specialize (IH r e1).
  destruct (run (k r) e1) as [[a e2] tr]. simpl in *. destruct IH; split; congruence.
Qed.

(** Dialog answers change only the script. *)
Lemma next_path_disk (e : env) : disk (snd (next_path e)) = disk e.
Proof. unfold next_path. by repeat case_match. Qed.

Lemma next_button_disk (e : env) : disk (snd (next_button e)) = disk e.
Proof. unfold next_button. by repeat case_match. Qed.

(** A successful read returns a file of the disk, normalised. *)
Lemma read_text_ok_inv (p t : string) (e : env) :
  read_text p e = IOOk t -> exists c, disk e !! resolve p = Some c /\ t = universal_newlines c.
Proof. unfold read_text, file_text. repeat case_match; intros Hr; simplify_eq; eauto. Qed.

(** Writes that fail, fail before the file is truncated. *)
Definition no_partial_writes (e : env) : Prop :=
  forall p n k, write_faults e !! p <> Some (WPartial n k).

Lemma write_text_cases (p t : string) (e : env) :
  no_partial_writes e ->
  write_text p t e = (IOOk tt, with_disk (<[resolve p := t]> (disk e)) e) \/
  exists msg, write_text p t e = (IOErr msg, e).
Proof.
  intros Hn. unfold write_text. destruct (write_faults e !! resolve p) as [[msg | n msg]|] eqn:E.
  - right. eauto.
  - by destruct (Hn _ _ _ E).
  - by left.
Qed.

(** Hoare triples over runs: an invariant of the state and the
    environment together. *)
Definition rhoare {S A} (I : S -> env -> Prop) (m : M S A) : Prop :=
  forall s e, I s e -> let '(_, s', e', _) := run (m s) e in I s' e'.

Lemma rhoare_sbind {S A B} (I : S -> env -> Prop) (m : M S A) (f : A -> M S B) :
  rhoare I m -> (forall a, rhoare I (f a)) -> rhoare I (sbind m f).
Proof.
  intros Hm Hf s e Hi. unfold sbind. rewrite run_bind.
  specialize (Hm s e Hi). destruct (run (m s) e) as [[[a s1] e1] t1].
  specialize (Hf a s1 e1 Hm). by destruct (run (f a s1) e1) as [[[b s2] e2] t2].
Qed.

Lemma rhoare_ret {S A} (I : S -> env -> Prop) (a : A) : rhoare I (sret a).
Proof. by intros s e Hi. Qed.
