(* ===== verification/FileText.v ===== *)
(** * FileText: the read of [file_open] is CPython's, on any bytes

    [f.read()] (line 144) in text mode first decodes the file's bytes as
    UTF-8, then translates the newlines of the [str] it got
    ([IncrementalNewlineDecoder]: "\r\n" and "\r" become "\n"). The model
    of [Environment] ([file_text]) works on the bytes instead: it checks
    that they decode, then translates "\r\n" and "\r" in the bytes. This
    file proves the two agree on every file: the model's result is the
    UTF-8 encoding of the [str] CPython returns, and the model fails with
    the [str] of the exception CPython raises. The agreement rests on
    UTF-8's design: the bytes 13 and 10 occur in an encoding only as the
    code points "\r" and "\n". *)

From S2P Require Import Prelude PyStr Utf8 Paths Interaction Environment.
From Stdlib Require Import ZArith.

Local Open Scope Z_scope.

(** The newline translation of [IncrementalNewlineDecoder] on the code
    points of the decoded [str], one code point at a time, as
    [universal_newlines] does on bytes. *)
Fixpoint newlines_cp (cs : list Z) : list Z :=
  match cs with
  | [] => []
  | c :: rest =>
      if c =? 13 then
        match rest with
        | d :: rest' => if d =? 10 then 10 :: newlines_cp rest' else 10 :: newlines_cp rest
        | [] => [10]
        end
      else c :: newlines_cp rest
  end.

(** [open(path, "r").read()] of a file holding [c]: the [str] returned,
    or the [str] of the exception raised. *)
Definition py_read (c : string) : io_result (list Z) :=
  match utf8_decode c with
  | inl cs => IOOk (newlines_cp cs)
  | inr err => IOErr (decode_message c err)
  end.

(** ** Newlines in encodings *)

(** The bytes of a code point other than [k], for an ASCII [k], are
    bytes other than [k]. *)
Lemma encode_char_avoids (c k : Z) :
  scalar c = true -> c <> k -> 0 <= k < 0x80 ->
  Forall (fun b => 0 <= b < 256 /\ b <> k) (encode_char c).
Proof.
  rewrite scalar_spec. intros Hc Hk Hk'.
  destruct (Z.ltb_spec c 0x80); [rewrite encode_char_1 by lia |];
  [| destruct (Z.ltb_spec c 0x800); [rewrite encode_char_2 by lia |]];
  [| | destruct (Z.ltb_spec c 0x10000); [rewrite encode_char_3 by lia | rewrite encode_char_4 by lia]].
  all: repeat constructor; zlia.
Qed.

Lemma byte_of_not (b : Z) (a : ascii) : 0 <= b < 256 -> b <> byte_val a -> byte_of b <> a.
Proof. intros Hb Hne <-. apply Hne. by rewrite byte_val_of. Qed.

(** Bytes without "\r" pass the translation unchanged. *)
Lemma un_bytes (bs : list Z) (r : string) :
  Forall (fun b => 0 <= b < 256 /\ b <> 13) bs ->
  universal_newlines (String.append (bytes_str bs) r) =
    String.append (bytes_str bs) (universal_newlines r).
Proof.
  induction 1 as [| b bs [Hb Hne] _ IH]; [done |].
  rewrite !bytes_str_app, un_other, IH; [done |]. by apply byte_of_not.
Qed.

(** The first byte of the encoding of a code point other than "\n". *)
Lemma encode_head_not_lf (d : Z) (rest : list Z) :
  scalar d = true -> d <> 10 ->
  exists b bs, utf8_encode (d :: rest) = String (byte_of b) bs /\ byte_of b <> "010"%char.
Proof.
  intros Hd Hne. pose proof (encode_char_avoids d 10 Hd Hne ltac:(lia)) as Hb.
  cbn [utf8_encode]. destruct (encode_char d) as [| b bs] eqn:E.
  - unfold encode_char in E. repeat case_match; discriminate.
  - apply Forall_cons in Hb as [[Hr Hb] _]. exists b, (String.append (bytes_str bs) (utf8_encode rest)).
    split; [apply bytes_str_app | by apply byte_of_not].
Qed.

Lemma encode_ascii (c : Z) (rest : list Z) :
  0 <= c < 0x80 -> utf8_encode (c :: rest) = String (byte_of c) (utf8_encode rest).
Proof. intros Hc. cbn [utf8_encode]. by rewrite encode_char_1. Qed.

(** Translating the newlines of the bytes of a [str] gives the bytes of
    the translated [str]. *)
Lemma un_encode (n : nat) (cs : list Z) :
  List.length cs = n -> Forall (fun c => scalar c = true) cs ->
  universal_newlines (utf8_encode cs) = utf8_encode (newlines_cp cs).
Proof.
  revert cs. induction n as [n IH] using lt_wf_ind. intros cs Hn Hcs.
  destruct cs as [| c rest]; [done |]. apply Forall_cons in Hcs as [Hc Hrest].
  cbn [newlines_cp]. destruct (Z.eqb_spec c 13) as [-> | Hne].
  - rewrite encode_ascii by lia. change (byte_of 13) with "013"%char.
    destruct rest as [| d rest']; [done |]. apply Forall_cons in Hrest as [Hd Hrest'].
    destruct (Z.eqb_spec d 10) as [-> | Hd10].
    + rewrite encode_ascii by lia. change (byte_of 10) with "010"%char. rewrite un_cr.
      destruct (ascii_dec "010" "010"); [| done]. rewrite encode_ascii by lia.
      change (byte_of 10) with "010"%char. f_equal. apply (IH (List.length rest')); [cbn in Hn; lia | done | done].
    + destruct (encode_head_not_lf d rest' Hd Hd10) as (b & bs & Henc & Hb).
      rewrite Henc, un_cr. destruct (ascii_dec (byte_of b) "010"); [done |].
      rewrite <- Henc, (encode_ascii 10) by lia. change (byte_of 10) with "010"%char. f_equal.
      apply (IH (List.length (d :: rest'))); [cbn in Hn |- *; lia | done | by constructor].
  - cbn [utf8_encode]. rewrite un_bytes by (apply encode_char_avoids; [done | done | lia]).
    f_equal. apply (IH (List.length rest)); [cbn in Hn; lia | done | done].
Qed.

(** C26: on every file, the read of the model is CPython's: when the
    bytes decode, the text it keeps is the UTF-8 encoding of the [str]
    [f.read()] returns; when they do not, both fail with the same
    [UnicodeDecodeError] message. *)
Theorem file_text_is_read (c : string) :
  file_text c = match py_read c with
                | IOOk cs => IOOk (utf8_encode cs)
                | IOErr m => IOErr m
                end.
Proof.
  unfold file_text, py_read. destruct (utf8_decode c) as [cs | err] eqn:Hd; [| done].
  destruct (encode_decode_at _ 0 c cs eq_refl Hd) as [<- Hcs]. f_equal. by apply (un_encode (List.length cs)).
Qed.
