(* ===== verification/Decoration.v ===== *)
(** * Decoration: the window's size, icon and visibility

    [MainWindow.__init__] sizes the window ([self.resize(800, 600)],
    line 27) and sets its icon inside a [try]/[except Exception: pass]
    (lines 44-48). [main()] then shows it ([window.show()], line 220).
    These calls change the top-level widget's frame, which the session
    never reads, so the frame is a state of its own ([frame]).

    [QIcon(fileName)] raises nothing for a missing or unreadable file. Qt
    resolves a relative name against the working directory and loads it
    with its image reader; when that fails, the icon has no pixmap and is
    null. [setWindowIcon] raises nothing either. Python's [try]/[except]
    is modelled with an exception type of its own ([except]) and
    [try_except]; since the body of the [try] cannot raise, the [except]
    of lines 47-48 is dead code, which the model records rather than
    proves (it follows from Qt's behaviour, not from the program). The
    specification (section 9) reads the [except] as silent handling of a
    missing icon; a missing icon raises nothing, and the window simply
    has a null icon. Whether bytes are an image Qt can read is Qt's
    decoder, a parameter [is_image] of the section. [MainLoop] uses the
    frame for [main()]. *)

From S2P Require Import Prelude Paths Environment.
From Stdlib Require Import ZArith.

(** ** Python exceptions *)

(** A computation that returns or raises an exception (its [str]). *)
Inductive except (A : Type) := Raise (exc : string) | Ok (a : A).
Arguments Raise {A} _.
Arguments Ok {A} _.

Definition ebind {A B} (m : except A) (f : A -> except B) : except B :=
  match m with Raise x => Raise x | Ok a => f a end.

Notation "'let?' x ':=' m 'in' k" := (ebind m (fun x => k))
  (at level 10, x name, m at level 100, k at level 200) : editor_scope.
Open Scope editor_scope.

(** [try: body except Exception: handler]. *)
Definition try_except {A} (body : except A) (handler : string -> A) : A :=
  match body with Raise x => handler x | Ok a => a end.

(** ** The frame of the top-level widget *)

(** A [QIcon] made from a file name, and whether it is null. *)
Record qicon := QIcon { icon_file : string; icon_null : bool }.

Record frame := mkFrame {
  frame_size : option (Z * Z);    (* None: the platform's default size *)
  window_icon : option qicon;     (* None: the application's icon *)
  frame_visible : bool
}.

(** A [QMainWindow] as [super().__init__()] leaves it (line 22). *)
Definition frame_new : frame := mkFrame None None false.

Section Frame.
Variable is_image : string -> bool.

(** The file [QIcon] loads: a relative name is taken in the working
    directory [cwd] ([QFileInfo(fileName).absoluteFilePath()]). *)
Definition icon_path (cwd file : string) : string :=
  if String.prefix "/" file then resolve file else resolve (cwd ^ "/" ^ file).

(** [QIcon(file)]: never raises; null when the file is missing or is not
    an image Qt can read. *)
Definition QIcon_new (cwd : string) (e : env) (file : string) : except qicon :=
  Ok (QIcon file (match disk e !! icon_path cwd file with
                  | Some bytes => negb (is_image bytes)
                  | None => true
                  end)).

(** [self.resize(w, h)] (line 27). *)
Definition resize (wd ht : Z) (f : frame) : frame :=
  mkFrame (Some (wd, ht)) (window_icon f) (frame_visible f).

(** [self.setWindowIcon(icon)] (line 46). *)
Definition setWindowIcon (i : qicon) (f : frame) : except frame :=
  Ok (mkFrame (frame_size f) (Some i) (frame_visible f)).

(** [window.show()] (line 220). *)
Definition show (f : frame) : frame := mkFrame (frame_size f) (window_icon f) true.

(** An accepted [closeEvent] (line 205) hides the window, as
    [QWidget.close] does. *)
Definition hide (f : frame) : frame := mkFrame (frame_size f) (window_icon f) false.

(** The body of the [try] of lines 45-46. *)
Definition icon_body (cwd : string) (e : env) (f : frame) : except frame :=
  let? i := QIcon_new cwd e "app.ico" in setWindowIcon i f.

(** Lines 27 and 44-48 of [__init__], with the handler of line 48
    ([pass]: the frame as it was). *)
Definition decorate_with (handler : frame -> string -> frame) (cwd : string) (e : env) (f : frame) : frame :=
  let f1 := resize 800 600 f in
  try_except (icon_body cwd e f1) (handler f1).

Definition decorate : string -> env -> frame -> frame := decorate_with (fun f _ => f).

(** The frame when [main()] enters the event loop (lines 219-220). *)
Definition main_frame (cwd : string) (e : env) : frame := show (decorate cwd e frame_new).

(** Whether the icon file is an image in the working directory. *)
Definition icon_loads (cwd : string) (e : env) : bool :=
  match disk e !! icon_path cwd "app.ico" with Some bytes => is_image bytes | None => false end.

End Frame.
