(* ===== verification/Session.v ===== *)
(** * Session: [MainWindow]'s document session (src/main.py, lines 20-214)

    The state of [MainWindow] is [window]: [current_path] (line 23),
    [is_modified] (line 24), the window title (set by [setWindowTitle],
    read back by [windowTitle()] at line 199), and the [QTextEdit]
    (line 30). The title belongs to the widget, but the program reads it
    back, so it is state here. Each method of lines 129-214 is one
    definition, a program in the monad [M window] of [Interaction].
    Signals are synchronous calls: [editor.clear()] and [setPlainText]
    run the slot [on_text_changed] (the [connect] of line 32) before
    returning. The section is parametric in the text surface, so every
    theorem holds for any widget satisfying [TextSurfaceLaws]. *)

From S2P Require Import Prelude Utf8 Paths Interaction TextSurface Environment.
Import Pathlib.
Open Scope editor_scope.

(** The fields of [MainWindow] that the session reads or writes. *)
Record window (W : Type) := mkWindow {
  current_path : option path;
  is_modified : bool;
  title : string;
  editor : W
}.
Arguments mkWindow {W} _ _ _ _.
Arguments current_path {W} _.
Arguments is_modified {W} _.
Arguments title {W} _.
Arguments editor {W} _.

Definition APP_NAME : string := "SabrinaEdit".
Definition APP_VERSION : string := "1.0".
Definition FILE_FILTER : string := "Text Files (*.txt);;All Files (*)".

(** The title the code sets for a document: [f"{APP_NAME} - {name}"]. *)
Definition doc_title (name : string) : string := APP_NAME ^ " - " ^ name.
Definition UNTITLED : string := doc_title "Untitled".

Section Session.
Context {W : Type} `{TextSurface W}.

Local Abbreviation window := (window W).

(** ** Field updates *)

Definition set_current_path (p : option path) : M window unit :=
  modify (fun w => mkWindow p (is_modified w) (title w) (editor w)).
Definition set_is_modified (b : bool) : M window unit :=
  modify (fun w => mkWindow (current_path w) b (title w) (editor w)).
Definition setWindowTitle (t : string) : M window unit :=
  modify (fun w => mkWindow (current_path w) (is_modified w) t (editor w)).
Definition set_editor (e : W) : M window unit :=
  modify (fun w => mkWindow (current_path w) (is_modified w) (title w) e).

(** ** Helpers (lines 180-214) *)

(** [update_status], lines 213-214. *)
Definition update_status (message : string) : M window unit :=
  perform (ShowMessage message 5000) ;;; sret tt.

(** [on_text_changed], lines 196-201. *)
Definition on_text_changed : M window unit :=
  let* w := get in
  if negb (is_modified w) then
    set_is_modified true ;;;
    let* t := gets title in
    if negb (startswith "*" t) then setWindowTitle ("*" ^ t) else sret tt
  else sret tt.

(** The widget operations that emit [textChanged]. *)
Definition editor_clear : M window unit :=
  let* w := get in set_editor (clear (editor w)) ;;; on_text_changed.
Definition editor_setPlainText (text : string) : M window unit :=
  let* w := get in set_editor (setPlainText text (editor w)) ;;; on_text_changed.

(** A user edit or an Edit-menu action forwarded to the widget
    (lines 68-81); the slot runs when the widget emits [textChanged]. *)
Definition editor_edit (e : edit) : M window unit :=
  let* w := get in
  let '(w', emitted) := apply_edit e (editor w) in
  set_editor w' ;;;
  if emitted then on_text_changed else sret tt.

(** ** Saving (lines 153-177) *)

(** [_save_to_path], lines 165-177. *)
Definition save_to_path (p : path) : M window bool :=
  let* w := get in
  let text := toPlainText (editor w) in
  let* r := perform (WriteText (path_str p) text) in
  match r with
  | IOOk _ =>
      set_current_path (Some p) ;;;
      set_is_modified false ;;;
      setWindowTitle (doc_title (name p)) ;;;
      update_status ("Saved " ^ path_str p) ;;;
      sret true
  | IOErr e =>
      perform (Critical "Error" ("Could not save file:" ^ NL ^ e)) ;;;
      sret false
  end.

(** [file_save_as], lines 159-163; [if path:] tests for a non-empty
    string. *)
Definition file_save_as : M window bool :=
  let* p := perform (GetSaveFileName "Save File As" "" FILE_FILTER) in
  if String.eqb p "" then sret false else save_to_path (parse p).

(** [file_save], lines 153-157. A [Path] is always truthy, so
    [if self.current_path:] tests for [None]. *)
Definition file_save : M window bool :=
  let* w := get in
  match current_path w with
  | Some p => save_to_path p
  | None => file_save_as
  end.

(** [maybe_save], lines 180-194. *)
Definition maybe_save : M window bool :=
  let* w := get in
  if negb (is_modified w) then sret true else
  let* ret := perform (Question "Unsaved Changes"
                         "This document has unsaved changes. Save now?") in
  match ret with
  | Yes => file_save
  | No => sret true
  | Cancel => sret false
  end.

(** ** New, open, close, about *)

(** [file_new], lines 129-135. *)
Definition file_new : M window unit :=
  let* ok := maybe_save in
  if ok then
    editor_clear ;;;
    set_current_path None ;;;
    set_is_modified false ;;;
    setWindowTitle UNTITLED ;;;
    update_status "New file"
  else sret tt.

(** [file_open], lines 137-151. Only the read can raise. *)
Definition file_open : M window unit :=
  let* ok := maybe_save in
  if negb ok then sret tt else
  let* p := perform (GetOpenFileName "Open File" "" FILE_FILTER) in
  if String.eqb p "" then sret tt else
  let* r := perform (ReadText p) in
  match r with
  | IOOk text =>
      editor_setPlainText text ;;;
      set_current_path (Some (parse p)) ;;;
      set_is_modified false ;;;
      setWindowTitle (doc_title (name (parse p))) ;;;
      update_status ("Opened " ^ path_str (parse p))
  | IOErr e =>
      perform (Critical "Error" ("Could not open file:" ^ NL ^ e)) ;;;
      sret tt
  end.

(** [closeEvent], lines 203-207: [true] is [event.accept()]. *)
Definition closeEvent : M window bool :=
  let* ok := maybe_save in sret ok.

(** [show_about], lines 209-211. *)
Definition show_about : M window unit :=
  perform (Information ("About " ^ APP_NAME)
             (APP_NAME ^ " Version " ^ APP_VERSION ^ NL ^ NL ^
              "Simple text editor built with PyQt6.")) ;;;
  sret tt.

(** The constructor, lines 21-48: the fields, the title, an empty editor,
    and the "Ready" status message. *)
Definition window_init : window := mkWindow None false UNTITLED surface_new.
Definition main_window_init : prog (unit * window) := update_status "Ready" window_init.

End Session.

(** ** Behaviour of the handlers *)

Section SessionTheorems.
Context {W : Type} `{TextSurfaceLaws W}.
Implicit Types (w : window W) (e : env).

Definition q_unsaved : call :=
  Question "Unsaved Changes" "This document has unsaved changes. Save now?".

(** The window after the slot [on_text_changed] has run. *)
Definition mark_modified w : window W :=
  if is_modified w then w
  else mkWindow (current_path w) true
         (if startswith "*" (title w) then title w else "*" ^ title w) (editor w).

Lemma on_text_changed_eq w : on_text_changed w = Ret (tt, mark_modified w).
Proof.
  unfold on_text_changed, mark_modified. cbn.
  destruct (is_modified w); cbn; [done |]. unfold startswith.
  by destruct (String.prefix "*" (title w)).
Qed.

Lemma mark_modified_idem w : mark_modified (mark_modified w) = mark_modified w.
Proof. unfold mark_modified. destruct (is_modified w) eqn:E; simpl; by rewrite ?E. Qed.

(** A second [textChanged] while the document is modified changes
    nothing: the "*" marker is prepended at most once. *)
Theorem on_text_changed_idempotent w :
  sbind on_text_changed (fun _ => on_text_changed) w = on_text_changed w.
Proof.
  unfold sbind. rewrite on_text_changed_eq; simpl.
  by rewrite on_text_changed_eq, mark_modified_idem.
Qed.

(** The slot sets the flag, and marks a clean title exactly once. *)
Theorem on_text_changed_marks w :
  is_modified w = false -> startswith "*" (title w) = false ->
  on_text_changed w = Ret (tt, mkWindow (current_path w) true ("*" ^ title w) (editor w)).
Proof.
  intros Hm Ht. rewrite on_text_changed_eq. unfold mark_modified. by rewrite Hm, Ht.
Qed.

(** *** The guard [maybe_save] *)

Lemma maybe_save_clean w : is_modified w = false -> maybe_save w = Ret (true, w).
Proof. intros Hm. unfold maybe_save. cbn. by rewrite Hm. Qed.

(** The guard of a modified document asks the question and then follows
    the answer: Yes saves, No proceeds, Cancel aborts. *)
Lemma maybe_save_dirty w :
  is_modified w = true ->
  peq (maybe_save w) (Call q_unsaved (fun b =>
    match b with
    | Yes => file_save w
    | No => Ret (true, w)
    | Cancel => Ret (false, w)
    end)).
Proof.
  intros Hm. unfold maybe_save. cbn. rewrite Hm. cbn.
  constructor. intros [| |]; cbn; reflexivity.
Qed.

(** *** Saving *)

Definition text_of w : string := toPlainText (editor w).

(** The window after a successful [_save_to_path(p)]. *)
Definition saved_window w (p : path) : window W :=
  mkWindow (Some p) false (doc_title (name p)) (editor w).

Definition save_dialog : call := GetSaveFileName "Save File As" "" FILE_FILTER.

(** a successful write records the path, clears the flag, retitles the
    window and reports on the status bar; it asks nothing. *)
Theorem save_to_path_ok w e e' (p : path) :
  write_text (path_str p) (text_of w) e = (IOOk tt, e') ->
  run (save_to_path p w) e =
    ((true, saved_window w p), e',
     [Ev (WriteText (path_str p) (text_of w)) (IOOk tt);
      Ev (ShowMessage ("Saved " ^ path_str p) 5000) tt]).
Proof. intros Hw. cbn. fold (text_of w). by rewrite Hw. Qed.

(** a failed write leaves the window as it was, returns [False] and
    reports exactly one error dialog. *)
Theorem save_to_path_error w e e' (p : path) (msg : string) :
  write_text (path_str p) (text_of w) e = (IOErr msg, e') ->
  run (save_to_path p w) e =
    ((false, w), e',
     [Ev (WriteText (path_str p) (text_of w)) (IOErr msg);
      Ev (Critical "Error" ("Could not save file:" ^ NL ^ msg)) tt]).
Proof. intros Hw. cbn. fold (text_of w). by rewrite Hw. Qed.

(** cancelling the Save-As dialog returns [False] silently: no write and
    no error dialog. *)
Theorem file_save_as_cancel w e e' :
  next_path e = ("", e') ->
  run (file_save_as w) e = ((false, w), e', [Ev save_dialog ""]).
Proof. intros Hp. cbn. by rewrite Hp. Qed.

Lemma file_save_as_chosen w e e' (p : string) :
  next_path e = (p, e') -> p <> "" ->
  run (file_save_as w) e =
    let '(r, e2, tr) := run (save_to_path (parse p) w) e' in (r, e2, Ev save_dialog p :: tr).
Proof.
  intros Hp Hne. cbn. rewrite Hp. apply String.eqb_neq in Hne. by rewrite Hne.
Qed.

Lemma file_save_some w (p : path) : current_path w = Some p -> file_save w = save_to_path p w.
Proof. intros Hc. unfold file_save, sbind. cbn. by rewrite Hc. Qed.

Lemma file_save_none w : current_path w = None -> file_save w = file_save_as w.
Proof. intros Hc. unfold file_save, sbind. cbn. by rewrite Hc. Qed.

(** C9: after a successful Save As to [p], Save asks nothing and writes the
    same text to the same path, leaving the window unchanged. *)
Theorem save_as_then_save w e e1 (p : string) :
  next_path e = (p, e1) -> p <> "" ->
  write_faults e1 !! resolve (path_str (parse p)) = None ->
  exists e2 e3 tr,
    run (file_save_as w) e = ((true, saved_window w (parse p)), e2, tr) /\
    run (file_save (saved_window w (parse p))) e2 =
      ((true, saved_window w (parse p)), e3,
       [Ev (WriteText (path_str (parse p)) (text_of w)) (IOOk tt);
        Ev (ShowMessage ("Saved " ^ path_str (parse p)) 5000) tt]).
Proof.
  intros Hp Hne Hf. rewrite (file_save_as_chosen w e e1 p Hp Hne).
  rewrite (save_to_path_ok w e1 _ _ (write_text_ok _ _ _ Hf)).
  eexists _, _, _. split; [reflexivity |].
  rewrite (file_save_some _ (parse p)) by done.
  apply (save_to_path_ok (saved_window w (parse p))). by apply write_text_ok.
Qed.

(** *** The guard's outcomes, for every answer *)

Lemma save_to_path_leaves w (p : path) :
  all_leaves (fun '((b, w1) : bool * window W) => if b then w1 = saved_window w p else w1 = w) (save_to_path p w).
Proof. cbn. by intros [[] | msg]. Qed.

Lemma file_save_as_leaves w :
  all_leaves (fun '((b, w1) : bool * window W) => if b then exists q, w1 = saved_window w q else w1 = w)
    (file_save_as w).
Proof.
  cbn. intros p. destruct (String.eqb p ""); cbn; [done |]. intros [[] | msg]; cbn; eauto.
Qed.

Lemma file_save_leaves w :
  all_leaves (fun '((b, w1) : bool * window W) => if b then exists q, w1 = saved_window w q else w1 = w)
    (file_save w).
Proof.
  destruct (current_path w) as [p|] eqn:Hc.
  - rewrite (file_save_some w p Hc).
    eapply all_leaves_impl; [| apply save_to_path_leaves]. intros [[] w1]; eauto.
  - rewrite (file_save_none w Hc). apply file_save_as_leaves.
Qed.

(** whatever the user and the file system answer, the guard either
    aborts with the window unchanged, or proceeds with the window
    unchanged (clean, or changes discarded) or saved. *)
Theorem maybe_save_outcome w :
  all_leaves (fun '((ok, w1) : bool * window W) =>
    if ok then w1 = w \/ exists q, w1 = saved_window w q else w1 = w) (maybe_save w).
Proof.
  destruct (is_modified w) eqn:Hm.
  - rewrite (maybe_save_dirty w Hm). cbn. intros [| |]; cbn; [| by left | done].
    eapply all_leaves_impl; [| apply file_save_leaves]. intros [[] w1]; auto.
  - by rewrite (maybe_save_clean w Hm); left.
Qed.

(** *** New, open and close after the guard *)

Definition new_window w : window W := mkWindow None false UNTITLED (clear (editor w)).

Definition opened_window w (p text : string) : window W :=
  mkWindow (Some (parse p)) false (doc_title (name (parse p))) (setPlainText text (editor w)).

Definition open_dialog : call := GetOpenFileName "Open File" "" FILE_FILTER.

Lemma editor_mark_modified w : editor (mark_modified w) = editor w.
Proof. unfold mark_modified. by destruct (is_modified w). Qed.

Lemma editor_clear_eq w :
  editor_clear w =
    Ret (tt, mark_modified (mkWindow (current_path w) (is_modified w) (title w) (clear (editor w)))).
Proof. unfold editor_clear. cbn -[on_text_changed]. apply on_text_changed_eq. Qed.

Lemma editor_setPlainText_eq w (t : string) :
  editor_setPlainText t w =
    Ret (tt, mark_modified
               (mkWindow (current_path w) (is_modified w) (title w) (setPlainText t (editor w)))).
Proof. unfold editor_setPlainText. cbn -[on_text_changed]. apply on_text_changed_eq. Qed.

Definition with_editor w (x : W) : window W :=
  mkWindow (current_path w) (is_modified w) (title w) x.

(** A user edit: the widget changes, and the slot runs iff it emits. *)
Lemma editor_edit_eq w (ed : edit) :
  editor_edit ed w =
    Ret (tt, let '(x, emitted) := apply_edit ed (editor w) in
             if emitted then mark_modified (with_editor w x) else with_editor w x).
Proof.
  unfold editor_edit. cbn -[on_text_changed].
  destruct (apply_edit ed (editor w)) as [x []]; cbn -[on_text_changed]; [| done].
  apply on_text_changed_eq.
Qed.

(** [file_new] after its guard. *)
Lemma file_new_run w e :
  run (file_new w) e =
    let '(ok, w1, e1, tr) := run (maybe_save w) e in
    if ok then (tt, new_window w1, e1, app tr [Ev (ShowMessage "New file" 5000) tt])
    else (tt, w1, e1, tr).
Proof.
  unfold file_new. unfold sbind at 1. rewrite run_bind.
  destruct (run (maybe_save w) e) as [[[[] w1] e1] tr]; cbn -[editor_clear];
    [| by rewrite app_nil_r].
  rewrite (sbind_pure _ _ _ _ _ (editor_clear_eq w1)). cbn. by rewrite editor_mark_modified.
Qed.

(** C7: New on a modified document, answered Cancel, leaves the text, the
    path and the flag as they were. *)
Theorem file_new_cancel w e e' :
  is_modified w = true -> next_button e = (Cancel, e') ->
  run (file_new w) e = ((tt, w), e', [Ev q_unsaved Cancel]).
Proof.
  intros Hm Hb. rewrite file_new_run, (run_proper _ _ (maybe_save_dirty w Hm) e e eq_refl).
  cbn. by rewrite Hb.
Qed.

(** When the guard proceeds, New clears the editor, forgets the path,
    clears the flag and shows the "Untitled" title. *)
Theorem file_new_proceeds w e w1 e1 tr :
  run (maybe_save w) e = ((true, w1), e1, tr) ->
  run (file_new w) e = ((tt, new_window w1), e1, app tr [Ev (ShowMessage "New file" 5000) tt]).
Proof. intros Hg. rewrite file_new_run. by rewrite Hg. Qed.

(** [file_open] after its guard. *)
Lemma file_open_run w e :
  run (file_open w) e =
    let '(ok, w1, e1, tr) := run (maybe_save w) e in
    if negb ok then (tt, w1, e1, tr) else
    let '(p, e2) := next_path e1 in
    if String.eqb p "" then (tt, w1, e2, app tr [Ev open_dialog ""]) else
    match read_text p e2 with
    | IOOk text =>
        (tt, opened_window w1 p text, e2,
         app tr [Ev open_dialog p; Ev (ReadText p) (IOOk text);
                 Ev (ShowMessage ("Opened " ^ path_str (parse p)) 5000) tt])
    | IOErr msg =>
        (tt, w1, e2,
         app tr [Ev open_dialog p; Ev (ReadText p) (IOErr msg);
                 Ev (Critical "Error" ("Could not open file:" ^ NL ^ msg)) tt])
    end.
Proof.
  unfold file_open. unfold sbind at 1. rewrite run_bind.
  destruct (run (maybe_save w) e) as [[[[] w1] e1] tr]; cbn -[editor_setPlainText];
    [| by rewrite app_nil_r].
  destruct (next_path e1) as [p e2]. destruct (String.eqb_spec p "") as [-> | Hp]; cbn; [done |].
  destruct (read_text p e2) as [text | msg]; cbn -[editor_setPlainText]; [| done].
  rewrite (sbind_pure _ _ _ _ _ (editor_setPlainText_eq w1 text)). cbn.
  by rewrite editor_mark_modified.
Qed.

(** C8: whatever the guard did before the dialog (a clean document, a
    modified one whose changes the user discarded, or one saved on Yes),
    opening a path whose read fails leaves the window (text, path, flag,
    title) exactly as the guard left it, so a discarded modified document
    stays modified, and reports exactly one error dialog, which quotes
    the exception. *)
Theorem file_open_read_error w e w1 e1 e2 tr (p msg : string) :
  run (maybe_save w) e = ((true, w1), e1, tr) -> next_path e1 = (p, e2) -> p <> "" ->
  read_text p e2 = IOErr msg ->
  run (file_open w) e =
    ((tt, w1), e2,
     app tr [Ev open_dialog p; Ev (ReadText p) (IOErr msg);
             Ev (Critical "Error" ("Could not open file:" ^ NL ^ msg)) tt]).
Proof.
  intros Hg Hp Hne Hr. rewrite file_open_run, Hg. cbn.
  rewrite Hp. apply String.eqb_neq in Hne. rewrite Hne. by rewrite Hr.
Qed.

(** C13: opening an existing readable UTF-8 file replaces the text by
    its contents with line endings normalised, stores [Path(p)], clears
    the flag and titles the window with the file's name. *)
Theorem file_open_ok w e e1 (p c : string) :
  is_modified w = false -> next_path e = (p, e1) -> p <> "" ->
  read_faults e1 !! resolve p = None -> disk e1 !! resolve p = Some c -> utf8_valid c = true ->
  exists tr,
    run (file_open w) e = ((tt, opened_window w p (universal_newlines c)), e1, tr) /\
    text_of (opened_window w p (universal_newlines c)) = universal_newlines c.
Proof.
  intros Hm Hp Hne Hf Hd Hv. rewrite file_open_run, maybe_save_clean by done. cbn.
  rewrite Hp. apply String.eqb_neq in Hne. rewrite Hne, (read_text_ok p c e1 Hf Hd Hv).
  eexists. split; [reflexivity |]. apply toPlainText_set.
Qed.

(** the close request is exactly the guard: the window closes iff
    [maybe_save] proceeds, with the same calls. *)
Theorem closeEvent_is_guard w e : run (closeEvent w) e = run (maybe_save w) e.
Proof. apply run_proper; [apply sbind_ret_r | done]. Qed.

(** C10: closing a modified window and answering No (discard) accepts the
    close after the one question, without writing any file. *)
Theorem close_discard w e e' :
  is_modified w = true -> next_button e = (No, e') ->
  run (closeEvent w) e = ((true, w), e', [Ev q_unsaved No]).
Proof.
  intros Hm Hb. rewrite closeEvent_is_guard, (run_proper _ _ (maybe_save_dirty w Hm) e e eq_refl).
  cbn. by rewrite Hb.
Qed.

(** C6: when the guard aborts (Cancel, or a save that fails or is
    cancelled), the window is exactly as it was. *)
Theorem guard_abort_unchanged w e w1 e1 tr :
  run (maybe_save w) e = ((false, w1), e1, tr) -> w1 = w.
Proof.
  intros Hr. pose proof (run_all_leaves _ (maybe_save w) e (maybe_save_outcome w)) as Hl.
  rewrite Hr in Hl. exact Hl.
Qed.

(** C11: Save on a titled document whose write fails returns [False], leaves
    the window unchanged and shows exactly one error naming the cause. *)
Theorem save_failure_keeps_window w e e' (q : path) (msg : string) :
  current_path w = Some q ->
  write_text (path_str q) (text_of w) e = (IOErr msg, e') ->
  run (file_save w) e =
    ((false, w), e',
     [Ev (WriteText (path_str q) (text_of w)) (IOErr msg);
      Ev (Critical "Error" ("Could not save file:" ^ NL ^ msg)) tt]).
Proof. intros Hc Hw. rewrite (file_save_some w q Hc). by apply save_to_path_error. Qed.

(** C12: Save on an untitled document delegates to Save As; cancelling its
    dialog returns [False] silently, with no write and no error. *)
Theorem save_untitled_cancel w e e' :
  current_path w = None -> next_path e = ("", e') ->
  run (file_save w) e = ((false, w), e', [Ev save_dialog ""]).
Proof. intros Hc Hp. rewrite (file_save_none w Hc). by apply file_save_as_cancel. Qed.
End SessionTheorems.

(** ** Witnesses: the theorems at concrete windows and environments *)

Module SessionWitnesses.
Import QEditModel.

Definition w_clean : window qedit := window_init.
Definition w_dirty : window qedit :=
  mkWindow None true ("*" ^ UNTITLED) (mkQEdit "draft" [""] [] "").
Definition w_titled : window qedit :=
  mkWindow (Some (parse "/tmp/a.txt")) true "*SabrinaEdit - a.txt" (mkQEdit "draft" [""] [] "").
Definition e_cancel : env := mkEnv ∅ ∅ ∅ [UButton Cancel].
Definition e_no : env := mkEnv ∅ ∅ ∅ [UButton No].
Definition e_missing : env := mkEnv ∅ ∅ ∅ [UPath "/tmp/none.txt"].
Definition e_hello : env := mkEnv {["/tmp/a.txt" := "hello"]} ∅ ∅ [UPath "/tmp/a.txt"].
Definition e_denied : env :=
  mkEnv ∅ ∅ {["/tmp/a.txt" := WDenied EACCES]} [].
Definition e_empty : env := mkEnv ∅ ∅ ∅ [].

Lemma guard_abort_unchanged_witness :
  run (maybe_save w_dirty) e_cancel = ((false, w_dirty), e_empty, [Ev q_unsaved Cancel]) /\ w_dirty = w_dirty.
Proof.
  assert (H : run (maybe_save w_dirty) e_cancel = ((false, w_dirty), e_empty, [Ev q_unsaved Cancel]))
    by reflexivity.
  split; [exact H | exact (guard_abort_unchanged _ _ _ _ _ H)].
Defined.

Lemma save_failure_keeps_window_witness :
  run (file_save w_titled) e_denied =
    ((false, w_titled), e_denied,
     [Ev (WriteText (path_str (parse "/tmp/a.txt")) (text_of w_titled))
         (IOErr "[Errno 13] Permission denied: '/tmp/a.txt'");
      Ev (Critical "Error" ("Could not save file:" ^ NL ^
                             "[Errno 13] Permission denied: '/tmp/a.txt'")) tt]).
Proof. apply (save_failure_keeps_window w_titled e_denied e_denied (parse "/tmp/a.txt")); reflexivity. Defined.

Lemma save_untitled_cancel_witness :
  run (file_save w_clean) e_empty = ((false, w_clean), e_empty, [Ev save_dialog ""]).
Proof. apply save_untitled_cancel; reflexivity. Defined.

Lemma file_new_cancel_witness :
  run (file_new w_dirty) e_cancel = ((tt, w_dirty), e_empty, [Ev q_unsaved Cancel]).
Proof. apply file_new_cancel; reflexivity. Defined.

Lemma file_new_proceeds_witness :
  run (file_new w_dirty) e_no =
    ((tt, new_window w_dirty), e_empty,
     app [Ev q_unsaved No] [Ev (ShowMessage "New file" 5000) tt]).
Proof. apply file_new_proceeds. reflexivity. Defined.

(** A modified document, Discard, then a missing file: the window keeps
    its changes. *)
Lemma file_open_read_error_witness :
  run (file_open w_dirty) (mkEnv ∅ ∅ ∅ [UButton No; UPath "/tmp/none.txt"]) =
    ((tt, w_dirty), e_empty,
     app [Ev q_unsaved No]
       [Ev open_dialog "/tmp/none.txt"; Ev (ReadText "/tmp/none.txt") (IOErr (not_found_msg "/tmp/none.txt"));
        Ev (Critical "Error" ("Could not open file:" ^ NL ^ not_found_msg "/tmp/none.txt")) tt]) /\
  is_modified w_dirty = true.
Proof.
  split; [| reflexivity].
  apply (file_open_read_error _ _ w_dirty (mkEnv ∅ ∅ ∅ [UPath "/tmp/none.txt"]));
    [reflexivity | reflexivity | discriminate | reflexivity].
Defined.

Lemma file_open_ok_witness :
  exists tr,
    run (file_open w_clean) e_hello =
      ((tt, opened_window w_clean "/tmp/a.txt" (universal_newlines "hello")),
       mkEnv {["/tmp/a.txt" := "hello"]} ∅ ∅ [], tr) /\
    text_of (opened_window w_clean "/tmp/a.txt" (universal_newlines "hello")) = universal_newlines "hello".
Proof. apply file_open_ok; [reflexivity | reflexivity | discriminate | reflexivity | reflexivity | reflexivity]. Defined.

Lemma save_as_then_save_witness :
  exists e2 e3 tr,
    run (file_save_as w_dirty) (mkEnv ∅ ∅ ∅ [UPath "/tmp/b.txt"]) =
      ((true, saved_window w_dirty (parse "/tmp/b.txt")), e2, tr) /\
    run (file_save (saved_window w_dirty (parse "/tmp/b.txt"))) e2 =
      ((true, saved_window w_dirty (parse "/tmp/b.txt")), e3,
       [Ev (WriteText (path_str (parse "/tmp/b.txt")) (text_of w_dirty)) (IOOk tt);
        Ev (ShowMessage ("Saved " ^ path_str (parse "/tmp/b.txt")) 5000) tt]).
Proof. apply (save_as_then_save w_dirty _ e_empty); [reflexivity | discriminate | reflexivity]. Defined.

Lemma close_discard_witness :
  run (closeEvent w_dirty) e_no = ((true, w_dirty), e_empty, [Ev q_unsaved No]).
Proof. apply close_discard; reflexivity. Defined.

End SessionWitnesses.
