(* ===== verification/Roundtrip.v ===== *)
(** * Roundtrip: a saved document opens again as it was

    [file_save] writes [toPlainText()] to [str(current_path)] (lines
    165-169). [file_open] reads a path with [open(path, "r")] and stores
    [Path(path)] (lines 143-148). This file composes the two. Saving a
    titled document and opening the path the status bar shows gives back
    a clean window with the same path and title. Its text is the saved
    text with line endings normalised, which is the saved text itself
    when it contains no carriage return. It rests on the path round trip
    of [Paths] ([parse_path_str]) and on the read decoding of
    [Environment]. *)

From S2P Require Import Prelude PyStr Utf8 Paths Interaction TextSurface Environment Session.
Import Pathlib.
Open Scope editor_scope.

(** Text without "\r" is unchanged by the newline decoding. *)
Lemma universal_newlines_no_cr (s : string) :
  has_char "013" s = false -> universal_newlines s = s.
Proof.
  induction s as [| c s IH]; [done |]. intros Hs. cbn [has_char] in Hs.
  destruct (ascii_dec "013" c) as [Hc | Hc]; [done |].
  rewrite un_other by congruence. by rewrite IH.
Qed.

(** The file a stored path names is its printed form. *)
Lemma resolve_wf (p : path) : wf_path p -> resolve (path_str p) = path_str p.
Proof. intros Hp. unfold resolve. by rewrite parse_path_str. Qed.

(** [str(p)] is never empty ("." for the empty path), so the Open dialog
    answered with it is not a cancel. *)
Lemma path_str_nonempty (p : path) : path_str p <> "".
Proof. unfold path_str. by destruct (root p ^ join_sep (parts p)). Qed.

Section Roundtrip.
Context {W : Type} `{TextSurfaceLaws W}.
Implicit Types (w : window W).

(** The user opens [p] again: Open, with its dialog answered by [str(p)]. *)
Definition reopen (p : path) w e : unit * window W * env * list event :=
  run (file_open w) (with_script [UPath (path_str p)] e).

(** C34: Save on a titled document [p] whose file can be written and read,
    and whose text is a [str] (valid UTF-8), followed by Open answered
    with [str(p)], yields a clean window with
    path [p], the title Save gave, and the saved text up to line endings
    (exactly the saved text when it has no "\r"). *)
Theorem save_reopen_roundtrip w e (p : path) :
  wf_path p -> current_path w = Some p ->
  write_faults e !! path_str p = None -> read_faults e !! path_str p = None ->
  utf8_valid (text_of w) = true ->
  exists e1 tr1 w2 e2 tr2,
    run (file_save w) e = ((true, saved_window w p), e1, tr1) /\
    reopen p (saved_window w p) e1 = ((tt, w2), e2, tr2) /\
    current_path w2 = Some p /\ is_modified w2 = false /\ title w2 = title (saved_window w p) /\
    text_of w2 = universal_newlines (text_of w) /\
    (has_char "013" (text_of w) = false -> text_of w2 = text_of w).
Proof.
  intros Hwf Hc Hw Hr Hv.
  set (e1 := with_disk (<[resolve (path_str p) := text_of w]> (disk e)) e).
  rewrite (file_save_some w p Hc), (save_to_path_ok w e e1 p).
  2: { rewrite write_text_ok; [reflexivity |]. by rewrite resolve_wf. }
  eexists e1, _, _, _, _. split; [reflexivity |]. unfold reopen.
  rewrite file_open_run, maybe_save_clean by done. cbn -[opened_window].
  destruct (String.eqb_spec (path_str p) "") as [Hp | _]; [by destruct (path_str_nonempty p) |].
  rewrite (read_text_ok (path_str p) (text_of w));
    [| by rewrite resolve_wf | unfold e1, with_disk; cbn; by rewrite lookup_insert_eq | done].
  split; [reflexivity |]. split_all.
  - unfold opened_window; simpl. by rewrite parse_path_str.
  - unfold opened_window; simpl. by rewrite parse_path_str.
  - unfold text_of, opened_window; simpl. by rewrite toPlainText_set.
  - unfold text_of, opened_window; simpl. rewrite toPlainText_set. apply universal_newlines_no_cr.
Qed.
(** The newline decoding leaves no "\r". *)
Lemma universal_newlines_cr_free (n : nat) (s : string) :
  String.length s <= n -> has_char "013" (universal_newlines s) = false.
Proof.
  revert s. induction n as [|n IH]; intros [|c s] Hn; cbn in Hn; try done; [lia |].
  destruct (ascii_dec c "013") as [-> | Hc].
  - destruct s as [|d s]; [done |]. destruct (ascii_dec d "010") as [-> | Hd].
    + rewrite un_cr. cbn [has_char]. destruct (ascii_dec "010" "010"); [| done].
      destruct (ascii_dec "013" "010"); [done |]. cbn in Hn. apply IH. lia.
    + rewrite un_cr. destruct (ascii_dec d "010"); [done |]. cbn [has_char].
      destruct (ascii_dec "013" "010"); [done |]. apply IH. cbn in Hn |- *. lia.
  - rewrite un_other by done. cbn [has_char].
    destruct (ascii_dec "013" c); [congruence |]. apply IH. lia.
Qed.

(** C17: a file whose line endings contain "\r" (CRLF or CR) and whose
    bytes are UTF-8 opens as a clean document; a Save with no edit in
    between asks nothing and rewrites the file, which then differs from
    what it was: its text with every "\r\n" and "\r" turned into "\n". *)
Theorem open_save_rewrites_crlf w e e1 (p c : string) :
  is_modified w = false -> next_path e = (p, e1) -> p <> "" ->
  read_faults e1 !! resolve p = None -> disk e1 !! resolve p = Some c -> utf8_valid c = true ->
  write_faults e1 !! resolve p = None -> has_char "013" c = true ->
  exists w1 e3 tr,
    run (file_open w) e = ((tt, w1), e1, tr) /\ is_modified w1 = false /\
    run (file_save w1) e1 =
      ((true, w1), e3,
       [Ev (WriteText (path_str (parse p)) (universal_newlines c)) (IOOk tt);
        Ev (ShowMessage ("Saved " ^ path_str (parse p)) 5000) tt]) /\
    disk e3 !! resolve p = Some (universal_newlines c) /\ universal_newlines c <> c.
Proof.
  intros Hm Hp Hne Hf Hd Hv Hw Hcr.
  rewrite file_open_run, maybe_save_clean by done. cbn -[opened_window file_save]. rewrite Hp.
  apply String.eqb_neq in Hne. rewrite Hne, (read_text_ok p c e1 Hf Hd Hv).
  assert (Hr : resolve (path_str (parse p)) = resolve p) by apply (resolve_wf _ (parse_wf p)).
  eexists _, _, _. split; [reflexivity |]. split; [done |].
  rewrite (file_save_some _ (parse p)) by done.
  rewrite (save_to_path_ok _ e1 _ _ (write_text_ok _ _ _ ltac:(by rewrite Hr))).
  unfold text_of, opened_window. cbn [editor]. rewrite toPlainText_set. split; [reflexivity |]. split.
  - cbn. rewrite Hr. by rewrite lookup_insert_eq.
  - intros Heq. pose proof (universal_newlines_cr_free _ c (le_n _)) as Hn. congruence.
Qed.
End Roundtrip.

(** ** Witness *)

Module RoundtripWitnesses.
Import QEditModel.

Definition w_titled : window qedit :=
  mkWindow (Some (parse "/tmp/a.txt")) true "*SabrinaEdit - a.txt" (mkQEdit "line 1" [""] [] "").

Lemma save_reopen_roundtrip_witness :
  exists e1 tr1 w2 e2 tr2,
    run (file_save w_titled) (mkEnv ∅ ∅ ∅ []) = ((true, saved_window w_titled (parse "/tmp/a.txt")), e1, tr1) /\
    reopen (parse "/tmp/a.txt") (saved_window w_titled (parse "/tmp/a.txt")) e1 = ((tt, w2), e2, tr2) /\
    current_path w2 = Some (parse "/tmp/a.txt") /\ is_modified w2 = false /\
    title w2 = title (saved_window w_titled (parse "/tmp/a.txt")) /\
    text_of w2 = universal_newlines (text_of w_titled) /\
    (has_char "013" (text_of w_titled) = false -> text_of w2 = text_of w_titled).
Proof.
  apply save_reopen_roundtrip; [apply parse_wf | reflexivity | reflexivity | reflexivity | reflexivity].
Defined.
(** A file with "\r\n" line endings, opened then saved. *)
Definition e_crlf : env := mkEnv {["/tmp/d.txt" := "a" ^ CRLF ^ "b"]} ∅ ∅ [UPath "/tmp/d.txt"].

Lemma open_save_rewrites_crlf_witness :
  (exists w1 e3 tr,
    run (file_open (window_init (W := qedit))) e_crlf =
      ((tt, w1), mkEnv {["/tmp/d.txt" := "a" ^ CRLF ^ "b"]} ∅ ∅ [], tr) /\ is_modified w1 = false /\
    run (file_save w1) (mkEnv {["/tmp/d.txt" := "a" ^ CRLF ^ "b"]} ∅ ∅ []) =
      ((true, w1), e3,
       [Ev (WriteText (path_str (parse "/tmp/d.txt")) (universal_newlines ("a" ^ CRLF ^ "b"))) (IOOk tt);
        Ev (ShowMessage ("Saved " ^ path_str (parse "/tmp/d.txt")) 5000) tt]) /\
    disk e3 !! resolve "/tmp/d.txt" = Some (universal_newlines ("a" ^ CRLF ^ "b")) /\
    universal_newlines ("a" ^ CRLF ^ "b") <> "a" ^ CRLF ^ "b") /\
  universal_newlines ("a" ^ CRLF ^ "b") = "a" ^ NL ^ "b".
Proof.
  split; [| reflexivity].
  apply open_save_rewrites_crlf;
    [reflexivity | reflexivity | discriminate | reflexivity | reflexivity | reflexivity | reflexivity | reflexivity].
Defined.
End RoundtripWitnesses.
