(* ===== verification/Editor.v ===== *)
(** * Editor: actions, menus, shortcuts and the running application

    [create_actions] (lines 50-85) builds eleven [QAction]s and connects
    each [triggered] signal to a handler. [create_menus] (lines 87-111)
    places them in the File, Edit and Help menus. [create_shortcuts]
    (lines 113-126) assigns their key sequences. A user event is a menu
    action, a shortcut, typing into the editor, or the window manager's
    close button. [dispatch] runs the handler the code connects it to.
    [system_step] runs that handler against the environment, and
    [reachable] is every configuration the application can reach from
    [main()] (lines 217-221). Invariants are proved by rule induction on
    [reachable]. *)

From S2P Require Import Prelude Paths Interaction TextSurface Environment Session.
Import Pathlib.
Open Scope editor_scope.

(** ** Actions, menus and shortcuts *)

Inductive action :=
  | ANew | AOpen | ASave | ASaveAs | AExit
  | AUndo | ARedo | ACut | ACopy | APaste | AAbout.

#[export] Instance action_eq_dec : EqDecision action.
Proof. solve_decision. Defined.

Definition all_actions : list action :=
  [ANew; AOpen; ASave; ASaveAs; AExit; AUndo; ARedo; ACut; ACopy; APaste; AAbout].

(** The text of each [QAction] (lines 52-84). *)
Definition action_text (a : action) : string :=
  match a with
  | ANew => "&New" | AOpen => "&Open..." | ASave => "&Save"
  | ASaveAs => "Save &As..." | AExit => "E&xit"
  | AUndo => "&Undo" | ARedo => "&Redo" | ACut => "Cu&t"
  | ACopy => "&Copy" | APaste => "&Paste" | AAbout => "&About"
  end.

Inductive menu_item := Act (a : action) | Separator.

(** [create_menus], lines 87-111: the menu bar, in order. *)
Definition create_menus : list (string * list menu_item) :=
  [("&File", [Act ANew; Act AOpen; Separator; Act ASave; Act ASaveAs; Separator; Act AExit]);
   ("&Edit", [Act AUndo; Act ARedo; Separator; Act ACut; Act ACopy; Act APaste]);
   ("&Help", [Act AAbout])].

Definition menu_actions (items : list menu_item) : list action :=
  omap (fun i => match i with Act a => Some a | Separator => None end) items.

(** The mnemonic of a label: the character after "&", lower-cased. *)
Definition lower (c : ascii) : ascii :=
  let n := Ascii.nat_of_ascii c in
  if ((65 <=? n) && (n <=? 90))%nat then Ascii.ascii_of_nat (n + 32)%nat else c.

Fixpoint mnemonic (s : string) : option ascii :=
  match s with
  | String c rest =>
      if ascii_dec c "&"%char then
        match rest with String d _ => Some (lower d) | EmptyString => None end
      else mnemonic rest
  | EmptyString => None
  end.

(** [QKeySequence.StandardKey] values the code uses. *)
Inductive standard_key :=
  | KNew | KOpen | KSave | KQuit | KUndo | KRedo | KCut | KCopy | KPaste.

Inductive key_sequence := StdKey (k : standard_key) | KeySeq (s : string).

(** [create_shortcuts], lines 113-126. *)
Definition create_shortcuts (a : action) : key_sequence :=
  match a with
  | ANew => StdKey KNew | AOpen => StdKey KOpen | ASave => StdKey KSave
  | ASaveAs => KeySeq "Ctrl+Shift+S" | AExit => StdKey KQuit
  | AUndo => StdKey KUndo | ARedo => StdKey KRedo | ACut => StdKey KCut
  | ACopy => StdKey KCopy | APaste => StdKey KPaste | AAbout => KeySeq "F1"
  end.

(** The keys Qt binds to a standard key on X11 desktops (the primary
    binding of each; Qt's platform theme may add secondary ones). *)
Definition std_key_binding (k : standard_key) : string :=
  match k with
  | KNew => "Ctrl+N" | KOpen => "Ctrl+O" | KSave => "Ctrl+S" | KQuit => "Ctrl+Q"
  | KUndo => "Ctrl+Z" | KRedo => "Ctrl+Shift+Z" | KCut => "Ctrl+X"
  | KCopy => "Ctrl+C" | KPaste => "Ctrl+V"
  end.

Definition shortcut_keys (a : action) : string :=
  match create_shortcuts a with
  | StdKey k => std_key_binding k
  | KeySeq s => s
  end.

(** The action a key press triggers, if any. *)
Definition action_of_key (k : string) : option action :=
  List.find (fun a => String.eqb (shortcut_keys a) k) all_actions.

(** ** Dispatch *)

Inductive ui_event :=
  | Trigger (a : action)      (* a menu item is clicked *)
  | KeyPress (k : string)     (* a key sequence is pressed *)
  | Typing (t : string)       (* the user edits the text: it becomes t *)
  | CloseButton.              (* the window manager asks to close *)

Section Dispatch.
Context {W : Type} `{TextSurface W}.

(** The slot of each action (the [connect] calls of lines 53-85); the
    result is whether the window stays open. [triggered] ignores the
    slot's return value. [self.close] sends the [closeEvent]. *)
Definition trigger (a : action) : M (window W) bool :=
  match a with
  | ANew => file_new ;;; sret true
  | AOpen => file_open ;;; sret true
  | ASave => file_save ;;; sret true
  | ASaveAs => file_save_as ;;; sret true
  | AExit => let* acc := closeEvent in sret (negb acc)
  | AUndo => editor_edit EUndo ;;; sret true
  | ARedo => editor_edit ERedo ;;; sret true
  | ACut => editor_edit ECut ;;; sret true
  | ACopy => editor_edit ECopy ;;; sret true
  | APaste => editor_edit EPaste ;;; sret true
  | AAbout => show_about ;;; sret true
  end.

Definition dispatch (ev : ui_event) : M (window W) bool :=
  match ev with
  | Trigger a => trigger a
  | KeyPress k =>
      match action_of_key k with
      | Some a => trigger a
      | None => sret true
      end
  | Typing t => editor_edit (EInput t) ;;; sret true
  | CloseButton => let* acc := closeEvent in sret (negb acc)
  end.

(** ** The running application *)

Record config := mkConfig {
  win : window W;
  world : env;
  running : bool;
  log : list event
}.

(** [main()]: the window is built and shown, then events are handled one
    at a time until the window closes. *)
Definition init_config (e : env) : config :=
  let '(_, w, e1, tr) := run main_window_init e in mkConfig w e1 true tr.

Definition system_step (c : config) (ev : ui_event) : config :=
  if running c then
    let '(open, w, e, tr) := run (dispatch ev (win c)) (world c) in
    mkConfig w e open (app (log c) tr)
  else c.

Inductive reachable : config -> Prop :=
  | reach_init e : reachable (init_config e)
  | reach_step c ev : reachable c -> reachable (system_step c ev).

Fixpoint run_events (c : config) (evs : list ui_event) : config :=
  match evs with
  | [] => c
  | ev :: rest => run_events (system_step c ev) rest
  end.
End Dispatch.

(** ** Properties of the menus and shortcuts *)

(** Within the menu bar and within each menu, the "&" mnemonics are
    distinct (case-insensitive, as Qt matches them). *)
Theorem mnemonics_distinct :
  NoDup (map (fun m => mnemonic (fst m)) create_menus) /\
  Forall (fun m => NoDup (map (fun a => mnemonic (action_text a)) (menu_actions (snd m)))) create_menus.
Proof. split; repeat constructor; vm_compute; set_solver. Qed.

(** ** The event loop as a relation and as a function *)

Lemma run_events_app {W} `{TextSurface W} (c : config (W := W)) (evs1 evs2 : list ui_event) :
  run_events c (app evs1 evs2) = run_events (run_events c evs1) evs2.
Proof. revert c. induction evs1 as [|ev evs1 IH]; intros c; [done |]. apply IH. Qed.

Lemma reachable_run_events {W} `{TextSurface W} (c : config (W := W)) (evs : list ui_event) :
  reachable c -> reachable (run_events c evs).
Proof.
  revert c. induction evs as [|ev evs IH]; intros c Hc; [done |]. apply IH. by constructor.
Qed.

