(* ===== verification/Protocol.v ===== *)
(** * Protocol: the shape of every history of external calls

    The handlers of src/main.py talk to Qt and to the file system in a
    fixed set of small exchanges:
    - a write followed by "Saved <the written file>" or by its error box
      (lines 166-177);
    - a read followed by "Opened <path>" or by its error box (lines
      142-151);
    - the Save As and Open dialogs with their captions and filter (lines
      140, 160);
    - the unsaved-changes question (lines 183-186);
    - the status messages "Ready" and "New file" (lines 37, 135);
    - the About box (lines 210-211).
    Every status message has the 5-second timeout of [update_status].

    [block] lists these exchanges and [blocks] their concatenations. The
    file proves that the history of every reachable configuration is a
    concatenation of blocks. Any property of histories that holds of each
    block and is closed under concatenation follows
    ([blocks_ind_app]); [ErrorReports] and [StatusTimer] use it. *)

From S2P Require Import Prelude Paths Interaction TextSurface Environment Session Editor.
Import Pathlib.
Open Scope editor_scope.

(** The call of [show_about], lines 210-211. *)
Definition about_call : call :=
  Information ("About " ^ APP_NAME)
    (APP_NAME ^ " Version " ^ APP_VERSION ^ NL ^ NL ^ "Simple text editor built with PyQt6.").

(** The exchanges of the handlers with the outside world. *)
Inductive block : list event -> Prop :=
  | b_saved (s text : string) :
      block [Ev (WriteText s text) (IOOk tt); Ev (ShowMessage ("Saved " ^ s) 5000) tt]
  | b_save_failed (s text e : string) :
      block [Ev (WriteText s text) (IOErr e); Ev (Critical "Error" ("Could not save file:" ^ NL ^ e)) tt]
  | b_opened (s text : string) :
      block [Ev (ReadText s) (IOOk text); Ev (ShowMessage ("Opened " ^ path_str (parse s)) 5000) tt]
  | b_open_failed (s e : string) :
      block [Ev (ReadText s) (IOErr e); Ev (Critical "Error" ("Could not open file:" ^ NL ^ e)) tt]
  | b_save_dialog (r : string) : block [Ev save_dialog r]
  | b_open_dialog (r : string) : block [Ev open_dialog r]
  | b_question (r : button) : block [Ev q_unsaved r]
  | b_ready : block [Ev (ShowMessage "Ready" 5000) tt]
  | b_new_file : block [Ev (ShowMessage "New file" 5000) tt]
  | b_about : block [Ev about_call tt].

Inductive blocks : list event -> Prop :=
  | blocks_nil : blocks []
  | blocks_cons (b rest : list event) : block b -> blocks rest -> blocks (app b rest).

#[export] Hint Constructors block : editor.

Lemma blocks_app (evs1 evs2 : list event) : blocks evs1 -> blocks evs2 -> blocks (app evs1 evs2).
Proof. induction 1; intros H2; [done |]. rewrite <- app_assoc. constructor; auto. Qed.

Lemma blocks_one (b : list event) : block b -> blocks b.
Proof. intros Hb. rewrite <- (app_nil_r b). constructor; [done | constructor]. Qed.

Lemma blocks_single_cons (ev : event) (rest : list event) :
  block [ev] -> blocks rest -> blocks (ev :: rest).
Proof. apply (blocks_cons [ev]). Qed.

(** A property of histories closed under concatenation and true of each
    block is true of every concatenation of blocks. *)
Lemma blocks_ind_app (P : list event -> Prop) :
  P [] -> (forall evs1 evs2, P evs1 -> P evs2 -> P (app evs1 evs2)) ->
  (forall b, block b -> P b) -> forall evs, blocks evs -> P evs.
Proof. intros Hnil Happ Hb. induction 1; auto. Qed.

Ltac blocks_solve :=
  repeat first [ assumption | match goal with |- unit -> _ => intros [] end | apply blocks_nil | apply blocks_single_cons; [by constructor |]
               | apply blocks_one; by constructor ].

Section Protocol.
Context {W : Type} `{TextSurfaceLaws W}.
Implicit Types (w : window W).

Local Abbreviation in_blocks := (traces_ok (S := window W) blocks).

Lemma blocks_sbind {A B} (m : M (window W) A) (f : A -> M (window W) B) :
  in_blocks m -> (forall a, in_blocks (f a)) -> in_blocks (sbind m f).
Proof. apply rel_ok_sbind. intros _ _ _ evs1 evs2. apply blocks_app. Qed.

Lemma blocks_ret {A} (a : A) : in_blocks (sret a).
Proof. apply rel_ok_ret. intros _. apply blocks_nil. Qed.

Lemma blocks_save_to_path (p : path) : in_blocks (save_to_path p).
Proof. intros w. cbn. intros [[] | msg] []; blocks_solve. Qed.

Lemma blocks_file_save_as : in_blocks file_save_as.
Proof.
  intros w. cbn -[save_to_path]. intros p. destruct (String.eqb p ""); cbn -[save_to_path];
    [blocks_solve |].
  eapply all_traces_impl; [| apply blocks_save_to_path]. intros evs [b w1] Hb. blocks_solve.
Qed.

Lemma blocks_file_save : in_blocks file_save.
Proof.
  intros w. destruct (current_path w) as [p|] eqn:Hc.
  - rewrite (file_save_some w p Hc). apply blocks_save_to_path.
  - rewrite (file_save_none w Hc). apply blocks_file_save_as.
Qed.

Lemma blocks_maybe_save : in_blocks maybe_save.
Proof.
  intros w. destruct (is_modified w) eqn:Hm.
  - rewrite (maybe_save_dirty w Hm). intros [| |]; cbn; [| blocks_solve | blocks_solve].
    eapply all_traces_impl; [| apply blocks_file_save]. intros evs [b w1] Hb. blocks_solve.
  - rewrite (maybe_save_clean w Hm). apply blocks_nil.
Qed.

Lemma blocks_file_new : in_blocks file_new.
Proof.
  apply blocks_sbind; [apply blocks_maybe_save |]. intros [] w; cbn -[editor_clear]; [| apply blocks_nil].
  rewrite (sbind_pure _ _ _ _ _ (editor_clear_eq w)). cbn. blocks_solve.
Qed.

Lemma blocks_file_open : in_blocks file_open.
Proof.
  apply blocks_sbind; [apply blocks_maybe_save |]. intros [] w; cbn -[editor_setPlainText];
    [| apply blocks_nil].
  intros p. destruct (String.eqb p ""); cbn -[editor_setPlainText]; [blocks_solve |].
  intros [text | msg]; cbn -[editor_setPlainText]; [| blocks_solve].
  rewrite (sbind_pure _ _ _ _ _ (editor_setPlainText_eq w text)). cbn. blocks_solve.
Qed.

Lemma blocks_editor_edit (ed : edit) : in_blocks (editor_edit ed).
Proof. intros w. rewrite editor_edit_eq. apply blocks_nil. Qed.

Lemma blocks_show_about : in_blocks show_about.
Proof. intros w. cbn. intros []. blocks_solve. Qed.

Lemma blocks_dispatch (ev : ui_event) : in_blocks (dispatch ev).
Proof.
  assert (Ht : forall a, in_blocks (trigger a)).
  { intros a. destruct a; cbn [trigger];
      repeat first [ apply blocks_file_new | apply blocks_file_open | apply blocks_file_save
                   | apply blocks_file_save_as | apply blocks_maybe_save | apply blocks_editor_edit
                   | apply blocks_show_about | apply blocks_ret | apply blocks_sbind | intros ? ]. }
  destruct ev as [a | k | t |]; cbn [dispatch]; [apply Ht | | |].
  - destruct (action_of_key k); [apply Ht | apply blocks_ret].
  - apply blocks_sbind; [apply blocks_editor_edit | intros; apply blocks_ret].
  - repeat first [apply blocks_maybe_save | apply blocks_ret | apply blocks_sbind | intros ?].
Qed.

Lemma blocks_init (e : env) : blocks (log (init_config (W := W) e)).
Proof. unfold init_config. cbn. blocks_solve. Qed.

(** C38: the history of every reachable configuration is a concatenation
    of blocks. Each write is answered at once by "Saved " and the written
    file, or by the error box; each read by "Opened " and the path, or by
    the error box. The dialogs and the question carry the code's captions
    and filter, and every status message has the 5-second timeout. *)
Theorem history_in_blocks (c : config (W := W)) : reachable c -> blocks (log c).
Proof.
  induction 1 as [e | c ev _ IH]; [apply blocks_init |].
  unfold system_step. destruct (running c); [| done].
  pose proof (run_all_traces _ _ (world c) (blocks_dispatch ev (win c))) as Hr.
  destruct (run (dispatch ev (win c)) (world c)) as [[[o w1] e1] tr]. by apply blocks_app.
Qed.
End Protocol.

(** ** Witness *)

Module ProtocolWitnesses.
Import QEditModel.

(** Type, Save As a file that cannot be written, Save As again to a good
    one, then About. *)
Definition c_protocol : config (W := qedit) :=
  run_events (init_config (mkEnv ∅ ∅ {["/tmp/ro.txt" := WDenied EACCES]}
                             [UPath "/tmp/ro.txt"; UPath "/tmp/a.txt"]))
    [Typing "hi"; Trigger ASaveAs; Trigger ASaveAs; Trigger AAbout].

Lemma history_in_blocks_witness :
  blocks (log c_protocol) /\ List.length (log c_protocol) = 8.
Proof.
  split; [apply history_in_blocks; apply reachable_run_events, reach_init | vm_compute; reflexivity].
Defined.
End ProtocolWitnesses.
