(* ===== verification/Bounds.v ===== *)
(** * Bounds: how many dialogs and calls one user event makes

    The handlers of src/main.py have no loops. A user event runs at most
    the chain [maybe_save] -> [file_save] -> [file_save_as] ->
    [_save_to_path], then the rest of the handler. This file counts the
    external calls on every path of [dispatch], with [all_paths] (the
    postcondition over the calls made). It proves three things, for every
    answer of the user and of the file system:
    - every event is handled after at most seven calls, and seven are
      reached (Open on a modified untitled document, answered Yes);
    - the user is asked the Save/Discard/Cancel question exactly once
      when New, Open, Exit or close finds the document modified, and
      never otherwise;
    - the user sees at most one error box, and at most one file is
      written: a failed save in the guard aborts the handler instead of
      going on to a second failure;
    - a guard's save is complete before the Open dialog: no file is
      written after the Open dialog is shown or a file is read. *)

From S2P Require Import Prelude Paths Interaction TextSurface Environment Session Editor.
Import Pathlib.
Open Scope editor_scope.

(** ** Counting calls *)

Definition is_question (c : call) : bool :=
  match c with Question _ _ => true | _ => false end.
Definition is_error (c : call) : bool :=
  match c with Critical _ _ => true | _ => false end.
Definition is_write (c : call) : bool :=
  match c with WriteText _ _ => true | _ => false end.
(** The calls that start loading a new document. *)
Definition is_load (c : call) : bool :=
  match c with GetOpenFileName _ _ _ | ReadText _ => true | _ => false end.

Definition count (f : call -> bool) (cs : list call) : nat := List.length (List.filter f cs).

(** No write after a load: every write precedes every load. *)
Fixpoint writes_before_loads (cs : list call) : bool :=
  match cs with
  | [] => true
  | c :: cs' => if is_load c then forallb (fun c' => negb (is_write c')) cs'
                else writes_before_loads cs'
  end.

Lemma count_app (f : call -> bool) (cs1 cs2 : list call) :
  count f (app cs1 cs2) = count f cs1 + count f cs2.
Proof. unfold count. by rewrite List.filter_app, length_app. Qed.

Lemma count_cons (f : call -> bool) (c : call) (cs : list call) :
  count f (c :: cs) = (if f c then 1 else 0) + count f cs.
Proof. unfold count. simpl. by destruct (f c). Qed.

Lemma count_nil (f : call -> bool) : count f [] = 0.
Proof. reflexivity. Qed.

Lemma writes_before_loads_nowrite (cs : list call) :
  forallb (fun c => negb (is_write c)) cs = true -> writes_before_loads cs = true.
Proof.
  induction cs as [|c cs IH]; simpl; [done |]. intros Hc.
  apply andb_prop in Hc as [_ Hc]. destruct (is_load c); auto.
Qed.

Lemma writes_before_loads_noload (cs : list call) :
  forallb (fun c => negb (is_load c)) cs = true -> writes_before_loads cs = true.
Proof.
  induction cs as [|c cs IH]; simpl; [done |]. intros Hc.
  apply andb_prop in Hc as [Hc Hcs]. destruct (is_load c); [done | auto].
Qed.

(** A path without loads followed by a path without writes keeps the
    order. *)
Lemma writes_before_loads_app (cs1 cs2 : list call) :
  forallb (fun c => negb (is_load c)) cs1 = true ->
  forallb (fun c => negb (is_write c)) cs2 = true ->
  writes_before_loads (app cs1 cs2) = true.
Proof.
  induction cs1 as [|c cs1 IH]; simpl; intros H1 H2; [by apply writes_before_loads_nowrite |].
  apply andb_prop in H1 as [Hc H1]. destruct (is_load c); [done |]. by apply IH.
Qed.

Lemma count_none (f : call -> bool) (cs : list call) :
  forallb (fun c => negb (f c)) cs = true -> count f cs = 0.
Proof.
  unfold count. induction cs as [|c cs IH]; [done |]. cbn. intros Hc.
  apply andb_prop in Hc as [Hc Hcs]. destruct (f c); [done |]. by apply IH.
Qed.

#[export] Hint Rewrite count_app count_cons count_nil @length_app : editor_rw.

Arguments count : simpl never.

(** Close the arithmetic of a path's counts. *)
Ltac count_solve :=
  intros; cbn in *; autorewrite with editor_rw in *; cbn in *;
  repeat match goal with
         | |- context [if ?b then _ else _] => destruct b
         | H : context [if ?b then _ else _] |- _ => destruct b
         end;
  split_all; repeat match goal with H : forallb _ _ = _ |- _ => clear H end; lia.

Section Bounds.
Context {W : Type} `{TextSurfaceLaws W}.
Implicit Types (w : window W).

(** The budget of a path of a saving routine: at most [n] calls, no
    question, no load, and one error at most, none when it succeeds. *)
Definition save_path (n : nat) (cs : list call) (b : bool) : Prop :=
  List.length cs <= n /\ count is_question cs = 0 /\ count is_error cs <= (if b then 0 else 1) /\
  count is_write cs <= 1 /\ forallb (fun c => negb (is_load c)) cs = true.

Lemma save_to_path_paths w (p : path) :
  all_paths (fun cs '((b, _) : bool * window W) => save_path 2 cs b) (save_to_path p w).
Proof. cbn. intros [[] | msg]; cbn; unfold save_path; count_solve. Qed.

Lemma file_save_as_paths w :
  all_paths (fun cs '((b, _) : bool * window W) => save_path 3 cs b) (file_save_as w).
Proof.
  cbn. intros p. destruct (String.eqb p ""); cbn; [unfold save_path; count_solve |].
  intros [[] | msg]; cbn; unfold save_path; count_solve.
Qed.

Lemma file_save_paths w :
  all_paths (fun cs '((b, _) : bool * window W) => save_path 3 cs b) (file_save w).
Proof.
  destruct (current_path w) as [p|] eqn:Hc.
  - rewrite (file_save_some w p Hc). eapply all_paths_impl; [| apply save_to_path_paths].
    intros cs [b w1] (Hl & Hq & He & Hw & Hn). repeat split; auto; lia.
  - rewrite (file_save_none w Hc). apply file_save_as_paths.
Qed.

(** The guard: at most four calls, the question exactly when the
    document is modified, an error only when it aborts, and one write
    at most. *)
Lemma maybe_save_paths w :
  all_paths (fun cs '((ok, _) : bool * window W) =>
    List.length cs <= 4 /\ count is_question cs = (if is_modified w then 1 else 0) /\
    count is_error cs <= (if ok then 0 else 1) /\ count is_write cs <= 1 /\
    forallb (fun c => negb (is_load c)) cs = true) (maybe_save w).
Proof.
  unfold maybe_save. cbn. destruct (is_modified w); cbn; try count_solve;
    intros [| |]; cbn; try count_solve;
    eapply all_paths_impl; [| apply file_save_paths]; intros cs [b w1] (Hl & Hq & He & Hw & Hn);
    count_solve.
Qed.

(** The budget of a whole user event that asks the question [q] times. *)
Definition event_path (q : nat) (cs : list call) : Prop :=
  List.length cs <= 7 /\ count is_question cs = q /\ (count is_error cs <= 1) /\
  count is_write cs <= 1 /\ writes_before_loads cs = true.

(** The events that run the guard [maybe_save]: New (line 130), Open
    (line 138), Exit and the close button ([closeEvent], line 204). *)
Definition guarded_action (a : action) : bool :=
  match a with ANew | AOpen | AExit => true | _ => false end.

Definition guarded (ev : ui_event) : bool :=
  match ev with
  | Trigger a => guarded_action a
  | KeyPress k => match action_of_key k with Some a => guarded_action a | None => false end
  | Typing _ => false
  | CloseButton => true
  end.

(** The part of a handler after a guard that proceeds: at most three
    calls, no question, at most one error and no write. *)
Definition after_guard_path (cs : list call) : Prop :=
  List.length cs <= 3 /\ count is_question cs = 0 /\ (count is_error cs <= 1) /\
  forallb (fun c => negb (is_write c)) cs = true.

Lemma guard_then {A} (f : bool -> M (window W) A) w :
  (forall w1, all_paths (fun cs _ => after_guard_path cs) (f true w1)) ->
  (forall w1, all_paths (fun cs _ => cs = []) (f false w1)) ->
  all_paths (fun cs _ => event_path (if is_modified w then 1 else 0) cs) (sbind maybe_save f w).
Proof.
  intros Ht Hf. apply all_paths_sbind.
  eapply all_paths_impl; [| apply maybe_save_paths].
  intros cs [[] w1] (Hl & Hq & He & Hw & Hn).
  - eapply all_paths_impl; [| apply Ht]. intros cs' _ (Hl' & Hq' & He' & Hw').
    pose proof (count_none is_write cs' Hw').
    unfold event_path; split_all; try count_solve. by apply writes_before_loads_app.
  - eapply all_paths_impl; [| apply Hf]. intros cs' _ ->. rewrite app_nil_r.
    unfold event_path; split_all; try count_solve. by apply writes_before_loads_noload.
Qed.

Lemma file_new_paths w : all_paths (fun cs _ => event_path (if is_modified w then 1 else 0) cs) (file_new w).
Proof.
  apply guard_then; intros w1; cbn -[editor_clear]; [| done].
  rewrite (sbind_pure _ _ _ _ _ (editor_clear_eq w1)). cbn. unfold after_guard_path. count_solve.
Qed.

Lemma file_open_paths w : all_paths (fun cs _ => event_path (if is_modified w then 1 else 0) cs) (file_open w).
Proof.
  apply guard_then; intros w1; cbn -[editor_setPlainText]; [| done].
  intros p. destruct (String.eqb p ""); cbn -[editor_setPlainText]; [unfold after_guard_path; count_solve |].
  intros [text | msg]; cbn -[editor_setPlainText]; [| unfold after_guard_path; count_solve].
  rewrite (sbind_pure _ _ _ _ _ (editor_setPlainText_eq w1 text)). cbn. unfold after_guard_path. count_solve.
Qed.

Lemma closeEvent_paths w :
  all_paths (fun cs _ => event_path (if is_modified w then 1 else 0) cs)
    (sbind closeEvent (fun acc => sret (negb acc)) w).
Proof.
  apply all_paths_sbind. unfold closeEvent.
  eapply all_paths_impl; [| apply guard_then; intros w1; cbn; [unfold after_guard_path; count_solve | done]].
  intros cs [acc w1] Hp. cbn. by rewrite app_nil_r.
Qed.

(** A handler followed by [sret]: the slot's value is dropped. *)
Lemma then_ret_paths {A B} (P : list call -> Prop) (m : M (window W) A) (b : B) w :
  all_paths (fun cs _ => P cs) (m w) -> all_paths (fun cs _ => P cs) ((m ;;; sret b) w).
Proof.
  intros Hm. apply all_paths_sbind. eapply all_paths_impl; [| exact Hm].
  intros cs [a w1] Hp. cbn. by rewrite app_nil_r.
Qed.

Lemma save_event_path (cs : list call) (b : bool) : save_path 3 cs b -> event_path 0 cs.
Proof.
  intros (Hl & Hq & He & Hw & Hn). unfold event_path.
  split_all; first [by apply writes_before_loads_noload | destruct b; lia].
Qed.

Lemma editor_edit_paths w (ed : edit) : all_paths (fun cs _ => event_path 0 cs) (editor_edit ed w).
Proof. rewrite editor_edit_eq. cbn. unfold event_path. count_solve. Qed.

(** The path budget of one slot, by the handler it runs. *)
Ltac slot_paths :=
  first
    [ apply file_new_paths | apply file_open_paths | apply closeEvent_paths
    | apply editor_edit_paths
    | eapply all_paths_impl; [| apply file_save_paths]; intros cs [b w1]; apply save_event_path
    | eapply all_paths_impl; [| apply file_save_as_paths]; intros cs [b w1]; apply save_event_path
    | cbn; unfold event_path; count_solve ].

(** The number of questions an event asks: one when it runs the guard
    on a modified document, none otherwise. *)
Definition asks (ev : ui_event) w : nat := if guarded ev && is_modified w then 1 else 0.

Lemma trigger_paths w (a : action) :
  all_paths (fun cs _ => event_path (asks (Trigger a) w) cs) (trigger a w).
Proof. unfold asks. destruct a; cbn [trigger guarded guarded_action andb]; try apply then_ret_paths; slot_paths. Qed.

Lemma dispatch_paths w (ev : ui_event) : all_paths (fun cs _ => event_path (asks ev w) cs) (dispatch ev w).
Proof.
  destruct ev as [a | k | t |]; cbn [dispatch]; [apply trigger_paths | | | unfold asks; slot_paths].
  - unfold asks. cbn [guarded]. destruct (action_of_key k); [apply trigger_paths | slot_paths].
  - apply then_ret_paths. slot_paths.
Qed.

(** The external calls one user event makes, in order. *)
Definition event_calls (ev : ui_event) w e : list call := map ev_call (snd (run (dispatch ev w) e)).

Lemma dispatch_run_path w (ev : ui_event) e : event_path (asks ev w) (event_calls ev w e).
Proof.
  unfold event_calls. pose proof (run_all_paths _ _ e (dispatch_paths w ev)) as Hr.
  by destruct (run (dispatch ev w) e) as [[x e1] tr].
Qed.

(** C27: every user event is handled after at most seven external calls,
    whatever the user and the file system answer: no handler waits on
    dialogs without end, and the event loop gets control back. *)
Theorem dispatch_terminates (ev : ui_event) w e : List.length (event_calls ev w e) <= 7.
Proof. by destruct (dispatch_run_path w ev e) as [Hl _]. Qed.

(** C28: one user event asks the unsaved-changes question at most once and
    shows at most one error box: when the guard's save fails, the handler
    stops instead of failing a second time. *)
Theorem dispatch_one_question_one_error (ev : ui_event) w e :
  count is_question (event_calls ev w e) <= 1 /\ (count is_error (event_calls ev w e) <= 1).
Proof.
  destruct (dispatch_run_path w ev e) as (_ & Hq & He & _). rewrite Hq. unfold asks.
  split; [destruct (guarded ev && is_modified w); lia | done].
Qed.

(** C29: the guard's save is finished before the new document is chosen:
    in the calls of one user event, no file is written after the Open
    dialog or a read. *)
Theorem dispatch_saves_before_loading (ev : ui_event) w e :
  writes_before_loads (event_calls ev w e) = true.
Proof. by destruct (dispatch_run_path w ev e) as (_ & _ & _ & _ & Ho). Qed.

(** C5: the unsaved-changes question is asked exactly when it must be:
    once when New, Open, Exit or the close button finds the document
    modified, and never otherwise (never for a clean document, never for
    Save, Save As, the Edit menu, typing or About). *)
Theorem guard_asks_iff_modified (ev : ui_event) w e :
  count is_question (event_calls ev w e) = if guarded ev && is_modified w then 1 else 0.
Proof. by destruct (dispatch_run_path w ev e) as (_ & Hq & _). Qed.

(** C24: one user event writes at most one file: the guard's save and
    the handler never both write, and no handler retries a write. *)
Theorem dispatch_one_write (ev : ui_event) w e : count is_write (event_calls ev w e) <= 1.
Proof. by destruct (dispatch_run_path w ev e) as (_ & _ & _ & Hw & _). Qed.
End Bounds.

(** ** Witnesses *)

Module BoundsWitnesses.
Import QEditModel.

Definition w_draft : window qedit :=
  mkWindow None true ("*" ^ UNTITLED) (mkQEdit "draft" [""] [] "").
(** Yes to the question, a path for the Save As of the guard, then a file
    to open. *)
Definition e_save_then_open : env :=
  mkEnv {["/tmp/a.txt" := "hello"]} ∅ ∅ [UButton Yes; UPath "/tmp/b.txt"; UPath "/tmp/a.txt"].
Definition e_failing_save : env :=
  mkEnv ∅ ∅ {["/tmp/b.txt" := WDenied EACCES]}
    [UButton Yes; UPath "/tmp/b.txt"; UPath "/tmp/a.txt"].

(** The bound is reached: Open on a modified untitled document, answered
    Yes, makes seven calls. *)
Lemma dispatch_terminates_witness :
  List.length (event_calls (Trigger AOpen) w_draft e_save_then_open) <= 7 /\
  List.length (event_calls (Trigger AOpen) w_draft e_save_then_open) = 7.
Proof. split; [apply dispatch_terminates | vm_compute; reflexivity]. Defined.

(** Both bounds are reached: a failing save in the guard shows one
    question and one error, and Open stops before its dialog. *)
Lemma dispatch_one_question_one_error_witness :
  (count is_question (event_calls (Trigger AOpen) w_draft e_failing_save) <= 1 /\
   (count is_error (event_calls (Trigger AOpen) w_draft e_failing_save) <= 1)) /\
  count is_question (event_calls (Trigger AOpen) w_draft e_failing_save) = 1 /\
  count is_error (event_calls (Trigger AOpen) w_draft e_failing_save) = 1 /\
  count is_load (event_calls (Trigger AOpen) w_draft e_failing_save) = 0.
Proof. split; [apply dispatch_one_question_one_error | vm_compute; split_all]. Defined.

Lemma dispatch_saves_before_loading_witness :
  writes_before_loads (event_calls (Trigger AOpen) w_draft e_save_then_open) = true.
Proof. apply dispatch_saves_before_loading. Defined.
End BoundsWitnesses.
