(* ===== verification/Liveness.v ===== *)
(** * Liveness: the user can always save the document and quit

    The user drives the application: each step is an event of the user's
    choice, with the user's answers to the dialogs it opens ([answer_with]).
    [can_reach P c] says that some sequence of such steps leads from [c]
    to a configuration satisfying [P]. The theorem of this file: from any
    running configuration, whatever its path, flag, title and widget, and
    whatever files and faults the disk has, the user can save the current
    text to any writable path and then close the window. Save As with
    that path is followed by a close, which asks nothing since the save
    cleared the flag. The second theorem: from any running configuration
    the user can also quit without writing anything, by a close answered
    "Discard" when the document is modified. *)

From S2P Require Import Prelude Paths Interaction TextSurface Environment Session Editor.
Import Pathlib.
Open Scope editor_scope.

Section Liveness.
Context {W : Type} `{TextSurfaceLaws W}.
Implicit Types (c : config (W := W)).

(** The user decides the answers of the dialogs the next event opens. *)
Definition answer_with (a : list user_answer) c : config :=
  mkConfig (win c) (with_script a (world c)) (running c) (log c).

(** Some sequence of user steps leads from [c] to a configuration
    satisfying [P]. *)
Inductive can_reach (P : config -> Prop) : config -> Prop :=
  | reach_now c : P c -> can_reach P c
  | reach_later c (a : list user_answer) (ev : ui_event) :
      can_reach P (system_step (answer_with a c) ev) -> can_reach P c.

Lemma resolve_parse (q : string) : resolve (path_str (parse q)) = resolve q.
Proof. unfold resolve. by rewrite (parse_path_str (parse q) (parse_wf q)). Qed.

(** A handler whose value is dropped by the slot. *)
Lemma run_then_ret {A} (m : M (window W) A) (b : bool) (w : window W) e :
  run ((m ;;; sret b) w) e = let '(_, w1, e1, tr) := run (m w) e in (b, w1, e1, tr).
Proof.
  unfold sbind. rewrite run_bind. destruct (run (m w) e) as [[[x w1] e1] tr]. cbn.
  by rewrite app_nil_r.
Qed.

(** Save As to a writable path [q], answered by the user. *)
Lemma save_as_step c (q : string) :
  running c = true -> q <> "" -> write_faults (world c) !! resolve q = None ->
  let c1 := system_step (answer_with [UPath q] c) (Trigger ASaveAs) in
  running c1 = true /\ win c1 = saved_window (win c) (parse q) /\
  disk (world c1) !! resolve q = Some (text_of (win c)) /\
  write_faults (world c1) = write_faults (world c).
Proof.
  intros Hr Hq Hf. unfold system_step, answer_with. cbn [running win world]. rewrite Hr.
  cbn [dispatch trigger].
  rewrite run_then_ret.
  rewrite (file_save_as_chosen (win c) _ (with_script [] (with_script [UPath q] (world c))) q)
    by done.
  rewrite (save_to_path_ok (win c) _ (with_disk (<[resolve q := text_of (win c)]> (disk (world c)))
             (with_script [] (with_script [UPath q] (world c))))).
  - simpl. by rewrite lookup_insert_eq.
  - rewrite write_text_ok; rewrite resolve_parse; [done | done].
Qed.

(** Closing a clean window asks nothing, changes nothing on disk, and
    stops the application. *)
Lemma close_clean_step c :
  running c = true -> is_modified (win c) = false ->
  let c1 := system_step (answer_with [] c) CloseButton in
  running c1 = false /\ world c1 = with_script [] (world c).
Proof.
  intros Hr Hm. unfold system_step, answer_with. cbn [running win world]. rewrite Hr.
  cbn. rewrite Hm. by split.
Qed.

(** Closing a modified window answered "Discard" stops the application
    without touching the disk. *)
Lemma close_discard_step c :
  running c = true -> is_modified (win c) = true ->
  let c1 := system_step (answer_with [UButton No] c) CloseButton in
  running c1 = false /\ disk (world c1) = disk (world c).
Proof.
  intros Hr Hm. unfold system_step, answer_with. cbn [running win world]. rewrite Hr.
  cbn. rewrite Hm. by split.
Qed.

(** C31: from every running configuration, the user can save the current
    text to any writable path [q] and close the window: no state of the
    application traps the user's document. *)
Theorem can_save_and_quit c (q : string) :
  running c = true -> q <> "" -> write_faults (world c) !! resolve q = None ->
  can_reach (fun c' => running c' = false /\ disk (world c') !! resolve q = Some (text_of (win c))) c.
Proof.
  intros Hr Hq Hf. destruct (save_as_step c q Hr Hq Hf) as (Hr1 & Hw1 & Hd1 & _).
  apply (reach_later _ c [UPath q] (Trigger ASaveAs)).
  set (c1 := system_step (answer_with [UPath q] c) (Trigger ASaveAs)) in *.
  apply (reach_later _ c1 [] CloseButton), reach_now.
  destruct (close_clean_step c1 Hr1) as [Hr2 Hw2]; [by rewrite Hw1 |].
  split; [done |]. by rewrite Hw2.
Qed.

(** C25: from every running configuration, whatever the disk and its
    faults, the user can quit, and quitting this way leaves every file as
    it was: Close, answered "Discard" when the document is modified. The
    guard never traps the user, and the way out writes nothing. *)
Theorem can_always_quit c :
  running c = true -> can_reach (fun c' => running c' = false /\ disk (world c') = disk (world c)) c.
Proof.
  intros Hr. destruct (is_modified (win c)) eqn:Hm.
  - apply (reach_later _ c [UButton No] CloseButton), reach_now. by apply close_discard_step.
  - apply (reach_later _ c [] CloseButton), reach_now.
    destruct (close_clean_step c Hr Hm) as [Hr1 Hw1]. by rewrite Hw1.
Qed.
End Liveness.

(** ** Witness *)

Module LivenessWitnesses.
Import QEditModel.

(** A modified untitled document, whose default save target is denied:
    the user saves it to /tmp/b.txt and quits. *)
Definition c_draft : config (W := qedit) :=
  mkConfig (mkWindow None true ("*" ^ UNTITLED) (mkQEdit "draft" [""] [] ""))
    (mkEnv ∅ ∅ {["/tmp/a.txt" := WDenied EACCES]} [])
    true [].

Lemma can_save_and_quit_witness :
  can_reach (fun c' => running c' = false /\
                       disk (world c') !! resolve "/tmp/b.txt" = Some (text_of (win c_draft))) c_draft.
Proof. apply can_save_and_quit; [reflexivity | discriminate | reflexivity]. Defined.

(** The same draft: the user quits and the disk is untouched. *)
Lemma can_always_quit_witness :
  can_reach (fun c' => running c' = false /\ disk (world c') = disk (world c_draft)) c_draft.
Proof. apply can_always_quit. reflexivity. Defined.
End LivenessWitnesses.
