(* ===== verification/StatusBar.v ===== *)
(** * StatusBar: what the status bar shows

    The constructor creates a [QStatusBar] (lines 35-37), and
    [update_status] (lines 213-214) replaces its message. This file
    follows the last message announced, the last [showMessage] of the
    run ([status_message]), read from the trace of calls. Whether the
    bar still shows it depends on its 5-second timer, which [StatusTimer]
    models: the bar shows the last announcement for 5000 ms, then
    nothing. The program announces each change of the document's path:
    "Ready" and "New file" for an untitled document, "Saved <path>" and
    "Opened <path>" after a save or an open. This file proves the
    invariant behind that design ([last_status_agrees]): in every
    reachable configuration, the last announcement agrees with the
    window's [current_path]. No handler changes the path without
    announcing it, and no announcement names a file other than the
    current one. [StatusTimer] turns it into a statement on what the
    bar displays.

    The proof is compositional. [status_spec m] says that the last
    message a handler shows agrees with the path it leaves, and that a
    handler showing no message keeps the path. It is a [rel_ok] of
    [Interaction], so bind preserves it ([status_sbind]). *)

From S2P Require Import Prelude Paths Interaction TextSurface Environment Session Editor.
Import Pathlib.
Open Scope editor_scope.

(** The last message shown by a sequence of calls. *)
Fixpoint last_status (cs : list call) : option string :=
  match cs with
  | [] => None
  | c :: cs' =>
      match last_status cs' with
      | Some m => Some m
      | None => match c with ShowMessage m _ => Some m | _ => None end
      end
  end.

(** The last message announced on the status bar of a configuration
    (shown for 5000 ms after it was announced, see [StatusTimer]). *)
Definition status_message {W} `{TextSurface W} (c : config (W := W)) : option string :=
  last_status (map ev_call (log c)).

(** A message agrees with a path when it announces that path, or an
    untitled document when there is none. *)
Definition agrees (m : string) (p : option path) : Prop :=
  match p with
  | None => m = "Ready" \/ m = "New file"
  | Some q => m = "Saved " ^ path_str q \/ m = "Opened " ^ path_str q
  end.

Lemma last_status_app (cs1 cs2 : list call) :
  last_status (app cs1 cs2) =
    match last_status cs2 with Some m => Some m | None => last_status cs1 end.
Proof.
  induction cs1 as [|c cs1 IH]; simpl; [by destruct (last_status cs2) |].
  rewrite IH. by destruct (last_status cs2).
Qed.

Section Status.
Context {W : Type} `{TextSurfaceLaws W}.
Implicit Types (w : window W).

(** The postcondition of a handler run from [w]: its last message agrees
    with the final path, and without a message the path is unchanged. *)
Definition status_post w (cs : list call) (w1 : window W) : Prop :=
  match last_status cs with
  | Some m => agrees m (current_path w1)
  | None => current_path w1 = current_path w
  end.

Definition status_rel w (evs : list event) (w1 : window W) : Prop :=
  status_post w (map ev_call evs) w1.

Definition status_spec {A} (m : M (window W) A) : Prop := rel_ok status_rel m.

Lemma status_post_app w w1 w2 (cs1 cs2 : list call) :
  status_post w cs1 w1 -> status_post w1 cs2 w2 -> status_post w (app cs1 cs2) w2.
Proof.
  unfold status_post. rewrite last_status_app.
  destruct (last_status cs2) as [m2|]; [done |]. intros H1 ->. exact H1.
Qed.

Lemma status_sbind {A B} (m : M (window W) A) (f : A -> M (window W) B) :
  status_spec m -> (forall a, status_spec (f a)) -> status_spec (sbind m f).
Proof.
  apply rel_ok_sbind. intros w w1 w2 evs1 evs2 H1 H2. unfold status_rel.
  rewrite map_app. by eapply status_post_app.
Qed.

(** A call that shows no message does not count. *)
Lemma status_rel_cons w w1 (c : call) (r : resp c) (evs : list event) :
  (forall m t, c <> ShowMessage m t) -> status_rel w evs w1 -> status_rel w (Ev c r :: evs) w1.
Proof.
  intros Hc. unfold status_rel, status_post. simpl. destruct (last_status (map ev_call evs)); [done |].
  destruct c; try done. by destruct (Hc msg timeout).
Qed.

Lemma status_ret {A} (a : A) : status_spec (sret a).
Proof. by apply rel_ok_ret. Qed.

Lemma status_save_to_path (p : path) : status_spec (save_to_path p).
Proof. intros w. cbn. intros [[] | msg]; cbn; [by left | done]. Qed.

Lemma status_file_save_as : status_spec file_save_as.
Proof.
  intros w. cbn -[save_to_path]. intros p. destruct (String.eqb p ""); cbn -[save_to_path]; [done |].
  eapply all_traces_impl; [| apply status_save_to_path].
  intros evs [b w1]. by apply status_rel_cons.
Qed.

Lemma status_file_save : status_spec file_save.
Proof.
  intros w. destruct (current_path w) as [p|] eqn:Hc.
  - rewrite (file_save_some w p Hc). apply status_save_to_path.
  - rewrite (file_save_none w Hc). apply status_file_save_as.
Qed.

Lemma status_maybe_save : status_spec maybe_save.
Proof.
  intros w. destruct (is_modified w) eqn:Hm.
  - rewrite (maybe_save_dirty w Hm). intros [| |]; cbn; [| done | done].
    eapply all_traces_impl; [| apply status_file_save].
    intros evs [b w1]. by apply status_rel_cons.
  - rewrite (maybe_save_clean w Hm). by cbn.
Qed.

(** The part of a handler after its guard, from the guard's window. *)
Lemma status_after_guard {A} (f : bool -> M (window W) A) :
  (forall ok, status_spec (f ok)) -> status_spec (sbind maybe_save f).
Proof. intros Hf. apply status_sbind; [apply status_maybe_save | exact Hf]. Qed.

Lemma status_file_new : status_spec file_new.
Proof.
  apply status_after_guard. intros [] w; cbn -[editor_clear]; [| done].
  rewrite (sbind_pure _ _ _ _ _ (editor_clear_eq w)). cbn. by right.
Qed.

Lemma status_file_open : status_spec file_open.
Proof.
  apply status_after_guard. intros [] w; cbn -[editor_setPlainText]; [| done].
  intros p. destruct (String.eqb p ""); cbn -[editor_setPlainText]; [done |].
  intros [text | msg]; cbn -[editor_setPlainText]; [| done].
  rewrite (sbind_pure _ _ _ _ _ (editor_setPlainText_eq w text)). cbn. by right.
Qed.

Lemma mark_modified_path w : current_path (mark_modified w) = current_path w.
Proof. unfold mark_modified. by destruct (is_modified w). Qed.

Lemma status_editor_edit (ed : edit) : status_spec (editor_edit ed).
Proof.
  intros w. rewrite editor_edit_eq. cbn. destruct (apply_edit ed (editor w)) as [x []]; [| done].
  unfold status_rel, status_post; simpl. by rewrite mark_modified_path.
Qed.

Lemma status_dispatch (ev : ui_event) : status_spec (dispatch ev).
Proof.
  assert (Ht : forall a, status_spec (trigger a)).
  { intros a. destruct a; cbn [trigger];
      repeat first [ apply status_file_new | apply status_file_open | apply status_file_save
                   | apply status_file_save_as | apply status_maybe_save | apply status_editor_edit
                   | apply status_ret | apply status_sbind | intros ? ].
    all: by cbn. }
  destruct ev as [a | k | t |]; cbn [dispatch]; [apply Ht | | |].
  - destruct (action_of_key k); [apply Ht | apply status_ret].
  - apply status_sbind; [apply status_editor_edit | intros; apply status_ret].
  - apply status_sbind; [apply status_sbind; [apply status_maybe_save | intros; apply status_ret] |].
    intros; apply status_ret.
Qed.

(** In every reachable configuration a message has been announced, and
    the last one agrees with the document's path: "Ready" or "New file"
    for an untitled document, "Saved <str(path)>" or "Opened <str(path)>"
    for the current file. *)
Lemma last_status_agrees (c : config (W := W)) :
  reachable c -> exists m, status_message c = Some m /\ agrees m (current_path (win c)).
Proof.
  induction 1 as [e | c ev _ (m & Hm & Ha)].
  - exists "Ready". split; [reflexivity | by left].
  - unfold system_step. destruct (running c); [| by exists m].
    pose proof (run_all_traces _ _ (world c) (status_dispatch ev (win c))) as Hr.
    destruct (run (dispatch ev (win c)) (world c)) as [[[o w1] e1] tr].
    unfold status_message in *; simpl. rewrite map_app, last_status_app.
    unfold status_rel, status_post in Hr. destruct (last_status (map ev_call tr)) as [m'|].
    + by exists m'.
    + exists m. rewrite Hm. split; [done |]. by rewrite Hr.
Qed.
End Status.
