(* ===== verification/StatusTimer.v ===== *)
(** * StatusTimer: a status message lasts five seconds

    [update_status] (lines 213-214) calls [showMessage(message, 5000)].
    [QStatusBar] shows the message and starts a single-shot timer. When the
    timer fires, the message is cleared. A later [showMessage] replaces the
    message and restarts the timer.

    This file adds a clock to the event loop of [Editor]. Each user event
    happens at a time in milliseconds, not before the previous one. The
    calls of its handler happen at that time: modal dialogs are answered
    at once. [timed_step] is [system_step] with three additions:
    - the clock;
    - the history stamped with times ([tlog]);
    - the status bar's state ([qstatus]), fed with the calls.
    It projects to [system_step] ([cfg_timed_step]).

    The theorem ([status_shown_five_seconds]) concerns any time [now] after
    the last event. At [now], the status bar shows a message exactly when
    one was announced less than 5000 ms before [now]. The message shown
    is then the last announcement, [StatusBar.status_message], so what
    the bar displays agrees with the document's path
    ([shown_status_agrees]). *)

From S2P Require Import Prelude Paths Interaction TextSurface Environment Session Editor Protocol StatusBar.
Open Scope editor_scope.

(** ** The status bar of Qt *)

(** The temporary message of a [QStatusBar]: its text, and the time its
    timer fires ([None] for a timeout of 0, which never fires). *)
Definition qstatus := option (string * option nat).

Definition showMessage (msg : string) (timeout now : nat) : qstatus :=
  Some (msg, if Nat.eqb timeout 0 then None else Some (now + timeout)).

(** [currentMessage()] at time [now]: once its timer has fired, the message
    is gone. *)
Definition currentMessage (now : nat) (st : qstatus) : option string :=
  match st with
  | Some (msg, Some d) => if Nat.ltb now d then Some msg else None
  | Some (msg, None) => Some msg
  | None => None
  end.

(** ** The event loop with a clock *)

(** An answered call with the time it was made. *)
Definition tevent := (nat * event)%type.

Definition stamp (t : nat) (evs : list event) : list tevent := map (pair t) evs.

(** The status bar after a call made at time [fst te]. *)
Definition bar_step (st : qstatus) (te : tevent) : qstatus :=
  match ev_call (snd te) with
  | ShowMessage msg timeout => showMessage msg timeout (fst te)
  | _ => st
  end.

Section Timed.
Context {W : Type} `{TextSurface W}.

Record tconfig := mkTConfig {
  cfg : config (W := W);
  bar : qstatus;
  clock : nat;
  tlog : list tevent
}.

(** [main()] at time [t0]: the constructor shows "Ready". *)
Definition timed_init (e : env) (t0 : nat) : tconfig :=
  let c := init_config e in
  mkTConfig c (fold_left bar_step (stamp t0 (log c)) None) t0 (stamp t0 (log c)).

(** A user event at time [t]. *)
Definition timed_step (tc : tconfig) (t : nat) (ev : ui_event) : tconfig :=
  let c := cfg tc in
  if running c then
    let '(open, w, e, tr) := run (dispatch ev (win c)) (world c) in
    mkTConfig (mkConfig w e open (app (log c) tr)) (fold_left bar_step (stamp t tr) (bar tc)) t
              (app (tlog tc) (stamp t tr))
  else tc.

(** The runs whose events come in order of time. *)
Inductive treachable : tconfig -> Prop :=
  | treach_init e t0 : treachable (timed_init e t0)
  | treach_step tc t ev : treachable tc -> clock tc <= t -> treachable (timed_step tc t ev).

Fixpoint run_timed (tc : tconfig) (tevs : list (nat * ui_event)) : tconfig :=
  match tevs with
  | [] => tc
  | (t, ev) :: rest => run_timed (timed_step tc t ev) rest
  end.
End Timed.

(** The times of [tevs] do not decrease, starting from [t]. *)
Fixpoint in_time_order (t : nat) (tevs : list (nat * ui_event)) : bool :=
  match tevs with
  | [] => true
  | (t', _) :: rest => Nat.leb t t' && in_time_order t' rest
  end.

(** A message was announced less than [d] ms before [now]. *)
Definition announced_within (d now : nat) (tl : list tevent) : bool :=
  existsb (fun te => match ev_call (snd te) with
                     | ShowMessage _ _ => Nat.ltb now (fst te + d)
                     | _ => false
                     end) tl.

(** Every status message of [evs] has the timeout [d]. *)
Definition timeouts_are (d : nat) (evs : list event) : Prop :=
  Forall (fun ev => forall msg to, ev_call ev = ShowMessage msg to -> to = d) evs.

(** The status messages of the handlers have the timeout of
    [update_status]. *)
Lemma blocks_timeouts (evs : list event) : blocks evs -> timeouts_are 5000 evs.
Proof.
  apply blocks_ind_app; [constructor | intros; by apply Forall_app |].
  destruct 1; repeat constructor; cbn; intros; simplify_eq; done.
Qed.

Section Timeout.
Variable d : nat.
Hypothesis d_pos : d <> 0.

(** The calls of one event, all made at time [t]: the bar ends with the
    last message they show, with its timer set to [t + d]. *)
Lemma bar_batch (t : nat) (tr : list event) (st : qstatus) :
  timeouts_are d tr ->
  fold_left bar_step (stamp t tr) st =
    match last_status (map ev_call tr) with Some m => Some (m, Some (t + d)) | None => st end.
Proof.
  revert st. induction tr as [| ev tr IH]; intros st Hto; [done |].
  apply Forall_cons in Hto as [Hev Hto].
  cbn [stamp map fold_left last_status]. rewrite (IH _ Hto).
  destruct (last_status (map ev_call tr)); [done |].
  unfold bar_step. cbn [snd fst]. destruct (ev_call ev) eqn:Hc; try done.
  unfold showMessage. rewrite (Hev _ _ eq_refl). by apply Nat.eqb_neq in d_pos as ->.
Qed.

Lemma announced_batch (now t : nat) (tr : list event) :
  announced_within d now (stamp t tr) =
    match last_status (map ev_call tr) with Some _ => Nat.ltb now (t + d) | None => false end.
Proof.
  induction tr as [| ev tr IH]; [done |]. unfold announced_within, stamp in *.
  cbn [map existsb last_status snd fst]. rewrite IH.
  destruct (last_status (map ev_call tr)), (ev_call ev); cbn -[Nat.ltb];
    destruct (Nat.ltb now (t + d)); done.
Qed.

Lemma announced_app (now : nat) (tl1 tl2 : list tevent) :
  announced_within d now (app tl1 tl2) = announced_within d now tl1 || announced_within d now tl2.
Proof. apply existsb_app. Qed.

(** Announcements made no later than [t] are all over by [t + d]. *)
Lemma announced_old (now t : nat) (tl : list tevent) :
  Forall (fun te => fst te <= t) tl -> t + d <= now -> announced_within d now tl = false.
Proof.
  intros Hl Hn. unfold announced_within.
  induction Hl as [| [t' ev] tl Ht _ IH]; [done |]. cbn -[Nat.ltb] in *. rewrite IH, orb_false_r.
  destruct (ev_call ev); try done. apply Nat.ltb_ge. lia.
Qed.
End Timeout.

Section TimedTheorems.
Context {W : Type} `{TextSurfaceLaws W}.
Implicit Types (tc : tconfig (W := W)).

(** Forgetting the clock gives the untimed event loop. *)
Lemma cfg_timed_step tc (t : nat) (ev : ui_event) :
  cfg (timed_step tc t ev) = system_step (cfg tc) ev.
Proof.
  unfold timed_step, system_step. destruct (running (cfg tc)); [| done].
  by destruct (run (dispatch ev (win (cfg tc))) (world (cfg tc))) as [[[o w] e] tr].
Qed.

Lemma clock_timed_step tc (t : nat) (ev : ui_event) :
  clock tc <= t -> clock (timed_step tc t ev) <= t.
Proof.
  unfold timed_step. destruct (running (cfg tc)); [| done].
  by destruct (run (dispatch ev (win (cfg tc))) (world (cfg tc))) as [[[o w] e] tr].
Qed.

Lemma treachable_run_timed tc (t : nat) (tevs : list (nat * ui_event)) :
  treachable tc -> clock tc <= t -> in_time_order t tevs = true -> treachable (run_timed tc tevs).
Proof.
  revert tc t. induction tevs as [| [t' ev] tevs IH]; intros tc t Hr Hc Ho; [done |].
  cbn in Ho. apply andb_prop in Ho as [Ht Ho]. apply Nat.leb_le in Ht.
  apply (IH _ t'); [constructor; [done | lia] | apply clock_timed_step; lia | done].
Qed.

Lemma treachable_reachable tc : treachable tc -> reachable (cfg tc).
Proof. induction 1; [constructor | rewrite cfg_timed_step; by constructor]. Qed.

Lemma stamp_times (t : nat) (tr : list event) : Forall (fun te => fst te <= t) (stamp t tr).
Proof. induction tr; constructor; cbn; auto. Qed.

(** Every call of the history was made no later than the clock. *)
Lemma treachable_times tc : treachable tc -> Forall (fun te => fst te <= clock tc) (tlog tc).
Proof.
  induction 1 as [e t0 | tc t ev _ IH Ht].
  - apply stamp_times.
  - unfold timed_step. destruct (running (cfg tc)); [| done].
    destruct (run (dispatch ev (win (cfg tc))) (world (cfg tc))) as [[[o w] e] tr]. cbn.
    apply Forall_app. split.
    + eapply Forall_impl; [exact IH |]. intros te Hte; cbn in Hte; lia.
    + apply stamp_times.
Qed.

Lemma status_message_app (w : window W) (e : env) (o : bool) (evs tr : list event) :
  status_message (mkConfig w e o (app evs tr)) =
    match last_status (map ev_call tr) with Some m => Some m | None => last_status (map ev_call evs) end.
Proof. unfold status_message. cbn. by rewrite map_app, last_status_app. Qed.

(** What the bar displays at a time [now] after the last event. *)
Lemma current_message_spec tc (now : nat) :
  treachable tc -> clock tc <= now ->
  currentMessage now (bar tc) =
    if announced_within 5000 now (tlog tc) then status_message (cfg tc) else None.
Proof.
  intros Hr. pose proof blocks_timeouts as Hbt. assert (Hd : 5000 <> 0) by done.
  revert now Hbt Hd. generalize 5000 as d. intros d now Hbt Hd. revert now.
  induction Hr as [e t0 | tc t ev Hr IH Ht]; intros now Hn.
  - pose proof (Hbt _ (blocks_init (W := W) e)) as Hto.
    unfold timed_init. cbn [bar tlog cfg clock] in *.
    rewrite (bar_batch d Hd _ _ _ Hto), announced_batch. unfold status_message.
    destruct (last_status (map ev_call (log (init_config e)))); [| done].
    reflexivity.
  - pose proof (treachable_times tc Hr) as Htimes.
    unfold timed_step in *. destruct (running (cfg tc)); [| apply IH; lia].
    pose proof (run_all_traces _ _ (world (cfg tc)) (blocks_dispatch ev (win (cfg tc)))) as Hb.
    destruct (run (dispatch ev (win (cfg tc))) (world (cfg tc))) as [[[o w] e] tr].
    cbn [bar tlog cfg clock] in *. apply Hbt in Hb.
    rewrite (bar_batch d Hd _ _ _ Hb), status_message_app, announced_app, announced_batch.
    destruct (last_status (map ev_call tr)) as [m|].
    + unfold currentMessage. destruct (Nat.ltb now (t + d)) eqn:Hlt; [by rewrite orb_true_r |].
      apply Nat.ltb_ge in Hlt. rewrite (announced_old d Hd now t); [done | | lia].
      eapply Forall_impl; [exact Htimes |]. intros te Hte; cbn in Hte; lia.
    + rewrite orb_false_r, (IH now) by lia. done.
Qed.


(** C33: whatever the status bar displays, at any time after the last
    event, agrees with the document's path: "Ready" or "New file" for an
    untitled document, "Saved <str(path)>" or "Opened <str(path)>" for
    the current file. (Five seconds after the last announcement the bar
    is blank, and there is nothing to agree.) *)
Theorem shown_status_agrees tc (now : nat) (m : string) :
  treachable tc -> clock tc <= now -> currentMessage now (bar tc) = Some m ->
  agrees m (current_path (win (cfg tc))).
Proof.
  intros Hr Hn Hm. rewrite current_message_spec in Hm by done.
  destruct (announced_within 5000 now (tlog tc)); [| done].
  destruct (last_status_agrees (cfg tc) (treachable_reachable tc Hr)) as (m' & Hm' & Ha).
  congruence.
Qed.
End TimedTheorems.

(** ** Witness *)

Module TimerWitnesses.
Import QEditModel.

(** Started at time 0 ("Ready"), the user types at 1 s and saves as
    /tmp/a.txt at 2 s: "Saved /tmp/a.txt" is shown until 7 s. *)
Definition tc_saved : tconfig (W := qedit) :=
  run_timed (timed_init (mkEnv ∅ ∅ ∅ [UPath "/tmp/a.txt"]) 0)
    [(1000, Typing "hello"); (2000, Trigger ASaveAs)].


Lemma shown_status_agrees_witness :
  agrees "Saved /tmp/a.txt" (current_path (win (cfg tc_saved))) /\
  currentMessage 6999 (bar tc_saved) = Some "Saved /tmp/a.txt".
Proof.
  split; [| vm_compute; reflexivity].
  apply (shown_status_agrees _ 6999); [| apply Nat.leb_le; vm_compute; reflexivity | vm_compute; reflexivity].
  apply (treachable_run_timed _ 0); [constructor | done | vm_compute; reflexivity].
Defined.
End TimerWitnesses.
