(* ===== verification/ErrorReports.v ===== *)
(** * ErrorReports: no failure is silent, and no error box is spurious

    The program catches every exception of its file I/O: the read of
    [file_open] (lines 142-151) and the write of [_save_to_path] (lines
    166-177). Each [except] shows [QMessageBox.critical] with
    "Could not open file:\n{e}" or "Could not save file:\n{e}". This file
    states the property that makes the handling complete, over the answered
    calls of a run. [reported evs] says that each failed read or write of
    [evs] is followed at once by an error box quoting its exception, and
    that no other error box appears. The property is closed under
    concatenation and holds of each exchange of [Protocol], so it holds
    of the whole history of every reachable configuration. *)

From S2P Require Import Prelude Paths Interaction TextSurface Environment Session Editor Protocol.
Import Pathlib.
Open Scope editor_scope.

(** The text of the error box a failed I/O call must be followed by. *)
Definition failure_text (ev : event) : option string :=
  match ev with
  | Ev c r =>
      match c as c0 return resp c0 -> option string with
      | ReadText _ => fun r => match r with IOErr m => Some ("Could not open file:" ^ NL ^ m) | IOOk _ => None end
      | WriteText _ _ => fun r => match r with IOErr m => Some ("Could not save file:" ^ NL ^ m) | IOOk _ => None end
      | _ => fun _ => None
      end r
  end.

(** The text of an error box. *)
Definition error_box (ev : event) : option string :=
  match ev_call ev with Critical _ t => Some t | _ => None end.

(** Every failure is reported by the next call, and every error box reports
    the failure just before it. *)
Fixpoint reported (evs : list event) : Prop :=
  match evs with
  | [] => True
  | ev :: rest =>
      match failure_text ev with
      | Some t =>
          match rest with
          | ev' :: rest' => error_box ev' = Some t /\ reported rest'
          | [] => False
          end
      | None => error_box ev = None /\ reported rest
      end
  end.

Lemma reported_app (evs1 evs2 : list event) :
  reported evs1 -> reported evs2 -> reported (app evs1 evs2).
Proof.
  remember (List.length evs1) as n eqn:Hn. revert evs1 Hn.
  induction n as [n IH] using lt_wf_ind. intros [| ev rest] -> H1 H2; [done |].
  simpl in *. destruct (failure_text ev) as [t|].
  - destruct rest as [| ev' rest']; [done |]. destruct H1 as [Hb H1]. split; [done |].
    apply (IH (List.length rest')); [simpl; lia | done | done | done].
  - destruct H1 as [Hb H1]. split; [done |].
    apply (IH (List.length rest)); [simpl; lia | done | done | done].
Qed.

(** Each exchange of [Protocol] reports its failures. *)
Lemma reported_block (b : list event) : block b -> reported b.
Proof. destruct 1; cbn; split_all. Qed.

Lemma reported_blocks (evs : list event) : blocks evs -> reported evs.
Proof. apply blocks_ind_app; [done | apply reported_app | apply reported_block]. Qed.

Section Reports.
Context {W : Type} `{TextSurfaceLaws W}.

(** C35: in the history of every reachable configuration, each failed read
    or write is followed at once by one error box quoting the exception
    ("Could not open file:" or "Could not save file:", a newline, then
    [str(e)]), and every error box is such a report: no failure is
    swallowed and no error is shown without one. *)
Theorem failures_reported (c : config (W := W)) : reachable c -> reported (log c).
Proof.
  induction 1 as [e | c ev _ IH]; [apply reported_blocks, blocks_init |].
  unfold system_step. destruct (running c); [| done].
  pose proof (run_all_traces _ _ (world c) (blocks_dispatch ev (win c))) as Hr.
  destruct (run (dispatch ev (win c)) (world c)) as [[[o w1] e1] tr].
  by apply reported_app, reported_blocks.
Qed.
End Reports.

(** ** Witness *)

Module ReportsWitnesses.
Import QEditModel.

(** A failed open, then a save that fails after truncating. *)
Definition c_failures : config (W := qedit) :=
  run_events (init_config (mkEnv {["/tmp/a.txt" := "hello"]} ∅
                             {["/tmp/a.txt" := WPartial 3 ENOSPC]}
                             [UPath "/tmp/missing.txt"; UPath "/tmp/a.txt"]))
    [Trigger AOpen; Trigger AOpen; Typing "hello!"; Trigger ASave].

Lemma failures_reported_witness :
  reported (log c_failures) /\
  List.length (List.filter (fun ev => match error_box ev with Some _ => true | None => false end) (log c_failures)) = 2.
Proof.
  split; [apply failures_reported; apply reachable_run_events, reach_init | vm_compute; reflexivity].
Defined.
End ReportsWitnesses.
