(* ===== verification/WriteTargets.v ===== *)
(** * WriteTargets: the program writes only to files the user chose

    The only write of the program is [open(path, "w")] in [_save_to_path]
    (line 168). [path] is the [current_path] (line 155), or the answer of
    the Save As dialog (line 162). [current_path] is only ever set from a
    dialog's answer (lines 146, 170). This file proves the resulting
    safety property over the history of every reachable configuration:
    each write goes to [str(Path(q))] for a path [q] the user gave in an
    Open or Save As dialog earlier in the run ([writes_ok]).

    The handler specification [targets_spec] is a Hoare triple over the
    answered calls. Given a list [S] of the paths chosen so far, and
    assuming the window's path is one of them, the handler writes only to
    files in [S] or chosen during the handler, and leaves a path chosen
    in [S] or during the handler. *)

From S2P Require Import Prelude Paths Interaction TextSurface Environment Session Editor StatusBar.
Import Pathlib.
Open Scope editor_scope.

(** The answer of a file dialog. *)
Definition dialog_answer (ev : event) : option string :=
  match ev with
  | Ev c r =>
      match c as c0 return resp c0 -> option string with
      | GetOpenFileName _ _ _ | GetSaveFileName _ _ _ => fun r => Some r
      | _ => fun _ => None
      end r
  end.

Definition chosen (evs : list event) : list string := omap dialog_answer evs.

(** The file a call writes. *)
Definition write_target (ev : event) : option string :=
  match ev_call ev with WriteText p _ => Some p | _ => None end.

Definition target_ok (S : list string) (ev : event) : Prop :=
  match write_target ev with
  | Some p => exists q, q ∈ S /\ p = path_str (parse q)
  | None => True
  end.

(** Every write of [evs] goes to a file chosen before it: in [S], or by a
    dialog earlier in [evs]. *)
Fixpoint writes_ok (S : list string) (evs : list event) : Prop :=
  match evs with
  | [] => True
  | ev :: rest => target_ok S ev /\ writes_ok (app S (option_list (dialog_answer ev))) rest
  end.

(** The window's path is [Path(q)] for a chosen [q]. *)
Definition path_from {W} (S : list string) (w : window W) : Prop :=
  forall p, current_path w = Some p -> exists q, q ∈ S /\ p = parse q.

Lemma chosen_app (evs1 evs2 : list event) : chosen (app evs1 evs2) = app (chosen evs1) (chosen evs2).
Proof. apply omap_app. Qed.

Lemma chosen_cons (ev : event) (evs : list event) :
  chosen (ev :: evs) = app (option_list (dialog_answer ev)) (chosen evs).
Proof. unfold chosen. simpl. by destruct (dialog_answer ev). Qed.

Lemma writes_ok_app (S : list string) (evs1 evs2 : list event) :
  writes_ok S evs1 -> writes_ok (app S (chosen evs1)) evs2 -> writes_ok S (app evs1 evs2).
Proof.
  revert S. induction evs1 as [| ev evs1 IH]; intros S; simpl.
  - by rewrite app_nil_r.
  - intros [Ht Hw] H2. split; [done |]. apply IH; [done |].
    by rewrite <- app_assoc, <- chosen_cons.
Qed.

Lemma path_from_app {W} (S T : list string) (w : window W) : path_from S w -> path_from (app S T) w.
Proof.
  intros Hp p Hc. destruct (Hp p Hc) as (q & Hq & ->). exists q. split; [| done].
  apply elem_of_app. by left.
Qed.

Section Targets.
Context {W : Type} `{TextSurfaceLaws W}.
Implicit Types (w : window W).

Definition targets_post (S : list string) (evs : list event) (w1 : window W) : Prop :=
  writes_ok S evs /\ path_from (app S (chosen evs)) w1.

Definition targets_spec {A} (m : M (window W) A) : Prop :=
  forall S w, path_from S w -> all_traces (fun evs '((_, w1) : A * window W) => targets_post S evs w1) (m w).

Lemma targets_sbind {A B} (m : M (window W) A) (f : A -> M (window W) B) :
  targets_spec m -> (forall a, targets_spec (f a)) -> targets_spec (sbind m f).
Proof.
  intros Hm Hf S w Hw. apply all_traces_sbind. eapply all_traces_impl; [| by apply Hm].
  intros evs1 [a w1] [H1 Hp1]. eapply all_traces_impl; [| by apply Hf].
  intros evs2 [b w2] [H2 Hp2]. split; [by apply writes_ok_app |].
  by rewrite chosen_app, app_assoc.
Qed.

Lemma targets_ret {A} (a : A) : targets_spec (sret a).
Proof. intros S w Hw. split; [done |]. by rewrite app_nil_r. Qed.

(** A path chosen in [S] is a legitimate target. *)
Lemma targets_save_to_path (S : list string) (q : string) w :
  q ∈ S -> path_from S w ->
  all_traces (fun evs '((_, w1) : bool * window W) => targets_post S evs w1) (save_to_path (parse q) w).
Proof.
  intros Hq Hw. cbn. intros [[] | msg] []; unfold targets_post; cbn; rewrite ?app_nil_r;
    (split; [split_all; by exists q |]).
  - intros p [= <-]. by exists q.
  - done.
Qed.

(** A dialog's answer joins the chosen paths of what follows. *)
Lemma targets_after_dialog (S : list string) (c : call) (r : resp c) (evs : list event) w1 :
  write_target (Ev c r) = None ->
  targets_post (app S (option_list (dialog_answer (Ev c r)))) evs w1 ->
  targets_post S (Ev c r :: evs) w1.
Proof.
  unfold targets_post. intros Ht [Hw Hp]. split.
  - cbn [writes_ok]. unfold target_ok. by rewrite Ht.
  - by rewrite chosen_cons, app_assoc.
Qed.

Lemma targets_file_save_as : targets_spec file_save_as.
Proof.
  intros S w Hw. cbn -[save_to_path]. intros p.
  destruct (String.eqb p ""); cbn -[save_to_path].
  - split; [done |]. simpl. by apply path_from_app.
  - eapply all_traces_impl; [| apply (targets_save_to_path (app S [p]) p)].
    + intros evs [b w1] Hpost. by apply targets_after_dialog.
    + apply elem_of_app. right. by left.
    + by apply path_from_app.
Qed.

Lemma targets_after_call (S : list string) (c : call) (r : resp c) (evs : list event) w1 :
  write_target (Ev c r) = None -> dialog_answer (Ev c r) = None ->
  targets_post S evs w1 -> targets_post S (Ev c r :: evs) w1.
Proof.
  intros Ht Hd Hp. apply targets_after_dialog; [done |]. by rewrite Hd, app_nil_r.
Qed.

Lemma targets_file_save : targets_spec file_save.
Proof.
  intros S w Hw. destruct (current_path w) as [p|] eqn:Hc.
  - rewrite (file_save_some w p Hc). destruct (Hw p Hc) as (q & Hq & ->).
    by apply targets_save_to_path.
  - rewrite (file_save_none w Hc). by apply targets_file_save_as.
Qed.

Lemma targets_maybe_save : targets_spec maybe_save.
Proof.
  intros S w Hw. destruct (is_modified w) eqn:Hm.
  - rewrite (maybe_save_dirty w Hm). intros [| |]; cbn.
    + eapply all_traces_impl; [| by apply targets_file_save].
      intros evs [b w1] Hp. by apply targets_after_call.
    + split; [done |]. simpl. by apply path_from_app.
    + split; [done |]. simpl. by apply path_from_app.
  - rewrite (maybe_save_clean w Hm). exact (targets_ret true S w Hw).
Qed.

(** A window without a path satisfies [path_from] for any list. *)
Lemma path_from_none (S : list string) (w : window W) : current_path w = None -> path_from S w.
Proof. by intros Hc p; rewrite Hc. Qed.

Lemma targets_file_new : targets_spec file_new.
Proof.
  apply targets_sbind; [apply targets_maybe_save |]. intros [] S w Hw; cbn -[editor_clear];
    [| exact (targets_ret tt S w Hw)].
  rewrite (sbind_pure _ _ _ _ _ (editor_clear_eq w)). cbn. split; [done |]. by apply path_from_none.
Qed.

Lemma targets_file_open : targets_spec file_open.
Proof.
  apply targets_sbind; [apply targets_maybe_save |]. intros [] S w Hw; cbn -[editor_setPlainText];
    [| exact (targets_ret tt S w Hw)].
  intros p. destruct (String.eqb p ""); cbn -[editor_setPlainText].
  - split; [done |]. simpl. by apply path_from_app.
  - intros [text | msg]; cbn -[editor_setPlainText].
    + rewrite (sbind_pure _ _ _ _ _ (editor_setPlainText_eq w text)). cbn.
      split; [done |]. intros q' [= <-]. exists p. split; [| done].
      apply elem_of_app. right. by left.
    + split; [done |]. simpl. by apply path_from_app.
Qed.

Lemma targets_editor_edit (ed : edit) : targets_spec (editor_edit ed).
Proof.
  intros S w Hw. rewrite editor_edit_eq. cbn. split; [done |]. rewrite app_nil_r.
  destruct (apply_edit ed (editor w)) as [x []]; intros p Hp; apply Hw; [| done].
  by rewrite mark_modified_path in Hp.
Qed.

Lemma targets_dispatch (ev : ui_event) : targets_spec (dispatch ev).
Proof.
  assert (Ht : forall a, targets_spec (trigger a)).
  { intros a. destruct a; cbn [trigger];
      repeat first [ apply targets_file_new | apply targets_file_open | apply targets_file_save
                   | apply targets_file_save_as | apply targets_maybe_save | apply targets_editor_edit
                   | apply targets_ret | apply targets_sbind | intros ? ].
    all: cbn; split; [done | by rewrite app_nil_r]. }
  destruct ev as [a | k | t |]; cbn [dispatch]; [apply Ht | | |].
  - destruct (action_of_key k); [apply Ht | apply targets_ret].
  - apply targets_sbind; [apply targets_editor_edit | intros; apply targets_ret].
  - repeat first [apply targets_maybe_save | apply targets_ret | apply targets_sbind | intros ?].
Qed.

(** C36: in the history of every reachable configuration, every write goes
    to [str(Path(q))] for a path [q] the user gave earlier in an Open or
    Save As dialog, and the current path is [Path(q)] for such a [q]: the
    program never writes a file the user did not choose. *)
Theorem writes_only_chosen (c : config (W := W)) :
  reachable c -> writes_ok [] (log c) /\ path_from (chosen (log c)) (win c).
Proof.
  induction 1 as [e | c ev _ [Hw Hp]].
  - split; [cbn; split_all |]. by apply path_from_none.
  - unfold system_step. destruct (running c); [| done].
    pose proof (run_all_traces _ _ (world c) (targets_dispatch ev (chosen (log c)) (win c) Hp)) as Hr.
    destruct (run (dispatch ev (win c)) (world c)) as [[[o w1] e1] tr]. destruct Hr as [Hr1 Hr2].
    simpl. split; [by apply writes_ok_app | by rewrite chosen_app].
Qed.
End Targets.

(** ** Witness *)

Module TargetsWitnesses.
Import QEditModel.

(** Open /tmp/a.txt, edit, Save (to /tmp/a.txt), then Save As /tmp//b.txt:
    two writes, to files chosen in the dialogs. *)
Definition c_two_writes : config (W := qedit) :=
  run_events (init_config (mkEnv {["/tmp/a.txt" := "hello"]} ∅ ∅
                             [UPath "/tmp/a.txt"; UPath "/tmp//b.txt"]))
    [Trigger AOpen; Typing "hello!"; Trigger ASave; Trigger ASaveAs].

Lemma writes_only_chosen_witness :
  (writes_ok [] (log c_two_writes) /\ path_from (chosen (log c_two_writes)) (win c_two_writes)) /\
  omap write_target (log c_two_writes) = ["/tmp/a.txt"; "/tmp/b.txt"].
Proof.
  split; [apply writes_only_chosen; apply reachable_run_events, reach_init | vm_compute; reflexivity].
Defined.
End TargetsWitnesses.
