(* ===== verification/DirtyFlag.v ===== *)
(** * DirtyFlag: how [is_modified] changes, event by event

    The specification's data model (section 3) says that [is_modified] is
    false right after a successful load or save, and becomes true only
    through a text-change notification. Its first testable property
    (section 8) says that the flag stays true until the next successful
    save, open or new. The code sets the flag in [on_text_changed] (line
    198) and clears it in [file_new] (line 133), [file_open] (line 147)
    and [_save_to_path] (line 171). This file proves both directions for
    every user event, whatever the environment answers:
    - the flag goes from false to true only on an event that edits the
      text (typing, or Undo/Redo/Cut/Copy/Paste);
    - it goes from true to false only on New, or in a step whose calls
      include a successful write or read.

    [flag_rel] is a [rel_ok] relation (see [Interaction]) that holds of
    every handler except [file_new] and the edits, for which one half each
    is proved. *)

From S2P Require Import Prelude Paths Interaction TextSurface Environment Session Editor.
Import Pathlib.
Open Scope editor_scope.

(** The action an event triggers, if any. *)
Definition event_action (ev : ui_event) : option action :=
  match ev with
  | Trigger a => Some a
  | KeyPress k => action_of_key k
  | _ => None
  end.

Definition is_edit_action (a : action) : bool :=
  match a with AUndo | ARedo | ACut | ACopy | APaste => true | _ => false end.

(** Events that hand an edit to the text surface. *)
Definition edits_text (ev : ui_event) : bool :=
  match ev with
  | Typing _ => true
  | _ => match event_action ev with Some a => is_edit_action a | None => false end
  end.

(** A successful write or read. *)
Definition io_success (ev : event) : bool :=
  match ev with
  | Ev c r =>
      match c as c0 return resp c0 -> bool with
      | ReadText _ => fun r => match r with IOOk _ => true | IOErr _ => false end
      | WriteText _ _ => fun r => match r with IOOk _ => true | IOErr _ => false end
      | _ => fun _ => false
      end r
  end.

Definition succeeded (evs : list event) : Prop := Exists (fun ev => io_success ev = true) evs.

Section Flag.
Context {W : Type} `{TextSurfaceLaws W}.
Implicit Types (w : window W).

(** The flag is never set, and it is cleared only with a successful I/O
    call. *)
Definition flag_set_rel w (evs : list event) (w1 : window W) : Prop :=
  is_modified w1 = true -> is_modified w = true.
Definition flag_clear_rel w (evs : list event) (w1 : window W) : Prop :=
  is_modified w = true -> is_modified w1 = false -> succeeded evs.
Definition flag_rel w (evs : list event) (w1 : window W) : Prop :=
  flag_set_rel w evs w1 /\ flag_clear_rel w evs w1.

Lemma flag_rel_trans w1 w2 w3 (evs1 evs2 : list event) :
  flag_rel w1 evs1 w2 -> flag_rel w2 evs2 w3 -> flag_rel w1 (app evs1 evs2) w3.
Proof.
  unfold flag_rel, flag_set_rel, flag_clear_rel, succeeded.
  intros [S1 C1] [S2 C2]. split; [auto |]. intros Hm1 Hm3. apply Exists_app.
  destruct (is_modified w2) eqn:Hm2; [right; auto | left; auto].
Qed.

Lemma flag_rel_refl w : flag_rel w [] w.
Proof. unfold flag_rel, flag_set_rel, flag_clear_rel. split; intros; [done | congruence]. Qed.

Local Abbreviation flag_ok := (rel_ok flag_rel).

Lemma flag_sbind {A B} (m : M (window W) A) (f : A -> M (window W) B) :
  flag_ok m -> (forall a, flag_ok (f a)) -> flag_ok (sbind m f).
Proof. apply rel_ok_sbind, flag_rel_trans. Qed.

Lemma flag_ret {A} (a : A) : flag_ok (sret a).
Proof. apply rel_ok_ret, flag_rel_refl. Qed.

(** A call that is not a successful I/O call. *)
Lemma flag_rel_cons w w1 (c : call) (r : resp c) (evs : list event) :
  flag_rel w evs w1 -> flag_rel w (Ev c r :: evs) w1.
Proof.
  unfold flag_rel, flag_set_rel, flag_clear_rel, succeeded.
  intros [Hs Hc]. split; [done |]. intros Hm Hm1. apply Exists_cons_tl. by apply Hc.
Qed.

Lemma flag_save_to_path (p : path) : flag_ok (save_to_path p).
Proof.
  intros w. cbn. intros [[] | msg] []; unfold flag_rel, flag_set_rel, flag_clear_rel, succeeded; cbn;
    (split; [done |]); intros Hm Hm1.
  - by apply Exists_cons_hd.
  - congruence.
Qed.

Lemma flag_file_save_as : flag_ok file_save_as.
Proof.
  intros w. cbn -[save_to_path]. intros p. destruct (String.eqb p ""); cbn -[save_to_path].
  - apply flag_rel_cons, flag_rel_refl.
  - eapply all_traces_impl; [| apply flag_save_to_path]. intros evs [b w1]. apply flag_rel_cons.
Qed.

Lemma flag_file_save : flag_ok file_save.
Proof.
  intros w. destruct (current_path w) as [p|] eqn:Hc.
  - rewrite (file_save_some w p Hc). apply flag_save_to_path.
  - rewrite (file_save_none w Hc). apply flag_file_save_as.
Qed.

Lemma flag_maybe_save : flag_ok maybe_save.
Proof.
  intros w. destruct (is_modified w) eqn:Hm.
  - rewrite (maybe_save_dirty w Hm). intros [| |]; cbn.
    + eapply all_traces_impl; [| apply flag_file_save]. intros evs [b w1]. apply flag_rel_cons.
    + apply flag_rel_cons, flag_rel_refl.
    + apply flag_rel_cons, flag_rel_refl.
  - rewrite (maybe_save_clean w Hm). apply flag_rel_refl.
Qed.

Lemma flag_file_open : flag_ok file_open.
Proof.
  apply flag_sbind; [apply flag_maybe_save |]. intros [] w; cbn -[editor_setPlainText];
    [| apply flag_rel_refl].
  intros p. destruct (String.eqb p ""); cbn -[editor_setPlainText]; [apply flag_rel_cons, flag_rel_refl |].
  intros [text | msg]; cbn -[editor_setPlainText].
  - rewrite (sbind_pure _ _ _ _ _ (editor_setPlainText_eq w text)). cbn.
    unfold flag_rel, flag_set_rel, flag_clear_rel, succeeded. cbn.
    split; [done |]. intros _ _. apply Exists_cons_tl, Exists_cons_hd. done.
  - intros []. apply flag_rel_cons, flag_rel_cons, flag_rel_cons, flag_rel_refl.
Qed.

(** New never sets the flag (it may clear it after a Discard). *)
Lemma flag_file_new w : all_traces (fun evs '((_, w1) : unit * window W) => flag_set_rel w evs w1) (file_new w).
Proof.
  unfold file_new. apply all_traces_sbind. eapply all_traces_impl; [| apply flag_maybe_save].
  intros evs [[] w1] [Hs _]; cbn -[editor_clear].
  - rewrite (sbind_pure _ _ _ _ _ (editor_clear_eq w1)). cbn. intros _ r. done.
  - intros Hm. auto.
Qed.

(** An edit never clears the flag. *)
Lemma flag_editor_edit w (ed : edit) :
  all_traces (fun evs '((_, w1) : unit * window W) => flag_clear_rel w evs w1) (editor_edit ed w).
Proof.
  rewrite editor_edit_eq. cbn. intros Hm.
  destruct (apply_edit ed (editor w)) as [x []]; unfold mark_modified, with_editor; simpl;
    rewrite ?Hm; simpl; congruence.
Qed.

(** A handler whose slot value is dropped keeps a property of its
    final window and trace. *)
Lemma then_ret_traces {A B} (Q : list event -> window W -> Prop) (m : M (window W) A) (b : B) w :
  all_traces (fun evs '((_, w1) : A * window W) => Q evs w1) (m w) ->
  all_traces (fun evs '((_, w1) : B * window W) => Q evs w1) ((m ;;; sret b) w).
Proof.
  intros Hm. apply all_traces_sbind. eapply all_traces_impl; [| exact Hm].
  intros evs [a w1] Hq. cbn. by rewrite app_nil_r.
Qed.

Lemma flag_trigger (a : action) :
  a <> ANew -> is_edit_action a = false -> flag_ok (trigger a).
Proof.
  intros Hn He. destruct a; try done; cbn [trigger];
    repeat first [ apply flag_file_open | apply flag_file_save | apply flag_file_save_as
                 | apply flag_maybe_save | apply flag_ret | apply flag_sbind | intros ? ].
  all: cbn; apply flag_rel_cons, flag_rel_refl.
Qed.

Lemma edit_trigger_clear (a : action) w :
  is_edit_action a = true ->
  all_traces (fun evs '((_, w1) : bool * window W) => flag_clear_rel w evs w1) (trigger a w).
Proof. intros He. destruct a; try done; apply then_ret_traces, flag_editor_edit. Qed.

(** Both halves, for every event. *)
Lemma dispatch_flag (ev : ui_event) w :
  all_traces (fun evs '((_, w1) : bool * window W) =>
    (edits_text ev = false -> flag_set_rel w evs w1) /\
    (event_action ev <> Some ANew -> flag_clear_rel w evs w1)) (dispatch ev w).
Proof.
  assert (Ha : forall a, event_action ev = Some a -> dispatch ev w = trigger a w).
  { intros a. destruct ev as [a' | k | t |]; cbn; [by intros [= ->] | | done | done].
    intros ->. done. }
  destruct (event_action ev) as [a|] eqn:Hea.
  - rewrite (Ha a eq_refl).
    assert (He : edits_text ev = is_edit_action a) by (destruct ev; cbn in *; rewrite ?Hea; congruence).
    rewrite He. destruct (decide (a = ANew)) as [-> | Hn].
    + apply then_ret_traces. eapply all_traces_impl; [| apply flag_file_new].
      intros evs [x w1] Hs. split; [done |]. congruence.
    + destruct (is_edit_action a) eqn:Hed.
      * eapply all_traces_impl; [| by apply edit_trigger_clear]. intros evs [x w1] Hc. split; [done | auto].
      * eapply all_traces_impl; [| by apply flag_trigger]. intros evs [x w1] [Hs Hc]. split; auto.
  - destruct ev as [a' | k | t |]; cbn [event_action] in Hea; cbn [dispatch edits_text event_action];
      [done | | |].
    + rewrite Hea. cbn. unfold flag_set_rel, flag_clear_rel. split; intros; [done | congruence].
    + apply then_ret_traces. eapply all_traces_impl; [| apply flag_editor_edit].
      intros evs [x w1] Hc. split; [done | auto].
    + eapply all_traces_impl.
      2: { apply flag_sbind; [| intros; apply flag_ret].
           apply flag_sbind; [apply flag_maybe_save | intros; apply flag_ret]. }
      intros evs [x w1] [Hs Hc]. split; auto.
Qed.

(** C37: in one user event, whatever the environment answers, the
    modified flag goes from false to true only if the event edits the
    text, and from true to false only if the event is New or its calls
    include a successful write or read. *)
Theorem flag_transitions (ev : ui_event) w e :
  let '(_, w1, _, tr) := run (dispatch ev w) e in
  (is_modified w = false -> is_modified w1 = true -> edits_text ev = true) /\
  (is_modified w = true -> is_modified w1 = false -> event_action ev = Some ANew \/ succeeded tr).
Proof.
  pose proof (run_all_traces _ _ e (dispatch_flag ev w)) as Hr.
  destruct (run (dispatch ev w) e) as [[[o w1] e1] tr]. destruct Hr as [Hs Hc]. split.
  - intros Hm Hm1. destruct (edits_text ev) eqn:He; [done |]. specialize (Hs eq_refl Hm1). congruence.
  - intros Hm Hm1. destruct (decide (event_action ev = Some ANew)) as [Hn | Hn]; [by left | right].
    by apply Hc.
Qed.
End Flag.

(** ** Witness *)

Module FlagWitnesses.
Import QEditModel.

(** A modified document saved with Ctrl+S: the flag is cleared, and the
    step wrote the file. *)
Definition w_titled : window qedit :=
  mkWindow (Some (parse "/tmp/a.txt")) true "*SabrinaEdit - a.txt" (mkQEdit "draft" [""] [] "").

Lemma flag_transitions_witness :
  (let '(_, w1, _, tr) := run (dispatch (KeyPress "Ctrl+S") w_titled) (mkEnv ∅ ∅ ∅ []) in
   (is_modified w_titled = false -> is_modified w1 = true -> edits_text (KeyPress "Ctrl+S") = true) /\
   (is_modified w_titled = true -> is_modified w1 = false ->
      event_action (KeyPress "Ctrl+S") = Some ANew \/ succeeded tr)) /\
  is_modified (snd (fst (fst (run (dispatch (KeyPress "Ctrl+S") w_titled) (mkEnv ∅ ∅ ∅ []))))) = false.
Proof. split; [apply flag_transitions | vm_compute; reflexivity]. Defined.
End FlagWitnesses.
