(* ===== verification/Invariants.v ===== *)
(** * Invariants of the running editor

    Two invariants, each proved for every handler and then for every
    reachable configuration by rule induction on [reachable]:

    - [title_ok]: the window title is the title derived from the document
      state: "*" when modified, then [f"{APP_NAME} - {name}"] with
      "Untitled" for no path. The specification's design notes ask for a
      title computed from [(file name, is_modified)]; the code instead
      prepends "*" to the current title and guards that with
      [startswith]. The invariant shows the two agree in every reachable
      state, so no double marker can appear. It holds for every answer
      of the user and the file system ([hoare] over [all_leaves]).
    - [saved_ok]: a document the window calls clean is on disk. The file
      at its path, read back as [file_open] reads it, gives its text (or
      the text is empty when there is no path). This holds when writes
      either succeed or fail before truncating. [partial_write_loses_data]
      shows, for every clean titled document, how a write that fails
      after truncating breaks it. *)

From S2P Require Import Prelude Paths Interaction TextSurface Environment Session Editor.
Import Pathlib.
Open Scope editor_scope.

Section TitleInvariant.
Context {W : Type} `{TextSurfaceLaws W}.
Implicit Types (w : window W).

Definition display_name (p : option path) : string :=
  match p with None => "Untitled" | Some q => name q end.

(** The title as a function of the document state (spec, section 9). *)
Definition expected_title w : string :=
  (if is_modified w then "*" else "") ^ doc_title (display_name (current_path w)).

Definition title_ok w : Prop := title w = expected_title w.

Lemma doc_title_unmarked (n : string) : startswith "*" (doc_title n) = false.
Proof. reflexivity. Qed.

Lemma title_ok_mark w : title_ok w -> title_ok (mark_modified w).
Proof.
  unfold title_ok, expected_title, mark_modified. intros Ht.
  destruct (is_modified w) eqn:E; simpl; [by rewrite E |].
  rewrite Ht, ?E, str_app_nil_l. by rewrite doc_title_unmarked.
Qed.

Lemma title_ok_saved w (q : path) : title_ok (saved_window w q).
Proof. reflexivity. Qed.

Lemma title_ok_with_editor w (x : W) : title_ok w -> title_ok (with_editor w x).
Proof. done. Qed.

#[local] Hint Resolve title_ok_mark title_ok_saved title_ok_with_editor : editor.

Definition keeps_title {A} (m : M (window W) A) : Prop :=
  hoare title_ok m (fun _ => title_ok).

Lemma keeps_sbind {A B} (m : M (window W) A) (f : A -> M (window W) B) :
  keeps_title m -> (forall a, keeps_title (f a)) -> keeps_title (sbind m f).
Proof. intros Hm Hf. eapply hoare_bind; [exact Hm | exact Hf]. Qed.

Lemma keeps_ret {A} (a : A) : keeps_title (sret a).
Proof. by intros w Hw. Qed.

(** The guard's outcomes are the window itself or a saved window. *)
Lemma keeps_maybe_save : keeps_title maybe_save.
Proof.
  intros w Hw. eapply all_leaves_impl; [| apply maybe_save_outcome].
  intros [[] w1]; [intros [-> | [q ->]] | intros ->]; auto with editor.
Qed.

Lemma keeps_file_save : keeps_title file_save.
Proof.
  intros w Hw. eapply all_leaves_impl; [| apply file_save_leaves].
  intros [[] w1]; [intros [q ->] | intros ->]; auto with editor.
Qed.

Lemma keeps_file_save_as : keeps_title file_save_as.
Proof.
  intros w Hw. eapply all_leaves_impl; [| apply file_save_as_leaves].
  intros [[] w1]; [intros [q ->] | intros ->]; auto with editor.
Qed.

Lemma keeps_editor_edit (ed : edit) : keeps_title (editor_edit ed).
Proof.
  intros w Hw. rewrite editor_edit_eq. simpl.
  destruct (apply_edit ed (editor w)) as [x []]; auto with editor.
Qed.

Lemma keeps_file_new : keeps_title file_new.
Proof.
  apply keeps_sbind; [apply keeps_maybe_save |]. intros [] w Hw; [| done].
  rewrite (sbind_pure _ _ _ _ _ (editor_clear_eq w)). cbn. reflexivity.
Qed.

Lemma keeps_file_open : keeps_title file_open.
Proof.
  apply keeps_sbind; [apply keeps_maybe_save |]. intros [] w Hw; [| done].
  cbn. intros p. destruct (String.eqb p ""); cbn; [done |].
  intros [text | msg]; cbn -[editor_setPlainText]; [| done].
  rewrite (sbind_pure _ _ _ _ _ (editor_setPlainText_eq w text)). cbn. reflexivity.
Qed.

Lemma keeps_closeEvent : keeps_title closeEvent.
Proof. apply keeps_sbind; [apply keeps_maybe_save | intros; apply keeps_ret]. Qed.

Lemma keeps_show_about : keeps_title show_about.
Proof. intros w Hw. cbn. by intros []. Qed.

#[local] Hint Resolve keeps_sbind keeps_ret keeps_maybe_save keeps_file_save
  keeps_file_save_as keeps_editor_edit keeps_file_new keeps_file_open
  keeps_closeEvent keeps_show_about : editor.

Lemma keeps_trigger (a : action) : keeps_title (trigger a).
Proof. destruct a; simpl; auto with editor. Qed.

Lemma keeps_dispatch (ev : ui_event) : keeps_title (dispatch ev).
Proof.
  destruct ev as [a | k | t |]; simpl; auto using keeps_trigger with editor.
  destruct (action_of_key k); auto using keeps_trigger with editor.
Qed.
End TitleInvariant.

Section Reachable.
Context {W : Type} `{TextSurfaceLaws W}.

(** A property of windows that every handler keeps holds in every
    reachable configuration, provided the constructor establishes it. *)
Lemma reachable_window_inv (I : window W -> Prop) :
  I window_init -> (forall ev, hoare I (dispatch ev) (fun _ => I)) ->
  forall c, reachable c -> I (win c).
Proof.
  intros Hinit Hstep c Hc. induction Hc as [e | c ev Hc IH].
  - unfold init_config. by cbn.
  - unfold system_step. destruct (running c); [| done].
    pose proof (run_all_leaves (fun '((_, w') : bool * window W) => I w')
                  (dispatch ev (win c)) (world c) (Hstep ev (win c) IH)) as Hr.
    destruct (run (dispatch ev (win c)) (world c)) as [[[o w] e] tr]. exact Hr.
Qed.

(** C4: in every reachable state the title is the one derived from the
    document: "*" exactly when modified, then the application name and
    the file name ("Untitled" without a path). *)
Theorem title_invariant (c : config) : reachable c -> title_ok (win c).
Proof. apply reachable_window_inv; [reflexivity | apply keeps_dispatch]. Qed.

End Reachable.

Section SavedInvariant.
Context {W : Type} `{TextSurfaceLaws W}.
Implicit Types (w : window W) (e : env).

(** The document the window holds is on disk: the file at its path has
    the same text up to line endings, or there is no path and the text is
    empty. *)
Definition on_disk (p : option path) (t : string) e : Prop :=
  match p with
  | Some q => exists d, disk e !! path_str q = Some d /\ universal_newlines d = universal_newlines t
  | None => t = ""
  end.

Definition path_wf (p : option path) : Prop :=
  match p with Some q => wf_path q | None => True end.

(** The invariant: writes never truncate and then fail, the stored path
    is a parsed path, and a clean document is on disk. *)
Definition saved_ok w e : Prop :=
  no_partial_writes e /\ path_wf (current_path w) /\
  (is_modified w = false -> on_disk (current_path w) (text_of w) e).

Lemma saved_ok_env w e e' :
  disk e' = disk e -> write_faults e' = write_faults e -> saved_ok w e -> saved_ok w e'.
Proof.
  intros Hd Hf [Hn [Hp Hs]]. unfold saved_ok, no_partial_writes, on_disk in *.
  rewrite Hd, Hf. done.
Qed.

Lemma saved_ok_next_path w e : saved_ok w e -> saved_ok w (snd (next_path e)).
Proof.
  apply saved_ok_env; [apply next_path_disk |]. unfold next_path. by repeat case_match.
Qed.

Lemma saved_ok_next_button w e : saved_ok w e -> saved_ok w (snd (next_button e)).
Proof.
  apply saved_ok_env; [apply next_button_disk |]. unfold next_button. by repeat case_match.
Qed.

Lemma resolve_path_str (q : path) : wf_path q -> resolve (path_str q) = path_str q.
Proof. intros Hq. unfold resolve. by rewrite parse_path_str. Qed.

Lemma rh_save_to_path (q : path) : wf_path q -> rhoare saved_ok (save_to_path q).
Proof.
  intros Hq w e Hi. pose proof Hi as [Hn [Hp Hs]].
  destruct (write_text_cases (path_str q) (text_of w) e Hn) as [Hok | [msg Herr]].
  - rewrite (save_to_path_ok w e _ q Hok). cbv beta iota. unfold saved_ok. split_all.
    intros _. exists (text_of w). simpl. rewrite resolve_path_str by done.
    by rewrite lookup_insert_eq.
  - by rewrite (save_to_path_error w e e q msg Herr).
Qed.

Lemma rh_file_save_as : rhoare saved_ok file_save_as.
Proof.
  intros w e Hi. destruct (next_path e) as [p e1] eqn:Hp.
  pose proof (saved_ok_next_path w e Hi) as Hi1. rewrite Hp in Hi1; simpl in Hi1.
  destruct (String.eqb_spec p "") as [-> | Hne].
  - by rewrite (file_save_as_cancel w e e1 Hp).
  - rewrite (file_save_as_chosen w e e1 p Hp Hne).
    pose proof (rh_save_to_path (parse p) (parse_wf p) w e1 Hi1) as Hs.
    by destruct (run (save_to_path (parse p) w) e1) as [[[b w2] e2] tr].
Qed.

Lemma rh_file_save : rhoare saved_ok file_save.
Proof.
  intros w e Hi. destruct (current_path w) as [q|] eqn:Hc.
  - rewrite (file_save_some w q Hc). apply rh_save_to_path; [| done].
    destruct Hi as [_ [Hp _]]. by rewrite Hc in Hp.
  - rewrite (file_save_none w Hc). by apply rh_file_save_as.
Qed.

Lemma rh_maybe_save : rhoare saved_ok maybe_save.
Proof.
  intros w e Hi. destruct (is_modified w) eqn:Hm.
  - rewrite (run_proper _ _ (maybe_save_dirty w Hm) e e eq_refl). cbn -[file_save].
    pose proof (saved_ok_next_button w e Hi) as Hi1.
    destruct (next_button e) as [[| |] e1]; simpl in Hi1; [| done | done].
    pose proof (rh_file_save w e1 Hi1) as Hs.
    by destruct (run (file_save w) e1) as [[[b w2] e2] tr].
  - by rewrite (maybe_save_clean w Hm).
Qed.

Lemma rh_editor_edit (ed : edit) : rhoare saved_ok (editor_edit ed).
Proof.
  intros w e [Hn [Hp Hs]]. rewrite editor_edit_eq. simpl.
  destruct (apply_edit ed (editor w)) as [x emitted] eqn:Ee. unfold saved_ok.
  destruct emitted.
  - unfold mark_modified, with_editor; simpl. destruct (is_modified w); simpl; split_all.
  - split_all. intros Hm. unfold text_of, with_editor; simpl.
    pose proof (edit_silent ed (editor w)) as Hsil. rewrite Ee in Hsil; simpl in Hsil.
    rewrite Hsil by done. by apply Hs.
Qed.

Lemma rh_file_new : rhoare saved_ok file_new.
Proof.
  intros w e Hi. rewrite file_new_run. pose proof (rh_maybe_save w e Hi) as Hg.
  destruct (run (maybe_save w) e) as [[[[] w1] e1] tr]; [| done].
  destruct Hg as [Hn _]. cbv beta iota. unfold saved_ok. split_all.
  intros _. apply toPlainText_clear.
Qed.

Lemma rh_file_open : rhoare saved_ok file_open.
Proof.
  intros w e Hi. rewrite file_open_run. pose proof (rh_maybe_save w e Hi) as Hg.
  destruct (run (maybe_save w) e) as [[[[] w1] e1] tr]; [| done]. simpl.
  pose proof (saved_ok_next_path w1 e1 Hg) as Hg2.
  destruct (next_path e1) as [p e2]; simpl in Hg2.
  destruct (String.eqb p ""); [done |].
  destruct (read_text p e2) as [text | msg] eqn:Hr; [| done].
  destruct (read_text_ok_inv p text e2 Hr) as (c & Hc & ->).
  destruct Hg2 as [Hn _]. cbv beta iota. unfold saved_ok. split_all; [apply parse_wf |].
  intros _. exists c. unfold text_of; simpl. rewrite toPlainText_set.
  split; [exact Hc | by rewrite universal_newlines_idem].
Qed.

Lemma rh_closeEvent : rhoare saved_ok closeEvent.
Proof. intros w e Hi. rewrite closeEvent_is_guard. by apply rh_maybe_save. Qed.

Lemma rh_show_about : rhoare saved_ok show_about.
Proof. by intros w e Hi. Qed.

#[local] Hint Resolve rhoare_sbind rhoare_ret rh_file_save rh_file_save_as rh_editor_edit
  rh_file_new rh_file_open rh_closeEvent rh_show_about : editor.

Lemma rh_trigger (a : action) : rhoare saved_ok (trigger a).
Proof. destruct a; simpl; auto with editor. Qed.

Lemma rh_dispatch (ev : ui_event) : rhoare saved_ok (dispatch ev).
Proof.
  destruct ev as [a | k | t |]; simpl; auto using rh_trigger with editor.
  destruct (action_of_key k); auto using rh_trigger with editor.
Qed.

Lemma step_write_faults (c : config) (ev : ui_event) :
  write_faults (world (system_step c ev)) = write_faults (world c).
Proof.
  unfold system_step. destruct (running c); [| done].
  pose proof (run_faults (dispatch ev (win c)) (world c)) as [Hw _].
  by destruct (run (dispatch ev (win c)) (world c)) as [[[o w] e] tr].
Qed.

(** The data-safety invariant holds in every reachable configuration of
    an environment whose failing writes fail before truncating. *)
Lemma reachable_saved_ok (c : config) :
  reachable c -> no_partial_writes (world c) -> saved_ok (win c) (world c).
Proof.
  intros Hc. induction Hc as [e | c ev Hc IH]; intros Hn.
  - unfold init_config. cbn. unfold saved_ok. split_all. intros _. apply toPlainText_new.
  - assert (Hn0 : no_partial_writes (world c)).
    { unfold no_partial_writes in *. by rewrite <- (step_write_faults c ev). }
    specialize (IH Hn0). unfold system_step in *. destruct (running c); [| done].
    pose proof (rh_dispatch ev (win c) (world c) IH) as Hs.
    by destruct (run (dispatch ev (win c)) (world c)) as [[[o w] e] tr].
Qed.

(** C2: in an environment whose failing writes fail before truncating the
    file, every reachable clean document is on disk: the file at its path
    holds its text up to line endings, and an untitled clean document
    is empty. So a close or a New that asks nothing loses nothing. *)
Theorem clean_document_saved (c : config) :
  reachable c -> no_partial_writes (world c) -> saved_ok (win c) (world c).
Proof. apply reachable_saved_ok. Qed.

Lemma substring_0_length (n : nat) (s : string) :
  String.length (substring 0 n s) = Nat.min n (String.length s).
Proof. revert n. induction s as [|a s IH]; intros [|n]; cbn; auto. Qed.

(** C3: the exclusion in C2 is needed. A Save of a clean titled document
    whose write truncates the file and then fails (a full disk after [n]
    characters) leaves the window as it was, clean, while the file now
    holds a strict prefix of the text; closing the window then asks
    nothing and accepts, so the text is lost. The except branch of
    [_save_to_path] (lines 175-177) keeps [is_modified] false over the
    damaged file. (A modified document stays modified, and its close
    asks.) *)
Theorem partial_write_loses_data w e (p : path) (n : nat) (k : os_error) :
  is_modified w = false -> current_path w = Some p ->
  write_faults e !! resolve (path_str p) = Some (WPartial n k) -> (n < String.length (text_of w))%nat ->
  exists e1 msg,
    run (file_save w) e =
      ((false, w), e1,
       [Ev (WriteText (path_str p) (text_of w)) (IOErr msg);
        Ev (Critical "Error" ("Could not save file:" ^ NL ^ msg)) tt]) /\
    disk e1 !! resolve (path_str p) = Some (substring 0 n (text_of w)) /\
    substring 0 n (text_of w) <> text_of w /\
    run (closeEvent w) e1 = ((true, w), e1, []).
Proof.
  intros Hm Hc Hf Hn.
  exists (with_disk (<[resolve (path_str p) := substring 0 n (text_of w)]> (disk e)) e), (os_error_msg k None).
  split_all.
  - rewrite (file_save_some w p Hc). apply save_to_path_error. unfold write_text. by rewrite Hf.
  - cbn. by rewrite lookup_insert_eq.
  - intros Heq. apply (f_equal String.length) in Heq. rewrite substring_0_length in Heq. lia.
  - rewrite closeEvent_is_guard. by rewrite maybe_save_clean.
Qed.
End SavedInvariant.

(** ** Witnesses *)

Module InvariantWitnesses.
Import QEditModel.

Definition e0 : env := mkEnv ∅ ∅ ∅ [UPath "/tmp/a.txt"].
(** Type, then Save As: a reachable, clean, titled configuration. *)
Definition c_saved : config (W := qedit) :=
  system_step (system_step (init_config e0) (Typing "hello")) (Trigger ASaveAs).
Definition c_typed : config (W := qedit) := system_step (init_config e0) (Typing "hello").

Lemma reachable_c_saved : reachable c_saved.
Proof. apply reach_step, reach_step, reach_init. Defined.

Lemma clean_document_saved_witness :
  is_modified (win c_saved) = false /\ saved_ok (win c_saved) (world c_saved).
Proof.
  split; [reflexivity |]. apply clean_document_saved; [exact reachable_c_saved |].
  intros k n msg Hk. vm_compute in Hk. discriminate.
Defined.

(** "hello world" saved to a disk that is full after 3 characters. *)
Definition w_clean_titled : window qedit :=
  mkWindow (Some (parse "/tmp/a.txt")) false "SabrinaEdit - a.txt" (mkQEdit "hello world" [] [] "").
Definition e_full : env :=
  mkEnv {["/tmp/a.txt" := "hello world"]} ∅ {["/tmp/a.txt" := WPartial 3 ENOSPC]} [].

Lemma partial_write_loses_data_witness :
  exists e1 msg,
    run (file_save w_clean_titled) e_full =
      ((false, w_clean_titled), e1,
       [Ev (WriteText (path_str (parse "/tmp/a.txt")) (text_of w_clean_titled)) (IOErr msg);
        Ev (Critical "Error" ("Could not save file:" ^ NL ^ msg)) tt]) /\
    disk e1 !! resolve (path_str (parse "/tmp/a.txt")) = Some (substring 0 3 (text_of w_clean_titled)) /\
    substring 0 3 (text_of w_clean_titled) <> text_of w_clean_titled /\
    run (closeEvent w_clean_titled) e1 = ((true, w_clean_titled), e1, []).
Proof. apply (partial_write_loses_data _ _ (parse "/tmp/a.txt") 3 ENOSPC); [reflexivity | reflexivity | reflexivity | vm_compute; lia]. Defined.

Lemma title_invariant_witness : title_ok (win c_typed).
Proof. apply title_invariant. apply reach_step, reach_init. Defined.

End InvariantWitnesses.
