(* ===== verification/MainLoop.v ===== *)
(** * MainLoop: [main()] with the window's frame

    [main()] (lines 217-221) builds the window ([__init__], whose frame is
    [Decoration.main_frame] and whose session is [Editor.init_config]),
    shows it, and runs [app.exec()]. Each user event goes to the session
    ([Editor.system_step]). When a close is accepted the window hides;
    it is the application's only window, so [QApplication] (which quits
    when the last window closes) leaves [exec()] with 0, and
    [sys.exit] ends the process with that status. [process] pairs the
    frame with the configuration of the session.

    The theorem is the program's promise on exit ("Confirm on close",
    line 4): the process ends only with the text saved or discarded by
    the user's answer. It rests on the guard [maybe_save] (lines
    180-194) and on the data-safety invariant of [Invariants]. *)

From S2P Require Import Prelude Paths Interaction TextSurface Environment Session Editor Decoration Invariants.
From Stdlib Require Import ZArith.

Section MainLoop.
Context {W : Type} `{TextSurfaceLaws W}.
Variable is_image : string -> bool.

Lemma running_init (e : env) : running (init_config (W := W) e) = true.
Proof. reflexivity. Qed.

Record process := mkProcess {
  frame_of : frame;
  conf : config (W := W)
}.

(** [window = MainWindow(); window.show()] in the working directory
    [cwd]. *)
Definition main_process (cwd : string) (e : env) : process :=
  mkProcess (main_frame is_image cwd e) (init_config e).

(** One event of [app.exec()]: the session handles it, and the window
    hides when the close was accepted. *)
Definition process_step (p : process) (ev : ui_event) : process :=
  let c := system_step (conf p) ev in
  mkProcess (if running c then frame_of p else hide (frame_of p)) c.

(** [sys.exit(app.exec())]: the status once the event loop has
    returned. *)
Definition exit_status (p : process) : option Z :=
  if running (conf p) then None else Some 0%Z.

Inductive proc_reachable : process -> Prop :=
  | proc_init cwd e : proc_reachable (main_process cwd e)
  | proc_step p ev : proc_reachable p -> proc_reachable (process_step p ev).

Lemma system_step_stopped (c : config (W := W)) (ev : ui_event) :
  running c = false -> system_step c ev = c.
Proof. unfold system_step. by intros ->. Qed.

Lemma proc_reachable_conf (p : process) : proc_reachable p -> reachable (conf p).
Proof. induction 1; [apply reach_init | by apply reach_step]. Qed.

(** How a handler may end the event loop: only with a clean document,
    or right after the question answered No (Discard). *)
Definition stops_ok (tr : list event) (r : bool * window W) : Prop :=
  fst r = false -> is_modified (snd r) = false \/ last tr = Some (Ev q_unsaved No).

Lemma all_traces_true {A} (p : prog A) : all_traces (fun _ _ => True) p.
Proof. induction p; cbn; auto. Qed.

(** A handler followed by [sret true] keeps the loop running. *)
Lemma stops_then_true {A} (m : M (window W) A) (w : window W) :
  all_traces stops_ok ((m ;;; sret true) w).
Proof.
  apply all_traces_sbind. eapply all_traces_impl; [| apply all_traces_true].
  intros tr [a w1] _. cbn. unfold stops_ok. cbn. done.
Qed.

(** The guard proceeds only with a clean document (clean already, or
    saved) or after Discard. *)
Lemma maybe_save_stops (w : window W) :
  all_traces (fun tr '((ok, w1) : bool * window W) =>
    ok = true -> is_modified w1 = false \/ last tr = Some (Ev q_unsaved No)) (maybe_save w).
Proof.
  destruct (is_modified w) eqn:Hm; [| rewrite (maybe_save_clean w Hm); cbn; by left].
  rewrite (maybe_save_dirty w Hm). cbn. intros [| |]; cbn; [| by right | done].
  pose proof (proj1 (all_leaves_traces _ _) (file_save_leaves w)) as Hs.
  eapply all_traces_impl; [| exact Hs]. intros tr [[] w1]; [| done].
  intros [q ->] _. by left.
Qed.

Lemma close_stops (w : window W) :
  all_traces stops_ok ((let* acc := closeEvent in sret (negb acc)) w).
Proof.
  apply all_traces_sbind. unfold closeEvent. apply all_traces_sbind.
  eapply all_traces_impl; [| apply maybe_save_stops]. intros tr [ok w1] Hok. cbn.
  rewrite !app_nil_r. unfold stops_ok. cbn. intros Hn. apply Hok. by destruct ok.
Qed.

Lemma dispatch_stops (ev : ui_event) (w : window W) : all_traces stops_ok (dispatch ev w).
Proof.
  assert (Ht : forall a, all_traces stops_ok (trigger a w)).
  { intros []; cbn [trigger]; first [apply close_stops | apply stops_then_true]. }
  destruct ev as [a | k | t |]; cbn [dispatch]; [apply Ht | | apply stops_then_true | apply close_stops].
  destruct (action_of_key k); [apply Ht | cbn; unfold stops_ok; done].
Qed.

Lemma last_app_some {A} (l tr : list A) (x : A) : last tr = Some x -> last (app l tr) = Some x.
Proof.
  intros Hx. induction l as [|y l IH]; [done |]. cbn.
  destruct (app l tr) eqn:E; [| done]. apply app_nil in E as [_ ->]. done.
Qed.

(** Once the loop has stopped, the document was clean or discarded by
    the user's last answer. *)
Lemma stopped_clean_or_discarded (c : config (W := W)) :
  reachable c -> running c = false ->
  is_modified (win c) = false \/ last (log c) = Some (Ev q_unsaved No).
Proof.
  induction 1 as [e | c ev Hc IH]; [by rewrite running_init |].
  unfold system_step. destruct (running c) eqn:Hr; [| intros _; by apply IH].
  pose proof (run_all_traces _ _ (world c) (dispatch_stops ev (win c))) as Hs.
  destruct (run (dispatch ev (win c)) (world c)) as [[[o w1] e1] tr]. cbn. intros ->.
  destruct (Hs eq_refl) as [Hm | Hl]; [by left | right]. by apply last_app_some.
Qed.

(** C14: when [sys.exit(app.exec())] ends the process with status 0, in
    an environment whose failing writes fail before truncating, nothing
    the user typed is lost without consent: the text is on disk at the
    document's path (up to line endings; empty for an untitled document),
    or the last thing the user did was to answer the unsaved-changes
    question with No (Discard). *)
Theorem exit_saved_or_discarded (p : process) :
  proc_reachable p -> no_partial_writes (world (conf p)) -> exit_status p = Some 0%Z ->
  on_disk (current_path (win (conf p))) (text_of (win (conf p))) (world (conf p)) \/
  last (log (conf p)) = Some (Ev q_unsaved No).
Proof.
  intros Hp Hn Hx. apply proc_reachable_conf in Hp. unfold exit_status in Hx.
  destruct (running (conf p)) eqn:Hr; [done |].
  destruct (stopped_clean_or_discarded _ Hp Hr) as [Hm | Hl]; [left | by right].
  destruct (reachable_saved_ok _ Hp Hn) as (_ & _ & Hs). by apply Hs.
Qed.
End MainLoop.

(** ** Witness *)

Module MainLoopWitnesses.
Import QEditModel.

(** Start in /home/u, type, Exit answered Yes, Save As /tmp/a.txt: the
    process ends with the text on disk. *)
Definition p_saved : process (W := qedit) :=
  process_step (process_step (main_process (fun _ => true) "/home/u"
                                (mkEnv ∅ ∅ ∅ [UButton Yes; UPath "/tmp/a.txt"]))
                  (Typing "x")) (Trigger AExit).

Lemma exit_saved_or_discarded_witness :
  (on_disk (current_path (win (conf p_saved))) (text_of (win (conf p_saved))) (world (conf p_saved)) \/
   last (log (conf p_saved)) = Some (Ev q_unsaved No)) /\
  disk (world (conf p_saved)) !! "/tmp/a.txt" = Some "x".
Proof.
  split; [| reflexivity].
  apply (exit_saved_or_discarded (fun _ => true)); [apply proc_step, proc_step, proc_init | | reflexivity].
  intros q n k Hk. vm_compute in Hk. discriminate.
Defined.
End MainLoopWitnesses.
