(* ===== verification/UndoHistory.v ===== *)
(** * UndoHistory: the Edit menu's Undo and Redo against the session

    The Edit menu forwards [undo] and [redo] to the widget (lines 68-72),
    and the widget answers with [textChanged] (line 32) like for any
    other change. This file composes the session with the undo laws of
    [TextSurface.UndoHistory]:
    - the flag is set by the change notification, not by a difference
      with the file: typing and undoing it gives the text back, but the
      document stays modified, with its "*" (the specification's glossary
      defines "dirty" as a difference from the saved state);
    - Open and New replace the text with [setPlainText] and [clear],
      which empty the history: an Undo right after them changes nothing,
      so the text of the previous document cannot come back into the
      newly opened one and be saved under its name. *)

From S2P Require Import Prelude Utf8 Paths Interaction TextSurface Environment Session Editor Invariants.
Import Pathlib.
Open Scope editor_scope.

Section Undo.
Context {W : Type} `{TextSurfaceLaws W} `{!UndoHistory W}.
Implicit Types (w : window W) (c : config (W := W)).

(** The window after [editor_edit ed]: the widget changes, and the slot
    runs when it emits [textChanged] (the right side of
    [Session.editor_edit_eq]). *)
Definition edited w (ed : edit) : window W :=
  let '(x, emitted) := apply_edit ed (editor w) in
  if emitted then mark_modified (with_editor w x) else with_editor w x.

(** The events that go to the widget only: typing and the Edit menu. *)
Definition edit_event (ed : edit) : ui_event :=
  match ed with
  | EInput t => Typing t
  | EUndo => Trigger AUndo
  | ERedo => Trigger ARedo
  | ECut => Trigger ACut
  | ECopy => Trigger ACopy
  | EPaste => Trigger APaste
  end.

Lemma dispatch_edit_event w (ed : edit) :
  dispatch (edit_event ed) w = Ret (true, edited w ed).
Proof.
  assert (Hs : (editor_edit ed ;;; sret true) w = Ret (true, edited w ed)).
  { rewrite (sbind_pure _ _ w tt (edited w ed)); [done |]. rewrite editor_edit_eq. unfold edited.
    by destruct (apply_edit ed (editor w)). }
  by destruct ed.
Qed.

(** An edit event of a running application changes the window only: no
    call is made and the application keeps running. *)
Lemma step_edit c (ed : edit) :
  running c = true ->
  system_step c (edit_event ed) = mkConfig (edited (win c) ed) (world c) true (log c).
Proof.
  intros Hr. unfold system_step. rewrite Hr, dispatch_edit_event. cbn. by rewrite app_nil_r.
Qed.

Lemma with_editor_self w : with_editor w (editor w) = w.
Proof. by destruct w. Qed.

(** An edit that changes the text emits [textChanged]. *)
Lemma input_emits (x : W) (t : string) :
  t <> toPlainText x -> snd (apply_edit (EInput t) x) = true.
Proof.
  intros Hne. destruct (snd (apply_edit (EInput t) x)) eqn:E; [done |].
  apply edit_silent in E. rewrite input_text in E. congruence.
Qed.

(** The slot on a clean window whose title has no marker, and on a
    modified one. *)
Lemma mark_clean w (x : W) :
  is_modified w = false -> startswith "*" (title w) = false ->
  mark_modified (with_editor w x) = mkWindow (current_path w) true ("*" ^ title w) x.
Proof. intros Hm Hs. unfold mark_modified, with_editor. cbn [is_modified title current_path]. by rewrite Hm, Hs. Qed.

Lemma mark_dirty w : is_modified w = true -> mark_modified w = w.
Proof. unfold mark_modified. by intros ->. Qed.

(** Undo and Redo right after [setPlainText] or [clear] leave the window
    as it is. *)
Lemma edited_history w (ed : edit) :
  ed = EUndo \/ ed = ERedo ->
  (exists t y, editor w = setPlainText t y) \/ (exists y, editor w = clear y) ->
  edited w ed = w.
Proof.
  intros Hed [(t & y & He) | (y & He)]; unfold edited; rewrite He;
    [rewrite history_set | rewrite history_clear]; by rewrite <- ?He, ?with_editor_self.
Qed.

(** C18: from a clean document of the running application, typing a
    different text and undoing it gives the text back, yet the document
    stays modified and its title keeps the "*": the flag records edits,
    not a difference from the saved text. No call is made, and the next
    New, Open or close asks the question. *)
Theorem undo_keeps_modified c (t : string) :
  reachable c -> running c = true -> is_modified (win c) = false -> t <> text_of (win c) ->
  let c' := run_events c [Typing t; Trigger AUndo] in
  text_of (win c') = text_of (win c) /\ is_modified (win c') = true /\
  title (win c') = "*" ^ title (win c) /\ current_path (win c') = current_path (win c) /\
  running c' = true /\ world c' = world c /\ log c' = log c.
Proof.
  intros Hc Hr Hm Hne. cbn [run_events].
  change (Typing t) with (edit_event (EInput t)). change (Trigger AUndo) with (edit_event EUndo).
  rewrite (step_edit c (EInput t) Hr), (step_edit (mkConfig _ _ true _) EUndo eq_refl). cbn [win world log running].
  pose proof (reachable_window_inv title_ok eq_refl keeps_dispatch c Hc) as Ht.
  assert (Hs : startswith "*" (title (win c)) = false).
  { rewrite Ht. unfold expected_title. rewrite Hm, str_app_nil_l. apply doc_title_unmarked. }
  pose proof (input_emits (editor (win c)) t Hne) as He.
  destruct (input_undo t (editor (win c)) Hne) as [Hu Hut].
  unfold edited. destruct (apply_edit (EInput t) (editor (win c))) as [x1 b1]. cbn in He, Hu, Hut. subst b1.
  rewrite mark_clean by done. cbn [editor].
  destruct (apply_edit EUndo x1) as [x2 b2]. cbn in Hu, Hut. subst b2. rewrite mark_dirty by done.
  by split_all.
Qed.

(** C19: opening a file empties the undo history. After a successful
    Open of a clean document, Undo and Redo change nothing: the text of
    the previous document cannot come back into the opened one, and the
    document stays clean. The same holds after New. *)
Theorem open_clears_history w e e1 (p c : string) (ed : edit) :
  ed = EUndo \/ ed = ERedo -> is_modified w = false -> next_path e = (p, e1) -> p <> "" ->
  read_faults e1 !! resolve p = None -> disk e1 !! resolve p = Some c -> utf8_valid c = true ->
  (exists w1 tr, run (file_open w) e = ((tt, w1), e1, tr) /\ is_modified w1 = false /\
     dispatch (edit_event ed) w1 = Ret (true, w1)) /\
  (forall w0, dispatch (edit_event ed) (new_window w0) = Ret (true, new_window w0)).
Proof.
  intros Hed Hm Hp Hne Hf Hd Hv. split.
  - rewrite file_open_run, maybe_save_clean by done. cbn. rewrite Hp.
    apply String.eqb_neq in Hne. rewrite Hne, (read_text_ok p c e1 Hf Hd Hv).
    eexists _, _. split; [reflexivity |]. split; [done |].
    rewrite dispatch_edit_event, edited_history; [done | done | left; by eexists _, _].
  - intros w0. rewrite dispatch_edit_event, edited_history; [done | done | right; by eexists].
Qed.
End Undo.

(** ** Witnesses *)

Module UndoWitnesses.
Import QEditModel.

Definition e_hello : env := mkEnv {["/tmp/a.txt" := "hello"]} ∅ ∅ [UPath "/tmp/a.txt"].
(** /tmp/a.txt ("hello") opened. *)
Definition c_opened : config (W := qedit) := system_step (init_config e_hello) (Trigger AOpen).

(** Make it "hello!" and undo: the text is the file's again, yet the
    document is modified. *)
Lemma undo_keeps_modified_witness :
  (let c' := run_events c_opened [Typing "hello!"; Trigger AUndo] in
   text_of (win c') = text_of (win c_opened) /\ is_modified (win c') = true /\
   title (win c') = "*" ^ title (win c_opened) /\ current_path (win c') = current_path (win c_opened) /\
   running c' = true /\ world c' = world c_opened /\ log c' = log c_opened) /\
  text_of (win c_opened) = "hello" /\ disk (world c_opened) !! "/tmp/a.txt" = Some "hello".
Proof.
  split; [| split; reflexivity].
  apply undo_keeps_modified; [apply reach_step, reach_init | reflexivity | reflexivity |].
  vm_compute. congruence.
Defined.

(** Open /tmp/a.txt from the initial window, then Undo. *)
Lemma open_clears_history_witness :
  ((exists w1 tr, run (file_open window_init) e_hello = ((tt, w1), mkEnv {["/tmp/a.txt" := "hello"]} ∅ ∅ [], tr) /\
     is_modified w1 = false /\ dispatch (edit_event EUndo) w1 = Ret (true, w1)) /\
   (forall w0 : window qedit, dispatch (edit_event EUndo) (new_window w0) = Ret (true, new_window w0))).
Proof.
  apply (open_clears_history window_init e_hello _ "/tmp/a.txt" "hello" EUndo);
    [by left | reflexivity | reflexivity | done | reflexivity | reflexivity | reflexivity].
Defined.
End UndoWitnesses.
