(* ===== verification/Scenarios.v ===== *)
(** * Scenarios: the specification's examples, and what modelling found

    Runs of the whole application ([run_events] from [init_config]) with
    the concrete widget [QEditModel], evaluated by [vm_compute]:
    - the specification's scenarios (section 8): type, Save As, reopen,
      and close with Discard;
    - a write that fails after [open(path, "w")] has truncated the file
      leaves a clean window over a damaged file, and the next close asks
      nothing;
    - opening a file with "\r\n" line endings and saving it without an
      edit rewrites its line endings;
    - the flag means "edited since the last save", not "differs from the
      file": editing back to the saved text leaves it set;
    - a file that is not UTF-8 (Latin-1 "café") does not open, and the
      error box quotes CPython's [UnicodeDecodeError]; a directory does
      not open either, and the box quotes [IsADirectoryError]. *)

From S2P Require Import Prelude Utf8 Paths Interaction TextSurface Environment Session Editor.
Import Pathlib QEditModel.

Definition app_run (e : env) (evs : list ui_event) : config (W := qedit) :=
  run_events (init_config e) evs.

(** Whether a trace contains a call. *)
Definition asked (tr : list event) : bool :=
  existsb (fun ev => match ev_call ev with Question _ _ => true | _ => false end) tr.
Definition wrote (tr : list event) : bool :=
  existsb (fun ev => match ev_call ev with WriteText _ _ => true | _ => false end) tr.

(** The environments of the scenarios. *)
Definition env_save_as : env := mkEnv ∅ ∅ ∅ [UPath "/tmp/a.txt"].
Definition env_hello : env :=
  mkEnv {["/tmp/a.txt" := "hello"]} ∅ ∅ [UPath "/tmp/a.txt"; UPath "/tmp/a.txt"].
Definition env_full_disk : env :=
  mkEnv {["/tmp/a.txt" := "hello world"]} ∅ {["/tmp/a.txt" := WPartial 3 ENOSPC]}
    [UPath "/tmp/a.txt"].
(** "café" saved as Latin-1 by another program: the "é" is the byte
    0xE9, a UTF-8 lead byte with nothing after it. *)
Definition env_latin1 : env :=
  mkEnv {["/tmp/l.txt" := "caf" ^ chr (byte_of 0xE9%Z)]} ∅ ∅ [UPath "/tmp/l.txt"].
Definition env_crlf : env :=
  mkEnv {["/tmp/d.txt" := "a" ^ CRLF ^ "b"]} ∅ ∅ [UPath "/tmp/d.txt"].

(** ** The specification's scenarios *)

(** Start clean and untitled, type "hello": the flag is set and the
    title shows the marker; Save As /tmp/a.txt: the file holds "hello",
    the flag is clear and the path is /tmp/a.txt. *)
Theorem scenario_type_save_as :
  let c1 := app_run env_save_as [Typing "hello"] in
  let c2 := system_step c1 (Trigger ASaveAs) in
  is_modified (win c1) = true /\ title (win c1) = "*SabrinaEdit - Untitled" /\
  disk (world c2) !! "/tmp/a.txt" = Some "hello" /\ is_modified (win c2) = false /\
  option_map path_str (current_path (win c2)) = Some "/tmp/a.txt".
Proof. vm_compute. repeat split. Qed.

(** Open /tmp/a.txt ("hello"), make it "hello world", Save: the file
    holds "hello world", and opening it again gives a clean window with
    that text. *)
Theorem scenario_open_edit_save_reopen :
  let c := app_run env_hello [Trigger AOpen; Typing "hello world"; Trigger ASave; Trigger AOpen] in
  disk (world c) !! "/tmp/a.txt" = Some "hello world" /\
  is_modified (win c) = false /\ q_text (editor (win c)) = "hello world" /\
  asked (log c) = false.
Proof. vm_compute. repeat split. Qed.

(** A modified window, closed with Discard, closes after one question
    and writes nothing (the general statement is [Session.close_discard]). *)
Theorem scenario_close_discard :
  let c := app_run (mkEnv ∅ ∅ ∅ [UButton No]) [Typing "draft"; CloseButton] in
  running c = false /\ asked (log c) = true /\ wrote (log c) = false.
Proof. vm_compute. repeat split. Qed.

(** ** Findings *)

(** A save that fails after truncating the file (here: disk full after
    3 characters) leaves the window clean while the file holds "hel"; Exit
    then closes the window without asking, and "hello world" is lost (the
    general statement is [Invariants.partial_write_loses_data]). *)
Theorem scenario_partial_write :
  let c := app_run env_full_disk [Trigger AOpen; Trigger ASave] in
  let c' := system_step c (Trigger AExit) in
  is_modified (win c) = false /\ q_text (editor (win c)) = "hello world" /\
  disk (world c) !! "/tmp/a.txt" = Some "hel" /\
  running c' = false /\ asked (log c') = false.
Proof. vm_compute. repeat split. Qed.

(** A file with "\r\n" line endings opens as a clean document whose text
    has "\n"; saving it without any edit rewrites the file with "\n" (the
    general statement is [Roundtrip.open_save_rewrites_crlf]). *)
Theorem scenario_crlf :
  let c := app_run env_crlf [Trigger AOpen] in
  let c' := system_step c (KeyPress "Ctrl+S") in
  is_modified (win c) = false /\ q_text (editor (win c)) = "a" ^ NL ^ "b" /\
  disk (world c) !! "/tmp/d.txt" = Some ("a" ^ CRLF ^ "b") /\
  disk (world c') !! "/tmp/d.txt" = Some ("a" ^ NL ^ "b").
Proof. vm_compute. repeat split. Qed.

(** A Latin-1 file does not open: the error box quotes CPython's
    [UnicodeDecodeError], and the window keeps its untitled, clean
    document. *)
Theorem latin1_file_rejected :
  let c := app_run env_latin1 [Trigger AOpen] in
  current_path (win c) = None /\ is_modified (win c) = false /\
  existsb (fun ev => match ev_call ev with
                     | Critical _ m =>
                         String.eqb m ("Could not open file:" ^ NL ^
                           "'utf-8' codec can't decode byte 0xe9 in position 3: unexpected end of data")
                     | _ => false
                     end) (log c) = true.
Proof. vm_compute. repeat split. Qed.

(** Opening a directory: [open] raises [IsADirectoryError], and the
    error box quotes it with the name the dialog returned. *)
Theorem directory_not_opened :
  let c := app_run (mkEnv ∅ {["/tmp" := ROpen EISDIR]} ∅ [UPath "/tmp/"]) [Trigger AOpen] in
  current_path (win c) = None /\
  existsb (fun ev => match ev_call ev with
                     | Critical _ m =>
                         String.eqb m ("Could not open file:" ^ NL ^ "[Errno 21] Is a directory: '/tmp/'")
                     | _ => false
                     end) (log c) = true.
Proof. vm_compute. repeat split. Qed.

(** Editing the text and editing it back to the saved contents leaves
    the document modified: the flag records edits since the last save, not
    a difference from the file (with Undo for any widget:
    [UndoHistory.undo_keeps_modified]). *)
Theorem modified_without_difference :
  let c := app_run env_hello [Trigger AOpen; Typing "hello!"; Typing "hello"] in
  is_modified (win c) = true /\ disk (world c) !! "/tmp/a.txt" = Some (q_text (editor (win c))).
Proof. vm_compute. repeat split. Qed.
