(* ===== verification/Refinement.v ===== *)
(** * Refinement: the document session of the specification

    The specification (section 4.1) describes a session by its path, its
    Clean/Dirty flag and its text, and gives a transition system. The
    maybe-save guard proceeds or aborts. "Save" writes to the current path
    or delegates to "Save As". New and Open replace the document after a
    guard that proceeds. An edit makes the session Dirty. A close runs the
    guard. [Spec] states this machine as inductive relations. It is
    nondeterministic in everything the environment decides: the user's
    answers, the chosen paths, the contents read, failures.

    [dispatch_refines] shows that every user event handled by the code,
    with every answer of the environment, is a transition of the machine,
    under the abstraction [abs] that forgets the title and the widget's
    internals. It is proved per handler on [all_leaves], so it holds for
    all answers at once. *)

From S2P Require Import Prelude Paths Interaction TextSurface Environment Session Editor.
Import Pathlib.
Open Scope editor_scope.

Module Spec.

Record astate := mkA { apath : option path; adirty : bool; atext : string }.

Definition a_saved (s : astate) (p : path) : astate := mkA (Some p) false (atext s).

(** "Save document": to the current path if there is one, else to the
    path chosen in Save As. [true] when it succeeds. *)
Inductive save_step : astate -> astate -> bool -> Prop :=
  | save_ok s p : (apath s = None \/ apath s = Some p) -> save_step s (a_saved s p) true
  | save_fail s : save_step s s false.

(** "Save As": any chosen path; cancel and failure both leave the
    session as it was. *)
Inductive save_as_step : astate -> astate -> bool -> Prop :=
  | save_as_ok s p : save_as_step s (a_saved s p) true
  | save_as_fail s : save_as_step s s false.

(** The maybe-save guard: [true] is "proceed". *)
Inductive guard : astate -> astate -> bool -> Prop :=
  | guard_clean s : adirty s = false -> guard s s true
  | guard_discard s : adirty s = true -> guard s s true
  | guard_cancel s : adirty s = true -> guard s s false
  | guard_save s s' b : adirty s = true -> save_step s s' b -> guard s s' b.

Inductive op := SNew | SOpen | SSave | SSaveAs | SEdit | SClose | SIdle.

(** One user operation: the new session, and whether the window is still
    open. *)
Inductive step : op -> astate -> astate -> bool -> Prop :=
  | step_new s s1 : guard s s1 true -> step SNew s (mkA None false "") true
  | step_new_abort s s1 : guard s s1 false -> step SNew s s1 true
  | step_open_abort s s1 : guard s s1 false -> step SOpen s s1 true
  | step_open_nothing s s1 : guard s s1 true -> step SOpen s s1 true
  | step_open s s1 p t : guard s s1 true -> step SOpen s (mkA (Some p) false t) true
  | step_save s s' b : save_step s s' b -> step SSave s s' true
  | step_save_as s s' b : save_as_step s s' b -> step SSaveAs s s' true
  | step_edit s t : step SEdit s (mkA (apath s) true t) true
  | step_edit_none s : step SEdit s s true
  | step_close s s1 b : guard s s1 b -> step SClose s s1 (negb b)
  | step_idle s : step SIdle s s true.

(** An aborting guard leaves the session unchanged. *)
Lemma guard_abort s s1 : guard s s1 false -> s1 = s.
Proof. intros Hg. inv Hg; [done |]. by inv H0. Qed.
End Spec.

Import Spec.

(** The operation of the specification that each user event is. *)
Definition action_op (a : action) : op :=
  match a with
  | ANew => SNew | AOpen => SOpen | ASave => SSave | ASaveAs => SSaveAs
  | AExit => SClose | AAbout => SIdle
  | AUndo | ARedo | ACut | ACopy | APaste => SEdit
  end.

Definition event_op (ev : ui_event) : op :=
  match ev with
  | Trigger a => action_op a
  | KeyPress k => match action_of_key k with Some a => action_op a | None => SIdle end
  | Typing _ => SEdit
  | CloseButton => SClose
  end.

Section Refinement.
Context {W : Type} `{TextSurfaceLaws W}.
Implicit Types (w : window W).

(** The abstraction: path, flag and text; the title and the widget's undo
    stack and clipboard are forgotten. *)
Definition abs w : astate := mkA (current_path w) (is_modified w) (text_of w).

Lemma abs_saved w (q : path) : abs (saved_window w q) = a_saved (abs w) q.
Proof. reflexivity. Qed.

Lemma save_to_path_refines w (q : path) :
  all_leaves (fun '((b, w1) : bool * window W) =>
    b = true /\ abs w1 = a_saved (abs w) q \/ b = false /\ w1 = w) (save_to_path q w).
Proof. eapply all_leaves_impl; [| apply save_to_path_leaves]. intros [[] w1] ->; auto. Qed.

Lemma file_save_as_refines w :
  all_leaves (fun '((b, w1) : bool * window W) => save_as_step (abs w) (abs w1) b)
    (file_save_as w).
Proof.
  eapply all_leaves_impl; [| apply file_save_as_leaves].
  intros [[] w1]; [intros [q ->]; rewrite abs_saved; constructor | intros ->; constructor].
Qed.

Lemma file_save_refines w :
  all_leaves (fun '((b, w1) : bool * window W) => save_step (abs w) (abs w1) b) (file_save w).
Proof.
  destruct (current_path w) as [q|] eqn:Hc.
  - rewrite (file_save_some w q Hc). eapply all_leaves_impl; [| apply save_to_path_refines].
    intros [b w1] [[-> ->] | [-> ->]]; constructor. right. by simpl; rewrite Hc.
  - rewrite (file_save_none w Hc). eapply all_leaves_impl; [| apply file_save_as_leaves].
    intros [[] w1]; [intros [q ->]; rewrite abs_saved; constructor; by left |].
    intros ->. constructor.
Qed.

Lemma maybe_save_refines w :
  all_leaves (fun '((ok, w1) : bool * window W) => guard (abs w) (abs w1) ok) (maybe_save w).
Proof.
  destruct (is_modified w) eqn:Hm.
  - rewrite (maybe_save_dirty w Hm). cbn.
    intros [| |]; cbn; [| by apply guard_discard | by apply guard_cancel].
    eapply all_leaves_impl; [| apply file_save_refines].
    intros [b w1] Hs. by apply guard_save.
  - rewrite (maybe_save_clean w Hm). by apply guard_clean.
Qed.

Lemma after_guard {A} (Q : A * window W -> Prop) (f : bool -> M (window W) A) w :
  (forall ok w1, guard (abs w) (abs w1) ok -> all_leaves Q (f ok w1)) ->
  all_leaves Q (sbind maybe_save f w).
Proof.
  intros Hf. unfold sbind. apply all_leaves_bind.
  eapply all_leaves_impl; [| apply maybe_save_refines]. intros [ok w1] Hg. by apply Hf.
Qed.

Lemma then_true {A} (Q : bool * window W -> Prop) (m : M (window W) A) w :
  all_leaves (fun '((_, w1) : A * window W) => Q (true, w1)) (m w) ->
  all_leaves Q ((m ;;; sret true) w).
Proof.
  intros Hm. unfold sbind. apply all_leaves_bind.
  eapply all_leaves_impl; [| exact Hm]. by intros [a w1].
Qed.

Lemma file_new_refines w :
  all_leaves (fun '((_, w1) : unit * window W) => step SNew (abs w) (abs w1) true) (file_new w).
Proof.
  apply after_guard. intros [] w1 Hg.
  - rewrite (sbind_pure _ _ _ _ _ (editor_clear_eq w1)). cbn. intros _.
    unfold abs, text_of; simpl. rewrite editor_mark_modified; simpl. rewrite toPlainText_clear.
    by eapply step_new.
  - by eapply step_new_abort.
Qed.

Lemma file_open_refines w :
  all_leaves (fun '((_, w1) : unit * window W) => step SOpen (abs w) (abs w1) true) (file_open w).
Proof.
  apply after_guard. intros [] w1 Hg; [| by eapply step_open_abort].
  cbn. intros p. destruct (String.eqb p ""); cbn; [by eapply step_open_nothing |].
  intros [text | msg]; cbn -[editor_setPlainText]; [| intros _; by eapply step_open_nothing].
  rewrite (sbind_pure _ _ _ _ _ (editor_setPlainText_eq w1 text)). cbn. intros _.
  by eapply step_open.
Qed.

Lemma closeEvent_refines w :
  all_leaves (fun '((open, w1) : bool * window W) => step SClose (abs w) (abs w1) open)
    (sbind closeEvent (fun acc => sret (negb acc)) w).
Proof.
  unfold sbind at 1. apply all_leaves_bind. unfold closeEvent.
  apply after_guard. intros ok w1 Hg. cbn. by constructor.
Qed.

Lemma editor_edit_refines w (ed : edit) :
  all_leaves (fun '((_, w1) : unit * window W) => step SEdit (abs w) (abs w1) true)
    (editor_edit ed w).
Proof.
  rewrite editor_edit_eq. simpl.
  destruct (apply_edit ed (editor w)) as [x []] eqn:Ee.
  - unfold mark_modified, with_editor; destruct (is_modified w) eqn:Hm; simpl.
    + unfold abs; simpl. rewrite Hm. apply step_edit.
    + apply step_edit.
  - pose proof (edit_silent ed (editor w)) as Hs. rewrite Ee in Hs. simpl in Hs.
    unfold abs, text_of, with_editor; simpl. rewrite Hs by done. apply step_edit_none.
Qed.

Lemma trigger_refines w (a : action) :
  all_leaves (fun '((open, w1) : bool * window W) => step (action_op a) (abs w) (abs w1) open)
    (trigger a w).
Proof.
  destruct a; cbn [trigger action_op]; try apply then_true.
  - apply file_new_refines.
  - apply file_open_refines.
  - eapply all_leaves_impl; [| apply file_save_refines]. intros [b w1] Hs. by econstructor.
  - eapply all_leaves_impl; [| apply file_save_as_refines]. intros [b w1] Hs. by econstructor.
  - apply closeEvent_refines.
  - apply editor_edit_refines.
  - apply editor_edit_refines.
  - apply editor_edit_refines.
  - apply editor_edit_refines.
  - apply editor_edit_refines.
  - cbn. intros _. apply step_idle.
Qed.

(** C1: every user event, whatever the user, the dialogs and the file
    system answer, moves the abstract session (path, flag, text) by a
    transition of the specification's machine: the guard before New,
    Open and close; Save to the current path or through Save As; New and
    Open replacing the document; edits setting Dirty; everything else
    leaving the session alone. *)
Theorem dispatch_refines (ev : ui_event) w e :
  let '(open, w1, _, _) := run (dispatch ev w) e in
  step (event_op ev) (abs w) (abs w1) open.
Proof.
  pose proof (run_all_leaves
    (fun '((open, w1) : bool * window W) => step (event_op ev) (abs w) (abs w1) open)
    (dispatch ev w) e) as Hr.
  destruct (run (dispatch ev w) e) as [[[open w1] e1] tr]. apply Hr. clear Hr.
  destruct ev as [a | k | t |]; simpl.
  - apply trigger_refines.
  - destruct (action_of_key k); [apply trigger_refines | cbn; apply step_idle].
  - apply then_true, editor_edit_refines.
  - apply closeEvent_refines.
Qed.

(** The start state is the specification's: untitled, clean, empty. *)
Lemma abs_init : abs window_init = mkA None false "".
Proof. unfold abs, text_of; simpl. by rewrite toPlainText_new. Qed.
End Refinement.

(** ** Witness *)

Module RefinementWitnesses.
Import QEditModel.

(** A New on a modified window answered Cancel is the specification's
    aborting New. *)
Lemma dispatch_refines_witness :
  let w := mkWindow None true "*SabrinaEdit - Untitled" (mkQEdit "draft" [""] [] "") in
  let '(open, w1, _, _) := run (dispatch (Trigger ANew) w) (mkEnv ∅ ∅ ∅ [UButton Cancel]) in
  step (event_op (Trigger ANew)) (abs w) (abs w1) open.
Proof. intros w. exact (dispatch_refines (Trigger ANew) w (mkEnv ∅ ∅ ∅ [UButton Cancel])). Defined.
End RefinementWitnesses.
